(** * dlcf-library-bot: the catalog index, the intake state machine,
      the request ledger and the rate limiter of [index.js]

    The development embeds the message handler of the bot and the
    helpers it calls.  JavaScript strings are sequences of UTF-16 code
    units, objects used as dictionaries are finite maps, and the
    asynchronous calls to the sheet, to the chat transport and to the
    file system are steps of a small state-and-exception monad whose
    outcomes are supplied by an environment. *)

From Stdlib Require Import ZArith NArith List Bool Lia Ascii String QArith Sorted.
From stdpp Require Import gmap list.
Import ListNotations.

Local Open Scope N_scope.

(** ** JavaScript strings *)

(** A string value: the sequence of its UTF-16 code units. *)
Abbreviation jsstring := (list N).

(** An ASCII literal as a JavaScript string. *)
Definition js (s : string) : jsstring :=
  map N_of_ascii (list_ascii_of_string s).

(** The class [[\u0000-\u001F\u007F]] of the regular expression in
    [safeText]. *)
Definition isControl (c : N) : bool := (c <=? 31) || (c =? 127).

(** White space and line terminators, as removed by
    [String.prototype.trim]. *)
Definition isWhiteSpace (c : N) : bool :=
  ((9 <=? c) && (c <=? 13)) || (c =? 32) || (c =? 160) || (c =? 5760)
  || ((8192 <=? c) && (c <=? 8202)) || (c =? 8232) || (c =? 8233)
  || (c =? 8239) || (c =? 8287) || (c =? 12288) || (c =? 65279).

Fixpoint trimStart (s : jsstring) : jsstring :=
  match s with
  | c :: s' => if isWhiteSpace c then trimStart s' else s
  | [] => []
  end.

Definition trimEnd (s : jsstring) : jsstring := rev (trimStart (rev s)).

Definition trim (s : jsstring) : jsstring := trimEnd (trimStart s).

(** [s.replace(/[\u0000-\u001F\u007F]/g, '')] *)
Definition stripControl (s : jsstring) : jsstring :=
  List.filter (fun c => negb (isControl c)) s.

(** [safeText]: [undefined] and [null] give the empty string. *)
Definition safeText (v : option jsstring) : jsstring :=
  match v with
  | None => []
  | Some s => trim (stripControl s)
  end.

(** [safeFileId]: only [trim], no character is removed. *)
Definition safeFileId (v : option jsstring) : jsstring :=
  match v with
  | None => []
  | Some s => trim s
  end.

(** [s.split(sep)] for a one-character separator. *)
Fixpoint split (sep : N) (s : jsstring) : list jsstring :=
  match s with
  | [] => [[]]
  | c :: s' =>
      if c =? sep then [] :: split sep s'
      else match split sep s' with
           | seg :: rest => (c :: seg) :: rest
           | [] => [[c]]
           end
  end.

(** Truthiness of a string: non-empty. *)
Definition truthy (s : jsstring) : bool :=
  match s with [] => false | _ => true end.

(** [x || ''] for a possibly missing string. *)
Definition orEmpty (v : option jsstring) : jsstring :=
  match v with
  | Some s => s
  | None => []
  end.

Definition startsWith (s : jsstring) (c : N) : bool :=
  match s with
  | c' :: _ => c' =? c
  | [] => false
  end.

Definition PIPE : N := 124.
Definition SLASH : N := 47.

(** ** The catalog *)

Record BookRecord := mkBook {
  id : jsstring;
  title : jsstring;
  author : jsstring;
  file_id : jsstring
}.

(** A row of the sheet: the cells of columns A to D that are present. *)
Abbreviation Row := (list jsstring).

(** [r[k] || ''] *)
Definition cell (r : Row) (k : nat) : jsstring := orEmpty (r !! k).

(** The body of the loop of [loadSheet] for row [r]: the record pushed
    on [parsed], if any. *)
Definition parseRow (r : Row) : option BookRecord :=
  let id := safeText (Some (cell r 0)) in
  let title := safeText (Some (cell r 1)) in
  let author := safeText (Some (cell r 2)) in
  let file_id := safeFileId (Some (cell r 3)) in
  if truthy title && truthy file_id
  then Some (mkBook id title author file_id)
  else None.

(** [for (let i = 1; i < rows.length; i++)], with [fuel] the number of
    iterations left and [parsed] the array built so far. *)
Fixpoint loadLoop (rows : list Row) (fuel i : nat) (parsed : list BookRecord)
  : list BookRecord :=
  match fuel with
  | O => parsed
  | S fuel' =>
      let parsed' :=
        match rows !! i with
        | Some r =>
            match parseRow r with
            | Some b => parsed ++ [b]
            | None => parsed
            end
        | None => parsed
        end in
      loadLoop rows fuel' (S i) parsed'
  end.

(** The value assigned to [books] by [loadSheet] on the fetched rows. *)
Definition parseRows (rows : list Row) : list BookRecord :=
  loadLoop rows (length rows - 1) 1 [].

(** [books.find(b => b.file_id === file_id)] *)
Definition eqb_str (a b : jsstring) : bool := bool_decide (a = b).

Definition findByFileId (books : list BookRecord) (f : jsstring)
  : option BookRecord :=
  List.find (fun b => eqb_str (file_id b) f) books.

(** ** State of the process and of its collaborators *)

(** A pending upload, [{ file_id, mimeType }]. *)
Record Session := mkSession {
  s_file_id : jsstring;
  s_mimeType : jsstring
}.

(** An entry of [db.requests].  Its [id] is the pair rendered as
    [`${Date.now()}_${fromId}`]. *)
Record RequestRecord := mkRequest {
  req_id : Z * jsstring;
  req_userId : jsstring;
  req_userName : jsstring;
  req_query : jsstring;
  req_createdAt : Z
}.

Record UserStat := mkStat {
  downloads : nat;
  lastDownload : option Z
}.

Record World := mkWorld {
  books : list BookRecord;           (* [let books] *)
  fuse : list BookRecord;            (* the collection [fuse] indexes *)
  waitingForMeta : gmap Z Session;   (* keyed by chat id *)
  lastRequestAt : gmap jsstring Z;   (* the rate limiter's [Map] *)
  requests : list RequestRecord;     (* [db.requests] *)
  userStats : gmap jsstring UserStat;(* [db.userStats] *)
  sheet : list Row                   (* rows of the remote sheet *)
}.

(** A rejected promise or a thrown error, with its [message]. *)
Record Error := mkError { message : option jsstring }.

Inductive Recipient :=
| Chat (chatId : Z)
| Admin (adminId : jsstring).

(** The [query] of a notification: the text the user searched for, or
    the diagnostic of a document that was found and could not be sent
    (the record and the error message). *)
Inductive NoticeQuery :=
| Query (q : jsstring)
| SendFailed (b : BookRecord) (errmsg : option jsstring).

(** What [notifyAdminsAboutRequest] reads of its argument. *)
Record Notice := mkNotice {
  n_userId : jsstring;
  n_userName : jsstring;
  n_query : NoticeQuery;
  n_time : option Z
}.

(** The texts the handler sends, by kind. *)
Inductive Text :=
| SlowDown
| UnsupportedType (mimeType : jsstring)
| CaptionFormat
| AlreadyInLibrary (title : jsstring)
| SavedToLibrary (title : jsstring)
| FailedToSave (title : jsstring) (msg : option jsstring)
| AskMetadata (mimeType : jsstring)
| InvalidMetadata
| SavedToSheet (title : jsstring)
| FailedSave (msg : option jsstring)
| NoMatchAdmin (query : jsstring)
| NoMatchUser (query : jsstring)
| FoundAdmin (b : BookRecord)
| Motivational (k : nat) (b : BookRecord)
| SendIssue (title : jsstring)
| NewBookRequest (n : Notice)
| Milestone (count : nat)
| FollowUp (k count : nat)
| OnlyAdminReload
| Reloading
| Reloaded (count : nat)
| ReloadFailed (msg : option jsstring).

Inductive LogLine :=
| LoadSheetError (e : Error)
| AppendRowError (e : Error)
| AppendRowUploadError (e : Error)
| AppendRowReplyError (e : Error)
| NotifyAdminFailed (adminId : jsstring) (e : Error)
| SendDocumentFailed (b : BookRecord) (e : Error)
| HandlerError (e : Error)
| UnhandledRejection (e : Error).

(** The calls that leave the process, in the order they are made.
    Informational log lines are not recorded, those of the [catch]
    blocks are. *)
Inductive Effect :=
| SendMessage (to : Recipient) (t : Text) (failure : option Error)
| SendDocument (chatId : Z) (f : jsstring) (failure : option Error)
| SheetAppend (row : Row) (failure : option Error)
| SheetGet (failure : option Error)
| SaveDB (failure : option Error)
| SetTimeout (ms : Z) (chatId : Z) (t : Text)
| Log (l : LogLine).

(** The outcomes of the outside world during one event. *)
Record Env := mkEnv {
  now : Z;                                          (* [Date.now()] *)
  append_failure : option Error;                    (* sheet append *)
  get_failure : option Error;                       (* sheet read *)
  send_failure : Recipient -> Text -> option Error; (* [bot.sendMessage] *)
  document_failure : option Error;                  (* [bot.sendDocument] *)
  save_failure : option Error;                      (* [fs.writeFileSync] *)
  random : nat -> nat                               (* [Math.random] picks *)
}.

(** ** The monad of handlers: state, effects and exceptions *)

Record Outcome (A : Type) := mkOutcome {
  final : World;
  effects : list Effect;
  value : Error + A
}.
Arguments mkOutcome {A} _ _ _.
Arguments final {A} _.
Arguments effects {A} _.
Arguments value {A} _.

Definition M (A : Type) : Type := World -> Outcome A.

Definition ret {A} (a : A) : M A := fun w => mkOutcome w [] (inr a).

Definition throw {A} (e : Error) : M A := fun w => mkOutcome w [] (inl e).

Definition bind {A B} (m : M A) (k : A -> M B) : M B := fun w =>
  let o := m w in
  match value o with
  | inl e => mkOutcome (final o) (effects o) (inl e)
  | inr a =>
      let o' := k a (final o) in
      mkOutcome (final o') (effects o ++ effects o') (value o')
  end.

(** [try { m } catch (e) { h e }] *)
Definition tryCatch {A} (m : M A) (h : Error -> M A) : M A := fun w =>
  let o := m w in
  match value o with
  | inl e =>
      let o' := h e (final o) in
      mkOutcome (final o') (effects o ++ effects o') (value o')
  | inr a => o
  end.

Definition get : M World := fun w => mkOutcome w [] (inr w).
Definition modify (f : World -> World) : M unit :=
  fun w => mkOutcome (f w) [] (inr tt).
Definition emit (e : Effect) : M unit := fun w => mkOutcome w [e] (inr tt).

#[export] Instance M_ret : MRet M := @ret.
#[export] Instance M_bind : MBind M := fun A B k m => bind m k.

(** An awaited call: recorded, and its failure thrown. *)
Definition await (e : Effect) (failure : option Error) : M unit :=
  emit e ;;
  match failure with
  | Some err => throw err
  | None => ret tt
  end.

Definition set_books (v : list BookRecord) (w : World) : World :=
  mkWorld v (fuse w) (waitingForMeta w) (lastRequestAt w) (requests w)
          (userStats w) (sheet w).
Definition set_fuse (v : list BookRecord) (w : World) : World :=
  mkWorld (books w) v (waitingForMeta w) (lastRequestAt w) (requests w)
          (userStats w) (sheet w).
Definition set_waitingForMeta (v : gmap Z Session) (w : World) : World :=
  mkWorld (books w) (fuse w) v (lastRequestAt w) (requests w)
          (userStats w) (sheet w).
Definition set_lastRequestAt (v : gmap jsstring Z) (w : World) : World :=
  mkWorld (books w) (fuse w) (waitingForMeta w) v (requests w)
          (userStats w) (sheet w).
Definition set_requests (v : list RequestRecord) (w : World) : World :=
  mkWorld (books w) (fuse w) (waitingForMeta w) (lastRequestAt w) v
          (userStats w) (sheet w).
Definition set_userStats (v : gmap jsstring UserStat) (w : World) : World :=
  mkWorld (books w) (fuse w) (waitingForMeta w) (lastRequestAt w)
          (requests w) v (sheet w).
Definition set_sheet (v : list Row) (w : World) : World :=
  mkWorld (books w) (fuse w) (waitingForMeta w) (lastRequestAt w)
          (requests w) (userStats w) v.

(** ** Incoming messages *)

Record Document := mkDocument {
  d_file_id : jsstring;
  d_mime_type : option jsstring;
  d_file_name : option jsstring
}.

(** The fields of a Telegram message the handler reads; [from_id] is
    [String(msg.from.id)] and [chat_private] is
    [msg.chat.type === 'private']. *)
Record Message := mkMessage {
  chat_private : bool;
  chat_id : Z;
  from_id : jsstring;
  username : option jsstring;
  first_name : option jsstring;
  last_name : option jsstring;
  document : option Document;
  caption : option jsstring;
  text : option jsstring;
  reply_to_message : bool
}.

(** [a || b] on strings, [a] possibly missing. *)
Definition orElse (a : option jsstring) (b : jsstring) : jsstring :=
  match a with
  | Some s => if truthy s then s else b
  | None => b
  end.

Definition allowedTypes : list jsstring :=
  [ js "application/pdf";
    js "application/msword";
    js "application/vnd.openxmlformats-officedocument.wordprocessingml.document";
    js "application/vnd.ms-excel";
    js "application/vnd.openxmlformats-officedocument.spreadsheetml.sheet";
    js "application/vnd.ms-powerpoint";
    js "application/vnd.openxmlformats-officedocument.presentationml.presentation";
    js "text/plain";
    js "application/rtf";
    js "application/epub+zip";
    js "application/x-mobipocket-ebook" ].

Definition isValidDocumentType (mimeType : jsstring) : bool :=
  existsb (eqb_str mimeType) allowedTypes.

(** [caption.split('|').map(s => s.trim())] and the three fields read
    from it: [(parts[0] || '', parts[1] || '', parts[2] || '')]. *)
Definition parseMeta (s : jsstring) : jsstring * jsstring * jsstring :=
  let parts := map trim (split PIPE s) in
  (orEmpty (parts !! 0%nat), orEmpty (parts !! 1%nat), orEmpty (parts !! 2%nat)).

Definition getUserMilestoneMessage (downloadCount : nat) : option Text :=
  if existsb (Nat.eqb downloadCount) [1; 5; 10; 25; 50; 100]%nat
  then Some (Milestone downloadCount)
  else None.

Definition RATE_WINDOW_MS : Z := 1000.

(** ** The handlers *)

Section Bot.

(** The administrator roster, read once from the environment. *)
Variable ADMIN_IDS : list jsstring.

(** [fuse.search] of fuse.js, built with keys title, author and id,
    threshold 0.35 and [includeScore]: from the indexed collection and
    the pattern to the matches with their scores. *)
Variable Fuse_search : list BookRecord -> jsstring -> list (BookRecord * Q).

Definition isAdmin (userId : jsstring) : bool :=
  existsb (eqb_str userId) ADMIN_IDS.

Definition rateLimit (env : Env) (userId : jsstring) : M bool :=
  w ← get;
  let last := default 0%Z (lastRequestAt w !! userId) in
  if (now env - last <? RATE_WINDOW_MS)%Z then mret false
  else
    modify (fun w => set_lastRequestAt (<[userId := now env]> (lastRequestAt w)) w);;
    mret true.

Definition saveDB (env : Env) : M unit :=
  await (SaveDB (save_failure env)) (save_failure env).

Definition awaitSend (env : Env) (to : Recipient) (t : Text) : M unit :=
  await (SendMessage to t (send_failure env to t)) (send_failure env to t).

(** [return bot.sendMessage(...)]: the promise is returned, not
    awaited, so its rejection is caught by no [catch] block of the
    handler and reaches the process-wide rejection logger. *)
Definition returnSend (env : Env) (to : Recipient) (t : Text) : M unit :=
  emit (SendMessage to t (send_failure env to t));;
  match send_failure env to t with
  | Some e => emit (Log (UnhandledRejection e))
  | None => mret tt
  end.

Definition appendRowToSheet (env : Env) (id title author file_id : jsstring)
  : M bool :=
  tryCatch
    (let values := [ safeText (Some id); safeText (Some title);
                     safeText (Some author); safeFileId (Some file_id) ] in
     await (SheetAppend values (append_failure env)) (append_failure env);;
     modify (fun w => set_sheet (sheet w ++ [values]) w);;
     mret true)
    (fun err => emit (Log (AppendRowError err));; throw err).

Definition loadSheet (env : Env) : M nat :=
  tryCatch
    (await (SheetGet (get_failure env)) (get_failure env);;
     w ← get;
     let rows := sheet w in
     let parsed := parseRows rows in
     modify (set_books parsed);;
     modify (set_fuse parsed);;
     mret (length parsed))
    (fun err => emit (Log (LoadSheetError err));; throw err).

(** The loop of [notifyAdminsAboutRequest] over the roster. *)
Fixpoint notifyLoop (env : Env) (admins : list jsstring) (n : Notice)
  : M unit :=
  match admins with
  | [] => mret tt
  | adminId :: rest =>
      tryCatch
        (awaitSend env (Admin adminId) (NewBookRequest n))
        (fun e => emit (Log (NotifyAdminFailed adminId e)));;
      notifyLoop env rest n
  end.

Definition notifyAdminsAboutRequest (env : Env) (n : Notice) : M unit :=
  notifyLoop env ADMIN_IDS n.

Definition trackUserDownload (env : Env) (userId : jsstring) : M nat :=
  w ← get;
  let st := default (mkStat 0 None) (userStats w !! userId) in
  let st' := mkStat (S (downloads st)) (Some (now env)) in
  modify (fun w => set_userStats (<[userId := st']> (userStats w)) w);;
  saveDB env;;
  mret (downloads st').

(** The branch [if (msg.document && isAdmin(fromId))]. *)
Definition handleUpload (env : Env) (msg : Message) (doc : Document)
  : M unit :=
  let chatId := chat_id msg in
  let file_id := safeFileId (Some (d_file_id doc)) in
  let mimeType := orEmpty (d_mime_type doc) in
  let caption := safeText (Some (orEmpty (caption msg))) in
  if negb (isValidDocumentType mimeType)
  then returnSend env (Chat chatId) (UnsupportedType mimeType)
  else if truthy caption then
    let '(id', title', author') := parseMeta caption in
    if negb (truthy title') || negb (truthy file_id)
    then returnSend env (Chat chatId) CaptionFormat
    else
      w ← get;
      match findByFileId (books w) file_id with
      | Some b => returnSend env (Chat chatId) (AlreadyInLibrary (title b))
      | None =>
          tryCatch
            (appendRowToSheet env id' title' author' file_id;;
             loadSheet env;;
             returnSend env (Chat chatId) (SavedToLibrary title'))
            (fun e =>
               emit (Log (AppendRowUploadError e));;
               returnSend env (Chat chatId) (FailedToSave title' (message e)))
      end
  else
    modify (fun w => set_waitingForMeta
                       (<[chatId := mkSession file_id mimeType]> (waitingForMeta w)) w);;
    returnSend env (Chat chatId) (AskMetadata mimeType).

(** The branch of a reply to a pending upload; [sess] is
    [waitingForMeta[chatId]]. *)
Definition handleReply (env : Env) (msg : Message) (sess : Session)
  : M unit :=
  let chatId := chat_id msg in
  let meta := safeText (Some (orEmpty (text msg))) in
  let '(id', title', author') := parseMeta meta in
  let file_id := s_file_id sess in
  if negb (truthy title') || negb (truthy file_id)
  then returnSend env (Chat chatId) InvalidMetadata
  else
    tryCatch
      (appendRowToSheet env id' title' author' file_id;;
       modify (fun w => set_waitingForMeta (delete chatId (waitingForMeta w)) w);;
       loadSheet env;;
       returnSend env (Chat chatId) (SavedToSheet title'))
      (fun e =>
         emit (Log (AppendRowReplyError e));;
         returnSend env (Chat chatId) (FailedSave (message e))).

Definition userName (msg : Message) : jsstring :=
  trim (orElse (username msg)
               (orEmpty (first_name msg) ++ [32] ++ orEmpty (last_name msg))).

(** The branch [if (msg.text)]: a plain text is a search query. *)
Definition handleQuery (env : Env) (msg : Message) (txt : jsstring)
  : M unit :=
  let chatId := chat_id msg in
  let fromId := from_id msg in
  let query := safeText (Some (trim txt)) in
  if negb (truthy query) then mret tt
  else
    w ← get;
    match Fuse_search (fuse w) query with
    | [] =>
        let req := mkRequest (now env, fromId) fromId (userName msg) query
                             (now env) in
        modify (fun w => set_requests (requests w ++ [req]) w);;
        saveDB env;;
        awaitSend env (Chat chatId)
          (if isAdmin fromId then NoMatchAdmin query else NoMatchUser query);;
        notifyAdminsAboutRequest env
          (mkNotice (req_userId req) (req_userName req)
                    (Query (req_query req)) None)
    | (best, _) :: _ =>
        tryCatch
          (awaitSend env (Chat chatId)
             (if isAdmin fromId then FoundAdmin best
              else Motivational (random env 0 mod 5) best);;
           await (SendDocument chatId (file_id best) (document_failure env))
                 (document_failure env);;
           if negb (isAdmin fromId) then
             downloadCount ← trackUserDownload env fromId;
             match getUserMilestoneMessage downloadCount with
             | Some m => emit (SetTimeout 1500 chatId m)
             | None =>
                 emit (SetTimeout 2000 chatId
                         (FollowUp (random env 1 mod 5) downloadCount))
             end
           else mret tt)
          (fun err =>
             emit (Log (SendDocumentFailed best err));;
             awaitSend env (Chat chatId) (SendIssue (title best));;
             notifyAdminsAboutRequest env
               (mkNotice fromId
                  (trim (orElse (username msg) (orEmpty (first_name msg))))
                  (SendFailed best (message err))
                  (Some (now env))))
    end.

(** The end of the handler: commands are left to their own handlers,
    any other text is a search query. *)
Definition handleText (env : Env) (msg : Message) : M unit :=
  match text msg with
  | Some txt =>
      if negb (truthy txt) then mret tt
      else if startsWith txt SLASH then mret tt
      else handleQuery env msg txt
  | None => mret tt
  end.

(** What follows the upload branch: the test
    [msg.reply_to_message && waitingForMeta[chatId] && isAdmin(fromId)
     && msg.text], then [handleText]. *)
Definition afterUpload (env : Env) (msg : Message) : M unit :=
  w ← get;
  match waitingForMeta w !! chat_id msg with
  | Some sess =>
      if reply_to_message msg && isAdmin (from_id msg)
         && truthy (orEmpty (text msg))
      then handleReply env msg sess
      else handleText env msg
  | None => handleText env msg
  end.

(** The handler past the limiter: the upload branch for an
    administrator's document, otherwise the rest. *)
Definition dispatch (env : Env) (msg : Message) : M unit :=
  match document msg with
  | Some doc =>
      if isAdmin (from_id msg) then handleUpload env msg doc
      else afterUpload env msg
  | None => afterUpload env msg
  end.

(** [bot.on('message', async (msg) => { ... })] *)
Definition onMessage (env : Env) (msg : Message) : M unit :=
  tryCatch
    (if negb (chat_private msg) then mret tt
     else
       allowed ← rateLimit env (from_id msg);
       if negb allowed
       then returnSend env (Chat (chat_id msg)) SlowDown
       else dispatch env msg)
    (fun err => emit (Log (HandlerError err))).

(** [bot.onText(/\/reload/, ...)]: its messages are sent without
    [await] or [return]. *)
Definition onReload (env : Env) (chatId : Z) (fromId : jsstring) : M unit :=
  if negb (isAdmin fromId) then returnSend env (Chat chatId) OnlyAdminReload
  else
    returnSend env (Chat chatId) Reloading;;
    tryCatch
      (cnt ← loadSheet env;
       returnSend env (Chat chatId) (Reloaded cnt))
      (fun e => returnSend env (Chat chatId) (ReloadFailed (message e))).

End Bot.

(** ** Runs and observations *)

(** A sequence of calls of [rateLimit], each with the clock of its
    environment, and the answers in order. *)
Fixpoint allowRun (calls : list (Env * jsstring)) (w : World) : list bool :=
  match calls with
  | [] => []
  | (env, u) :: rest =>
      let o := rateLimit env u w in
      match value o with
      | inr b => b :: allowRun rest (final o)
      | inl _ => []
      end
  end.

(** The limiter admits the sender of [msg] at the clock of [env]. *)
Definition admitted (env : Env) (w : World) (msg : Message) : Prop :=
  (now env - default 0 (lastRequestAt w !! from_id msg) <? RATE_WINDOW_MS)%Z
  = false.

(** The state the limiter leaves when it admits. *)
Definition stamped (env : Env) (w : World) (msg : Message) : World :=
  set_lastRequestAt (<[from_id msg := now env]> (lastRequestAt w)) w.

(** The trace of a message sent with [return bot.sendMessage]. *)
Definition sent (env : Env) (to : Recipient) (t : Text) : list Effect :=
  SendMessage to t (send_failure env to t) ::
  match send_failure env to t with
  | Some e => [Log (UnhandledRejection e)]
  | None => []
  end.

(** A document sent in a private chat by an administrator, of an
    allowed type. *)
Definition adminUpload (ADMIN_IDS : list jsstring) (msg : Message)
  (doc : Document) : Prop :=
  chat_private msg = true /\ document msg = Some doc
  /\ isAdmin ADMIN_IDS (from_id msg) = true
  /\ isValidDocumentType (orEmpty (d_mime_type doc)) = true.

(** A text sent in a private chat by an administrator as a reply,
    while [sess] is pending for the chat. *)
Definition metadataReply (ADMIN_IDS : list jsstring) (w : World)
  (msg : Message) (sess : Session) : Prop :=
  chat_private msg = true /\ document msg = None
  /\ reply_to_message msg = true
  /\ waitingForMeta w !! chat_id msg = Some sess
  /\ isAdmin ADMIN_IDS (from_id msg) = true
  /\ truthy (orEmpty (text msg)) = true.

(** The row [appendRowToSheet] writes. *)
Definition sheetRow (i t a f : jsstring) : Row :=
  [safeText (Some i); safeText (Some t); safeText (Some a); safeFileId (Some f)].

Definition isSheetAppend (e : Effect) : bool :=
  match e with SheetAppend _ _ => true | _ => false end.

Definition isAdminSend (e : Effect) : bool :=
  match e with SendMessage (Admin _) _ _ => true | _ => false end.

(** The rows the handler tried to append, and the deliveries it tried
    to make to administrators, in order. *)
Definition appendsOf (es : list Effect) : list Effect :=
  List.filter isSheetAppend es.
Definition notificationsOf (es : list Effect) : list Effect :=
  List.filter isAdminSend es.

(** A computation that appends no row and leaves the sessions, the
    sheet and the generation as they are. *)
Definition preserves {A} (m : M A) : Prop :=
  forall w,
    appendsOf (effects (m w)) = []
    /\ waitingForMeta (final (m w)) = waitingForMeta w
    /\ sheet (final (m w)) = sheet w
    /\ books (final (m w)) = books w
    /\ fuse (final (m w)) = fuse w.

(** The notification of a request to one administrator of the roster. *)
Definition notification (env : Env) (n : Notice) (adminId : jsstring) : Effect :=
  SendMessage (Admin adminId) (NewBookRequest n)
              (send_failure env (Admin adminId) (NewBookRequest n)).

(** What [notifyAdminsAboutRequest] leaves in the trace for one
    administrator: the attempt, and the log line when it failed. *)
Definition notifyTrace (env : Env) (n : Notice) (adminId : jsstring)
  : list Effect :=
  notification env n adminId ::
  match send_failure env (Admin adminId) (NewBookRequest n) with
  | Some e => [Log (NotifyAdminFailed adminId e)]
  | None => []
  end.

(** [segs.join(sep)] *)
Fixpoint join (sep : N) (segs : list jsstring) : jsstring :=
  match segs with
  | [] => []
  | [s] => s
  | s :: rest => s ++ sep :: join sep rest
  end.

(** The number of records of a generation with a given reference. *)
Definition countRef (f : jsstring) (bs : list BookRecord) : nat :=
  length (List.filter (fun b => eqb_str (file_id b) f) bs).

(** The message [msg] without its [reply_to_message]. *)
Definition unthreaded (msg : Message) : Message :=
  mkMessage (chat_private msg) (chat_id msg) (from_id msg) (username msg)
            (first_name msg) (last_name msg) (document msg) (caption msg)
            (text msg) false.

(** The entry of the ledger for an unanswered query, the notice sent
    to the administrators for it, and the answer to the user. *)
Definition requestOf (env : Env) (msg : Message) (query : jsstring)
  : RequestRecord :=
  mkRequest (now env, from_id msg) (from_id msg) (userName msg) query (now env).

Definition noticeOf (msg : Message) (query : jsstring) : Notice :=
  mkNotice (from_id msg) (userName msg) (Query query) None.

Definition noMatchReply (ADMIN_IDS : list jsstring) (msg : Message)
  (query : jsstring) : Text :=
  if isAdmin ADMIN_IDS (from_id msg) then NoMatchAdmin query
  else NoMatchUser query.

(** A text in a private chat that is neither a command nor the reply
    to a pending upload. *)
Definition plainText (ADMIN_IDS : list jsstring) (w : World) (msg : Message)
  (txt : jsstring) : Prop :=
  chat_private msg = true /\ document msg = None /\ text msg = Some txt
  /\ txt <> [] /\ startsWith txt SLASH = false
  /\ (reply_to_message msg = false \/ waitingForMeta w !! chat_id msg = None
      \/ isAdmin ADMIN_IDS (from_id msg) = false).

(** ** The matcher *)

Module Matcher.

(** The [threshold] option given to [new Fuse] in [loadSheet]. *)
Definition THRESHOLD : Q := 35 # 100.

Section Search.

(** Modelled from the spec: the scoring of fuse.js, whose source is
    not in the repository.  [score q b] is the normalized
    dissimilarity between the query and the searchable fields of the
    record, on a scale from 0 to 1, lower for a stronger match. *)
Variable score : jsstring -> BookRecord -> Q.

(** Modelled from the spec: the acceptance test of fuse.js, a score
    below the threshold. *)
Definition below (p : BookRecord * Q) : bool :=
  negb (Qle_bool THRESHOLD (snd p)).

(** Modelled from the spec: the ordering of the results of fuse.js,
    ascending by score with ties in insertion order.  An entry is
    inserted in a list sorted by score before the entries that score
    the same, so the sort is stable. *)
Fixpoint insertByScore (x : BookRecord * Q) (l : list (BookRecord * Q))
  : list (BookRecord * Q) :=
  match l with
  | [] => [x]
  | y :: l' =>
      if Qle_bool (snd x) (snd y) then x :: y :: l'
      else y :: insertByScore x l'
  end.

(** Modelled from the spec: the stable sort of the results of fuse.js
    by score. *)
Fixpoint sortByScore (l : list (BookRecord * Q)) : list (BookRecord * Q) :=
  match l with
  | [] => []
  | x :: l' => insertByScore x (sortByScore l')
  end.

(** Modelled from the spec: [search] of the Matcher (the call
    [fuse.search] of fuse.js, whose source is not in the
    repository).  A record is accepted only if its score is below
    the threshold, the results are ordered ascending by score, and
    ties keep the order of the generation. *)
Definition search (query : jsstring) (generation : list BookRecord)
  : list (BookRecord * Q) :=
  sortByScore
    (List.filter below (map (fun b => (b, score query b)) generation)).

End Search.

(** A scoring for examples: 0 on an exact title, 1 otherwise. *)
Definition exactTitle (q : jsstring) (b : BookRecord) : Q :=
  if eqb_str (title b) q then 0 else 1.

End Matcher.

(** ** The catalog loader as the specification words it *)

(** One row after the header: the three descriptive fields cleaned by
    [safeText], the reference only trimmed, and the row kept only when
    both the title and the reference are non-empty. *)
Definition specRecord (r : Row) : option BookRecord :=
  let t := safeText (Some (cell r 1)) in
  let f := safeFileId (Some (cell r 3)) in
  match t, f with
  | _ :: _, _ :: _ =>
      Some (mkBook (safeText (Some (cell r 0))) t (safeText (Some (cell r 2))) f)
  | _, _ => None
  end.

(** The generation: the header is skipped and the remaining rows are
    taken in their order, the invalid ones left out. *)
Definition specLoad (rows : list Row) : list BookRecord :=
  omap specRecord (tail rows).

(** ** Example data *)

(** An environment in which every outside call succeeds, at clock [t]. *)
Definition quietEnv (t : Z) : Env :=
  mkEnv t None None (fun _ _ => None) None None (fun _ => 0%nat).

Definition boom : Error := mkError (Some (js "boom")).

(** Environments in which one collaborator fails: the append, the read
    of the sheet, the messages to chats, the messages to administrator
    42. *)
Definition appendDown (t : Z) : Env :=
  mkEnv t (Some boom) None (fun _ _ => None) None None (fun _ => 0%nat).

Definition reloadDown (t : Z) : Env :=
  mkEnv t None (Some boom) (fun _ _ => None) None None (fun _ => 0%nat).

Definition chatDown (t : Z) : Env :=
  mkEnv t None None
        (fun to _ => match to with Chat _ => Some boom | Admin _ => None end)
        None None (fun _ => 0%nat).

Definition adminDown (t : Z) : Env :=
  mkEnv t None None
        (fun to _ => match to with
                     | Admin a => if eqb_str a (js "42") then Some boom else None
                     | Chat _ => None
                     end)
        None None (fun _ => 0%nat).

Definition emptyWorld : World := mkWorld [] [] ∅ ∅ [] ∅ [].

Definition headerRow : Row := [js "id"; js "title"; js "author"; js "file_id"].

(** A sheet with a header, two valid rows and two rows to leave out. *)
Definition demoSheet : list Row :=
  [ headerRow;
    [js "1"; js " Great Book "; js "Jane Doe"; js " BQAC 1 "];
    [js "2"; js ""; js "Nobody"; js "BQAC2"];
    [js "3"; js "Untitled"];
    [js "4"; js "Other Book"; js ""; js "BQAC4"] ].

Definition demoWorld : World := set_sheet demoSheet emptyWorld.

(** Two records under one title, and the sheet they are loaded from. *)
Definition twin1 : BookRecord :=
  mkBook (js "1") (js "Great Book") (js "Jane Doe") (js "BQAC1").
Definition twin2 : BookRecord :=
  mkBook (js "2") (js "Great Book") (js "John Roe") (js "BQAC2").

Definition twinSheet : list Row :=
  [ headerRow;
    [js "1"; js "Great Book"; js "Jane Doe"; js "BQAC1"];
    [js "2"; js "Great Book"; js "John Roe"; js "BQAC2"] ].

(** The record of the first match of a search. *)
Definition firstItem (results : list (BookRecord * Q)) : option BookRecord :=
  option_map fst (head results).

(** A roster of two administrators, and a search that finds nothing. *)
Definition roster : list jsstring := [js "42"; js "77"].

Definition noMatches : list BookRecord -> jsstring -> list (BookRecord * Q) :=
  fun _ _ => [].

Definition pdf : Document :=
  mkDocument (js "BQAC9") (Some (js "application/pdf")) None.

(** Messages of administrator 42 in chat 7: a document with an optional
    caption, a threaded reply, and a text of user 5 in chat 9. *)
Definition uploadMsg (cap : option jsstring) : Message :=
  mkMessage true 7 (js "42") None None None (Some pdf) cap None false.

(** A document sent under the reference of the first record of the
    demonstration sheet. *)
Definition dupMsg (cap : option jsstring) : Message :=
  mkMessage true 7 (js "42") None None None
            (Some (mkDocument (js "BQAC 1") (Some (js "application/pdf")) None))
            cap None false.

Definition replyMsg (t : jsstring) : Message :=
  mkMessage true 7 (js "42") None None None None None (Some t) true.

Definition userMsg (t : jsstring) : Message :=
  mkMessage true 9 (js "5") (Some (js "reader")) None None None None (Some t)
            false.

(** The demonstration sheet loaded, and the same with an upload pending
    in chat 7. *)
Definition loadedWorld : World :=
  set_fuse (parseRows demoSheet) (set_books (parseRows demoSheet) demoWorld).

Definition pendingWorld (f : jsstring) : World :=
  set_waitingForMeta {[ 7%Z := mkSession f (js "application/pdf") ]} loadedWorld.

(** An upload pending in chat 7 while administrator 42 was admitted at
    clock 4500. *)
Definition recentWorld : World :=
  set_lastRequestAt {[ js "42" := 4500%Z ]} (pendingWorld (js "BQAC9")).

(** Unfolding of the monad's operations, to run a handler on a state. *)
Ltac run :=
  repeat (progress
            (unfold mbind, mret, M_bind, M_ret, bind, ret, throw, tryCatch,
               get, modify, emit, await;
             simpl)).

(** ** Properties of the string helpers *)

Definition hdWS (s : jsstring) : bool :=
  match s with
  | c :: _ => isWhiteSpace c
  | [] => false
  end.

(** Neither the first nor the last code unit is white space. *)
Definition trimmed (s : jsstring) : Prop :=
  hdWS s = false /\ hdWS (rev s) = false.

Definition allWS (s : jsstring) : Prop :=
  Forall (fun c => isWhiteSpace c = true) s.

Definition noControl (s : jsstring) : Prop :=
  Forall (fun c => isControl c = false) s.

(** ** Further example data *)

(** A search that returns the first record of the collection. *)
Definition firstRecord : list BookRecord -> jsstring -> list (BookRecord * Q) :=
  fun bs _ => match bs with b :: _ => [(b, 0%Q)] | [] => [] end.

(** An environment in which the document cannot be sent. *)
Definition documentDown (t : Z) : Env :=
  mkEnv t None None (fun _ _ => None) (Some boom) None (fun _ => 0%nat).

(** An environment in which neither the document nor the message about
    the issue can be sent. *)
Definition documentAndIssueDown (t : Z) : Env :=
  mkEnv t None None
        (fun _ x => match x with SendIssue _ => Some boom | _ => None end)
        (Some boom) None (fun _ => 0%nat).

(** A picture sent by administrator 42 in chat 7. *)
Definition pngMsg (cap : option jsstring) : Message :=
  mkMessage true 7 (js "42") None None None
            (Some (mkDocument (js "BQAC9") (Some (js "image/png")) None))
            cap None false.

(** ** Invariants of the message handler *)

(** [m] keeps the property [I] of the state. *)
Definition invariant {A} (I : World -> Prop) (m : M A) : Prop :=
  forall w, I w -> I (final (m w)).

(** The downloads counted for a user. *)
Definition downloadsOf (w : World) (u : jsstring) : nat :=
  downloads (default (mkStat 0 None) (userStats w !! u)).

(** [I] survives every assignment the message handler can make for
    [msg]: the stamp of the limiter; for an administrator the creation
    and the deletion of the session of the chat, the append of a row and
    the reload; the entry added to the ledger; and, for other users, the
    download counter of the sender. *)
Record respects (ADMIN_IDS : list jsstring) (env : Env) (msg : Message)
  (I : World -> Prop) : Prop := mkRespects {
  respects_stamp :
    forall w, I w ->
      I (set_lastRequestAt (<[from_id msg := now env]> (lastRequestAt w)) w);
  respects_session :
    isAdmin ADMIN_IDS (from_id msg) = true ->
    forall w s, I w ->
      I (set_waitingForMeta (<[chat_id msg := s]> (waitingForMeta w)) w);
  respects_consume :
    isAdmin ADMIN_IDS (from_id msg) = true ->
    forall w, I w ->
      I (set_waitingForMeta (delete (chat_id msg) (waitingForMeta w)) w);
  respects_append :
    isAdmin ADMIN_IDS (from_id msg) = true ->
    forall w r, I w -> I (set_sheet (sheet w ++ [r]) w);
  respects_load :
    isAdmin ADMIN_IDS (from_id msg) = true ->
    forall w, I w ->
      I (set_fuse (parseRows (sheet w)) (set_books (parseRows (sheet w)) w));
  respects_request :
    forall w r, I w -> I (set_requests (requests w ++ [r]) w);
  respects_download :
    isAdmin ADMIN_IDS (from_id msg) = false ->
    forall w, I w ->
      I (set_userStats
           (<[from_id msg := mkStat (S (downloadsOf w (from_id msg)))
                                    (Some (now env))]> (userStats w)) w)
}.

(** A record as [loadSheet] builds them: title and reference not empty,
    the descriptive fields without control characters, every field
    without surrounding white space. *)
Definition validRecord (b : BookRecord) : Prop :=
  title b <> [] /\ file_id b <> []
  /\ noControl (id b) /\ noControl (title b) /\ noControl (author b)
  /\ trimmed (id b) /\ trimmed (title b) /\ trimmed (author b)
  /\ trimmed (file_id b).

(** The answer to a query with a match, and the notice sent to the
    administrators when the document found cannot be delivered. *)
Definition foundReply (ADMIN_IDS : list jsstring) (env : Env) (msg : Message)
  (best : BookRecord) : Text :=
  if isAdmin ADMIN_IDS (from_id msg) then FoundAdmin best
  else Motivational (random env 0 mod 5) best.

Definition failureNotice (env : Env) (msg : Message) (best : BookRecord)
  (err : Error) : Notice :=
  mkNotice (from_id msg)
           (trim (orElse (username msg) (orEmpty (first_name msg))))
           (SendFailed best (message err)) (Some (now env)).

(** The message scheduled after a counted download. *)
Definition followUp (env : Env) (msg : Message) (count : nat) : Effect :=
  match getUserMilestoneMessage count with
  | Some m => SetTimeout 1500 (chat_id msg) m
  | None => SetTimeout 2000 (chat_id msg) (FollowUp (random env 1 mod 5) count)
  end.

(** ** The command handlers *)

(** An entry of the list [duplicates] of [/cleanup]. *)
Inductive DupType := DupFileId | DupTitle.

Record Duplicate := mkDuplicate {
  dup_type : DupType;
  dup_book : BookRecord;
  dup_index : nat
}.

(** A line of the report of the validation job. *)
Record ReportRow := mkReportRow {
  r_row : nat;
  r_id : jsstring;
  r_title : jsstring;
  r_author : jsstring;
  r_file_id : jsstring;
  r_error : Error
}.

Inductive Command := CmdAdd | CmdCleanup | CmdValidate.

(** A button of the keyboard of [/browse]: the author, the number of
    books shown beside it, and the [callback_data]. *)
Record Button := mkButton {
  b_author : jsstring;
  b_count : nat;
  callback_data : jsstring
}.

(** The texts the command handlers send, by kind. *)
Inductive CommandText :=
| OnlyAdmin (c : Command)
| AddUsage
| FileIdExists
| AddSaved (title : jsstring)
| AddFailed (e : Error)
| NoDuplicates
| DuplicatesFound (count : nat) (shown : list Duplicate) (more : option nat)
| ValidationStarting
| AllValid (count : nat)
| InvalidFound (count : nat)
| ValidationFailed (e : Error)
| LibraryEmpty
| NoAuthors
| BrowseAuthors (shown total : nat) (keyboard : list Button)
| AuthorBooks (author : jsstring) (shown : list BookRecord) (more : option nat)
| NoBooksForAuthor
| FoundBooks (count : nat)
| FailedToLoadBooks
| OnlyAdminsCallback
| MarkedHandled
| ActionFailed
| UnknownAction.

Inductive CommandLogLine :=
| ValidationJobStarted
| ValidationJobError (e : Error)
| CommandRejection (e : Error)
| CallbackError (e : Error).

(** The calls of the command handlers that leave the process: those of
    the helpers shared with the message handler, the messages, the
    resolution of a reference by [bot.getFile], and the report written,
    sent and removed. *)
Inductive CommandEffect :=
| Core (e : Effect)
| Reply (chatId : Z) (t : CommandText) (failure : option Error)
| GetFile (f : jsstring) (failure : option Error)
| WriteReport (report : list ReportRow) (failure : option Error)
| SendReport (chatId : Z) (report : list ReportRow) (failure : option Error)
| UnlinkReport (failure : option Error)
| Answer (t : CommandText) (failure : option Error)
| EditMessage (chatId : Z) (failure : option Error)
| CommandLog (l : CommandLogLine).

(** The outcomes of the outside world for a command; the call of
    [bot.getFile] is identified by the position of the record and its
    reference. *)
Record CommandEnv := mkCommandEnv {
  reply_failure : Z -> CommandText -> option Error;
  getFile_failure : nat -> jsstring -> option Error;
  write_failure : option Error;
  report_failure : option Error;
  unlink_failure : option Error;
  answer_failure : CommandText -> option Error;
  edit_failure : option Error
}.

Record COutcome (A : Type) := mkCOutcome {
  cfinal : World;
  ceffects : list CommandEffect;
  cvalue : Error + A
}.
Arguments mkCOutcome {A} _ _ _.
Arguments cfinal {A} _.
Arguments ceffects {A} _.
Arguments cvalue {A} _.

Definition Cmd (A : Type) : Type := World -> COutcome A.

Definition cret {A} (a : A) : Cmd A := fun w => mkCOutcome w [] (inr a).

Definition cthrow {A} (e : Error) : Cmd A := fun w => mkCOutcome w [] (inl e).

Definition cbind {A B} (m : Cmd A) (k : A -> Cmd B) : Cmd B := fun w =>
  let o := m w in
  match cvalue o with
  | inl e => mkCOutcome (cfinal o) (ceffects o) (inl e)
  | inr a =>
      let o' := k a (cfinal o) in
      mkCOutcome (cfinal o') (ceffects o ++ ceffects o') (cvalue o')
  end.

Definition ctryCatch {A} (m : Cmd A) (h : Error -> Cmd A) : Cmd A := fun w =>
  let o := m w in
  match cvalue o with
  | inl e =>
      let o' := h e (cfinal o) in
      mkCOutcome (cfinal o') (ceffects o ++ ceffects o') (cvalue o')
  | inr a => o
  end.

Definition cget : Cmd World := fun w => mkCOutcome w [] (inr w).
Definition cemit (e : CommandEffect) : Cmd unit :=
  fun w => mkCOutcome w [e] (inr tt).

(** A helper of the message handler run inside a command. *)
Definition liftM {A} (m : M A) : Cmd A := fun w =>
  let o := m w in
  mkCOutcome (final o) (map Core (effects o)) (value o).

#[export] Instance Cmd_ret : MRet Cmd := @cret.
#[export] Instance Cmd_bind : MBind Cmd := fun A B k m => cbind m k.

Definition cawait (e : CommandEffect) (failure : option Error) : Cmd unit :=
  cemit e;;
  match failure with
  | Some err => cthrow err
  | None => cret tt
  end.

(** [await bot.sendMessage(...)] in a command. *)
Definition awaitReply (cenv : CommandEnv) (chatId : Z) (t : CommandText)
  : Cmd unit :=
  cawait (Reply chatId t (reply_failure cenv chatId t)) (reply_failure cenv chatId t).

(** [bot.sendMessage(...)] that is not awaited (returned or dropped):
    its rejection reaches the process-wide rejection logger. *)
Definition replyNow (cenv : CommandEnv) (chatId : Z) (t : CommandText)
  : Cmd unit :=
  cemit (Reply chatId t (reply_failure cenv chatId t));;
  match reply_failure cenv chatId t with
  | Some e => cemit (CommandLog (CommandRejection e))
  | None => cret tt
  end.

(** The four fields of [/add]:
    [raw.split('|').map(s => s.trim())] and [parts[k] || '']. *)
Definition parseAdd (raw : jsstring)
  : jsstring * jsstring * jsstring * jsstring :=
  let parts := map trim (split PIPE raw) in
  (orEmpty (parts !! 0%nat), orEmpty (parts !! 1%nat),
   orEmpty (parts !! 2%nat), orEmpty (parts !! 3%nat)).

(** [s.startsWith(p)] *)
Fixpoint startsWithStr (s p : jsstring) : bool :=
  match p, s with
  | [], _ => true
  | _ :: _, [] => false
  | c :: p', d :: s' => (c =? d) && startsWithStr s' p'
  end.

(** [a < b] on strings: the order of the code units, which
    [Array.prototype.sort] uses without a comparator. *)
Fixpoint strLtb (a b : jsstring) : bool :=
  match a, b with
  | [], [] => false
  | [], _ :: _ => true
  | _ :: _, [] => false
  | x :: a', y :: b' =>
      if x <? y then true else if y <? x then false else strLtb a' b'
  end.

(** [l.sort()] on strings, as a stable insertion sort. *)
Fixpoint insertString (x : jsstring) (l : list jsstring) : list jsstring :=
  match l with
  | [] => [x]
  | y :: l' => if strLtb y x then y :: insertString x l' else x :: y :: l'
  end.

Fixpoint sortStrings (l : list jsstring) : list jsstring :=
  match l with
  | [] => []
  | x :: l' => insertString x (sortStrings l')
  end.

Section Commands.

Variable ADMIN_IDS : list jsstring.

(** [String.prototype.toLowerCase]. *)
Variable toLowerCase : jsstring -> jsstring.

(** [bot.onText(/\/add (.+)/, ...)]; [match1] is the captured group and
    [fromId] is [String(msg.from.id)]. *)
Definition onAdd (cenv : CommandEnv) (env : Env) (chatId : Z)
  (fromId match1 : jsstring) : Cmd unit :=
  if negb (isAdmin ADMIN_IDS fromId)
  then replyNow cenv chatId (OnlyAdmin CmdAdd)
  else
    let raw := trim match1 in
    let '(id', title', author', file_id') := parseAdd raw in
    if negb (truthy title') || negb (truthy file_id')
    then replyNow cenv chatId AddUsage
    else
      w ← cget;
      match findByFileId (books w) file_id' with
      | Some _ => replyNow cenv chatId FileIdExists
      | None =>
          ctryCatch
            (liftM (appendRowToSheet env id' title' author' file_id');;
             liftM (loadSheet env);;
             replyNow cenv chatId (AddSaved title'))
            (fun e => replyNow cenv chatId (AddFailed e))
      end.

(** [book.title ? book.title.toLowerCase().trim() : ''] *)
Definition titleKey (b : BookRecord) : jsstring :=
  if truthy (title b) then trim (toLowerCase (title b)) else [].

(** The body of [books.forEach((book, index) => ...)] in [/cleanup], on
    the list [duplicates] and the sets [seenFileIds] and [seenTitles]. *)
Definition scanStep
  (st : list Duplicate * gset jsstring * gset jsstring)
  (book : BookRecord) (index : nat)
  : list Duplicate * gset jsstring * gset jsstring :=
  let '(duplicates, seenFileIds, seenTitles) := st in
  let '(duplicates1, seenFileIds1) :=
    if bool_decide (file_id book ∈ seenFileIds)
    then (duplicates ++ [mkDuplicate DupFileId book index], seenFileIds)
    else (duplicates, {[file_id book]} ∪ seenFileIds) in
  let key := titleKey book in
  if truthy key && bool_decide (key ∈ seenTitles)
  then (duplicates1 ++ [mkDuplicate DupTitle book index], seenFileIds1,
        seenTitles)
  else if truthy key
       then (duplicates1, seenFileIds1, {[key]} ∪ seenTitles)
       else (duplicates1, seenFileIds1, seenTitles).

Fixpoint scanLoop (rest : list BookRecord) (index : nat)
  (st : list Duplicate * gset jsstring * gset jsstring)
  : list Duplicate * gset jsstring * gset jsstring :=
  match rest with
  | [] => st
  | book :: rest' => scanLoop rest' (S index) (scanStep st book index)
  end.

Definition scanDuplicates (bs : list BookRecord) : list Duplicate :=
  (scanLoop bs 0 ([], ∅, ∅)).1.1.

(** [bot.onText(/\/cleanup/, ...)] *)
Definition onCleanup (cenv : CommandEnv) (chatId : Z) (fromId : jsstring)
  : Cmd unit :=
  if negb (isAdmin ADMIN_IDS fromId)
  then replyNow cenv chatId (OnlyAdmin CmdCleanup)
  else
    w ← cget;
    let duplicates := scanDuplicates (books w) in
    if (length duplicates =? 0)%nat
    then replyNow cenv chatId NoDuplicates
    else replyNow cenv chatId
           (DuplicatesFound (length duplicates) (take 10 duplicates)
              (if (10 <? length duplicates)%nat
               then Some (length duplicates - 10)%nat else None)).

(** The validation job is started and not awaited: it runs beside the
    handlers of the updates that arrive meanwhile.  These run while the
    job waits at an [await], and a reload among them replaces the
    generation the job reads.  The places where the job waits: *)
Inductive Suspension :=
| WaitLookup (i : nat)          (* [await validateFileId(b.file_id)] *)
| WaitSleep (i : nat)           (* [await sleep(250)] *)
| WaitMessage (t : CommandText) (* [await bot.sendMessage(...)] *)
| WaitDocument.                 (* [await bot.sendDocument(...)] *)

(** What the other handlers make of the state while the job waits at a
    place. *)
Definition Interleaving : Type := Suspension -> World -> World.

Definition suspend (others : Interleaving) (s : Suspension) : Cmd unit :=
  fun w => mkCOutcome (others s w) [] (inr tt).

(** [await] of an outside call in the job: the call is made, the other
    handlers run, then the call is settled. *)
Definition cawaitAt (others : Interleaving) (s : Suspension)
  (e : CommandEffect) (failure : option Error) : Cmd unit :=
  cemit e;;
  suspend others s;;
  match failure with
  | Some err => cthrow err
  | None => cret tt
  end.

Definition awaitReplyAt (others : Interleaving) (cenv : CommandEnv)
  (chatId : Z) (t : CommandText) : Cmd unit :=
  cawaitAt others (WaitMessage t)
    (Reply chatId t (reply_failure cenv chatId t)) (reply_failure cenv chatId t).

(** [validateFileId], called for position [i]: the failure of
    [bot.getFile] is caught and returned. *)
Definition validateFileId (others : Interleaving) (cenv : CommandEnv)
  (i : nat) (f : jsstring) : Cmd (option Error) :=
  cemit (GetFile f (getFile_failure cenv i f));;
  suspend others (WaitLookup i);;
  cret (getFile_failure cenv i f).

(** The loop of [validateAllFileIdsAndReport] from position [i] on:
    [books.length] and [books[i]] are read from the state at each turn.
    The generation can grow at every turn, so the loop is cut after
    [fuel] turns, with [None] for a loop that has not ended. *)
Fixpoint validateLoop (others : Interleaving) (cenv : CommandEnv)
  (fuel : nat) (i : nat) (report : list ReportRow)
  : Cmd (option (list ReportRow)) :=
  match fuel with
  | O => cret None
  | S fuel' =>
      w ← cget;
      match books w !! i with
      | None => cret (Some report)
      | Some b =>
          res ← validateFileId others cenv i (file_id b);
          let report' :=
            match res with
            | Some e =>
                report ++ [mkReportRow (i + 2) (id b) (title b) (author b)
                                       (file_id b) e]
            | None => report
            end in
          suspend others (WaitSleep i);;
          validateLoop others cenv fuel' (S i) report'
      end
  end.

(** [validateAllFileIdsAndReport]; the result is [None] when the loop
    has not ended within [fuel] turns. *)
Definition validateAllFileIdsAndReport (others : Interleaving)
  (cenv : CommandEnv) (fuel : nat) (adminChatId : Z) : Cmd (option unit) :=
  ctryCatch
    (cemit (CommandLog ValidationJobStarted);;
     res ← validateLoop others cenv fuel 0 [];
     match res with
     | None => cret None
     | Some report =>
         if (length report =? 0)%nat
         then
           w ← cget;
           awaitReplyAt others cenv adminChatId (AllValid (length (books w)));;
           cret (Some tt)
         else
           cawait (WriteReport report (write_failure cenv)) (write_failure cenv);;
           awaitReplyAt others cenv adminChatId (InvalidFound (length report));;
           cawaitAt others WaitDocument
             (SendReport adminChatId report (report_failure cenv))
             (report_failure cenv);;
           cawait (UnlinkReport (unlink_failure cenv)) (unlink_failure cenv);;
           cret (Some tt)
     end)
    (fun err =>
       cemit (CommandLog (ValidationJobError err));;
       awaitReplyAt others cenv adminChatId (ValidationFailed err);;
       cret (Some tt)).

(** [bot.onText(/\/validate/, ...)]: the job is started and not
    awaited, so its rejection reaches the rejection logger; the trace is
    that of the handler followed by that of the job. *)
Definition onValidate (others : Interleaving) (cenv : CommandEnv)
  (fuel : nat) (chatId : Z) (fromId : jsstring) : Cmd unit :=
  if negb (isAdmin ADMIN_IDS fromId)
  then replyNow cenv chatId (OnlyAdmin CmdValidate)
  else
    replyNow cenv chatId ValidationStarting;;
    ctryCatch (validateAllFileIdsAndReport others cenv fuel chatId;; cret tt)
              (fun e => cemit (CommandLog (CommandRejection e))).

(** [new Set(l)], continuing from the elements [acc] in insertion
    order. *)
Fixpoint setOf (l acc : list jsstring) : list jsstring :=
  match l with
  | [] => acc
  | x :: l' =>
      if bool_decide (x ∈ acc) then setOf l' acc else setOf l' (acc ++ [x])
  end.

(** [[...new Set(books.filter(b => b.author && b.author.trim())
       .map(b => b.author))].sort()] *)
Definition browseAuthors (bs : list BookRecord) : list jsstring :=
  sortStrings
    (setOf (map author
              (List.filter (fun b => truthy (author b) && truthy (trim (author b)))
                           bs))
           []).

(** [books.filter(b => b.author === author)] *)
Definition booksBy (bs : list BookRecord) (a : jsstring) : list BookRecord :=
  List.filter (fun b => eqb_str (author b) a) bs.

Definition browseKeyboard (bs : list BookRecord) : list Button :=
  map (fun a => mkButton a (length (booksBy bs a)) (js "author:" ++ a))
      (take 20 (browseAuthors bs)).

(** [bot.onText(/\/browse/, ...)] *)
Definition onBrowse (cenv : CommandEnv) (chatId : Z) : Cmd unit :=
  w ← cget;
  if (length (books w) =? 0)%nat then replyNow cenv chatId LibraryEmpty
  else
    let authors := browseAuthors (books w) in
    if (length authors =? 0)%nat then replyNow cenv chatId NoAuthors
    else
      replyNow cenv chatId
        (BrowseAuthors (length (take 20 authors)) (length authors)
                       (browseKeyboard (books w))).

(** [return bot.answerCallbackQuery(...)]: returned, not awaited. *)
Definition answerNow (cenv : CommandEnv) (t : CommandText) : Cmd unit :=
  cemit (Answer t (answer_failure cenv t));;
  match answer_failure cenv t with
  | Some e => cemit (CommandLog (CommandRejection e))
  | None => cret tt
  end.

(** [bot.on('callback_query', ...)]; [fromId] is
    [String(cq.from && cq.from.id)], [data] is [cq.data] and [chatId]
    is [cq.message.chat.id]. *)
Definition onCallback (cenv : CommandEnv) (fromId : jsstring)
  (data : option jsstring) (chatId : Z) : Cmd unit :=
  ctryCatch
    (let data := orEmpty data in
     if startsWithStr data (js "author:") then
       let author := drop 7 data in
       w ← cget;
       let authorBooks := booksBy (books w) author in
       if (length authorBooks =? 0)%nat then answerNow cenv NoBooksForAuthor
       else
         ctryCatch
           (awaitReply cenv chatId
              (AuthorBooks author (take 20 authorBooks)
                 (if (20 <? length authorBooks)%nat
                  then Some (length authorBooks - 20)%nat else None));;
            answerNow cenv (FoundBooks (length authorBooks)))
           (fun e => answerNow cenv FailedToLoadBooks)
     else if negb (isAdmin ADMIN_IDS fromId)
     then answerNow cenv OnlyAdminsCallback
     else if startsWithStr data (js "handled:") then
       ctryCatch
         (cawait (EditMessage chatId (edit_failure cenv)) (edit_failure cenv);;
          answerNow cenv MarkedHandled)
         (fun e => answerNow cenv ActionFailed)
     else answerNow cenv UnknownAction)
    (fun err => cemit (CommandLog (CallbackError err))).

End Commands.

(** Record [b] is at position [i] and an earlier record has the same
    [key]. *)
Definition earlier (key : BookRecord -> jsstring) (bs : list BookRecord)
  (b : BookRecord) (i : nat) : Prop :=
  bs !! i = Some b
  /\ exists j b', (j < i)%nat /\ bs !! j = Some b' /\ key b' = key b.

(** The trace of a message of a command that is not awaited. *)
Definition replied (cenv : CommandEnv) (chatId : Z) (t : CommandText)
  : list CommandEffect :=
  Reply chatId t (reply_failure cenv chatId t) ::
  match reply_failure cenv chatId t with
  | Some e => [CommandLog (CommandRejection e)]
  | None => []
  end.

(** The trace of an answer to a callback that is not awaited. *)
Definition answered (cenv : CommandEnv) (t : CommandText)
  : list CommandEffect :=
  Answer t (answer_failure cenv t) ::
  match answer_failure cenv t with
  | Some e => [CommandLog (CommandRejection e)]
  | None => []
  end.

Definition isEdit (e : CommandEffect) : bool :=
  match e with EditMessage _ _ => true | _ => false end.

(** The calls of [bot.getFile] among the effects of a command. *)
Definition isGetFile (e : CommandEffect) : bool :=
  match e with GetFile _ _ => true | _ => false end.

(** The rows of the sheet appended by a command, in order. *)
Definition isCoreAppend (e : CommandEffect) : bool :=
  match e with Core (SheetAppend _ _) => true | _ => false end.

(** The report of the validation job as a function of the answers of
    [bot.getFile], from record [i] on. *)
Fixpoint failing (cenv : CommandEnv) (bs : list BookRecord) (i : nat)
  : list ReportRow :=
  match bs with
  | [] => []
  | b :: bs' =>
      match getFile_failure cenv i (file_id b) with
      | Some e =>
          mkReportRow (i + 2) (id b) (title b) (author b) (file_id b) e
          :: failing cenv bs' (S i)
      | None => failing cenv bs' (S i)
      end
  end.

(** The calls of [bot.getFile] of the job, from record [i] on. *)
Fixpoint lookups (cenv : CommandEnv) (bs : list BookRecord) (i : nat)
  : list CommandEffect :=
  match bs with
  | [] => []
  | b :: bs' =>
      GetFile (file_id b) (getFile_failure cenv i (file_id b))
      :: lookups cenv bs' (S i)
  end.

(** Example data for the commands: a lower-casing that changes
    nothing, and the sheet of the two records under one title loaded. *)
Definition noCase (s : jsstring) : jsstring := s.

Definition twinWorld : World :=
  set_fuse (parseRows twinSheet)
           (set_books (parseRows twinSheet) (set_sheet twinSheet emptyWorld)).

(** Example data for the commands. *)
Definition quietCommands : CommandEnv :=
  mkCommandEnv (fun _ _ => None) (fun _ _ => None) None None None
               (fun _ => None) None.

(** [bot.getFile] fails for the reference [BQAC4]. *)
Definition staleReference : CommandEnv :=
  mkCommandEnv (fun _ _ => None)
               (fun _ f => if eqb_str f (js "BQAC4") then Some boom else None)
               None None None (fun _ => None) None.

(** While the job waits, user 5 is admitted by the limiter at clock
    5000; the generation is not replaced. *)
Definition userAdmitted : Interleaving :=
  fun _ w => set_lastRequestAt (<[js "5" := 5000%Z]> (lastRequestAt w)) w.

(** A computation of a command keeps a property of the state. *)
Definition keeps {A} (I : World -> Prop) (m : Cmd A) : Prop :=
  forall w, I w -> I (cfinal (m w)).

(** The order of [Array.prototype.sort] without a comparator. *)
Definition strLt (a b : jsstring) : Prop := strLtb a b = true.

Lemma trimStart_decompose (s : jsstring) :
  exists l, s = l ++ trimStart s /\ allWS l.
Proof.
  induction s as [|c s IH]; simpl.
  - exists []. split; [reflexivity | constructor].
  - destruct (isWhiteSpace c) eqn:Hc.
    + destruct IH as (l & Hl & Hws). exists (c :: l). split.
      * simpl. congruence.
      * constructor; assumption.
    + exists []. split; [reflexivity | constructor].
Qed.

Lemma trimStart_hdWS (s : jsstring) : hdWS (trimStart s) = false.
Proof.
  induction s as [|c s IH]; simpl; [reflexivity|].
  destruct (isWhiteSpace c) eqn:Hc; [assumption | simpl; assumption].
Qed.

Lemma trimStart_id (s : jsstring) : hdWS s = false -> trimStart s = s.
Proof. destruct s as [|c s]; simpl; [reflexivity|]. intros ->. reflexivity. Qed.

Lemma trimEnd_decompose (s : jsstring) :
  exists r, s = trimEnd s ++ r /\ allWS r.
Proof.
  unfold trimEnd. destruct (trimStart_decompose (rev s)) as (l & Hl & Hws).
  exists (rev l). split.
  - rewrite <- rev_app_distr, <- Hl, rev_involutive. reflexivity.
  - apply Forall_rev. exact Hws.
Qed.

Lemma trimEnd_hdWS_rev (s : jsstring) : hdWS (rev (trimEnd s)) = false.
Proof. unfold trimEnd. rewrite rev_involutive. apply trimStart_hdWS. Qed.

Lemma trimEnd_id (s : jsstring) : hdWS (rev s) = false -> trimEnd s = s.
Proof.
  intros H. unfold trimEnd. rewrite trimStart_id by exact H.
  apply rev_involutive.
Qed.

Lemma trimEnd_hdWS (s : jsstring) : hdWS s = false -> hdWS (trimEnd s) = false.
Proof.
  intros H. destruct (trimEnd_decompose s) as (r & Hr & _).
  destruct (trimEnd s) as [|c t] eqn:E; [reflexivity|].
  rewrite Hr in H. simpl in *. exact H.
Qed.

Lemma trim_decompose (s : jsstring) :
  exists l r, s = l ++ trim s ++ r /\ allWS l /\ allWS r.
Proof.
  unfold trim. destruct (trimStart_decompose s) as (l & Hl & Hwl).
  destruct (trimEnd_decompose (trimStart s)) as (r & Hr & Hwr).
  exists l, r. repeat split; try assumption.
  rewrite <- Hr. exact Hl.
Qed.

Lemma trim_trimmed (s : jsstring) : trimmed (trim s).
Proof.
  unfold trim. split.
  - apply trimEnd_hdWS, trimStart_hdWS.
  - apply trimEnd_hdWS_rev.
Qed.

Lemma trim_id (s : jsstring) : trimmed s -> trim s = s.
Proof.
  intros [H1 H2]. unfold trim. rewrite trimStart_id by exact H1.
  apply trimEnd_id, H2.
Qed.

Lemma trim_idempotent (s : jsstring) : trim (trim s) = trim s.
Proof. apply trim_id, trim_trimmed. Qed.

Lemma trim_Forall (P : N -> Prop) (s : jsstring) :
  Forall P s -> Forall P (trim s).
Proof.
  intros H. destruct (trim_decompose s) as (l & r & Hs & _).
  rewrite Hs in H. apply Forall_app in H as [_ H].
  apply Forall_app in H as [H _]. exact H.
Qed.

Lemma stripControl_noControl (s : jsstring) : noControl (stripControl s).
Proof.
  unfold noControl, stripControl. apply List.Forall_forall. intros c Hc.
  apply List.filter_In in Hc as [_ Hc]. apply negb_true_iff in Hc. exact Hc.
Qed.

Lemma stripControl_id (s : jsstring) : noControl s -> stripControl s = s.
Proof.
  unfold noControl, stripControl. induction 1 as [|c s Hc _ IH]; simpl.
  - reflexivity.
  - rewrite Hc. simpl. f_equal. exact IH.
Qed.

Lemma safeText_noControl (v : option jsstring) : noControl (safeText v).
Proof.
  destruct v as [s|]; simpl; [|constructor].
  apply trim_Forall, stripControl_noControl.
Qed.

Lemma safeText_trimmed (v : option jsstring) : trimmed (safeText v).
Proof. destruct v as [s|]; simpl; [apply trim_trimmed | split; reflexivity]. Qed.

(** A string that is already clean is left as it is. *)
Lemma safeText_id (s : jsstring) :
  noControl s -> trimmed s -> safeText (Some s) = s.
Proof.
  intros Hc Ht. simpl. rewrite stripControl_id by exact Hc. apply trim_id, Ht.
Qed.

Lemma safeFileId_trimmed (v : option jsstring) : trimmed (safeFileId v).
Proof. destruct v as [s|]; simpl; [apply trim_trimmed | split; reflexivity]. Qed.

Lemma safeFileId_id (s : jsstring) : trimmed s -> safeFileId (Some s) = s.
Proof. intros H. simpl. apply trim_id, H. Qed.

Lemma split_Forall (P : N -> Prop) (sep : N) (s : jsstring) :
  Forall P s -> Forall (Forall P) (split sep s).
Proof.
  induction 1 as [|c s Hc Hs IH]; simpl.
  - repeat constructor.
  - destruct (c =? sep).
    + constructor; [constructor | exact IH].
    + destruct (split sep s) as [|seg rest].
      * repeat constructor. exact Hc.
      * inversion IH; subst. constructor; [constructor|]; assumption.
Qed.

(** The fields read from a cleaned text are clean themselves. *)
Lemma parseMeta_clean (s : jsstring) (i t a : jsstring) :
  noControl s -> parseMeta s = (i, t, a) ->
  (noControl i /\ trimmed i) /\ (noControl t /\ trimmed t)
  /\ (noControl a /\ trimmed a).
Proof.
  intros Hs Hp. unfold parseMeta in Hp.
  assert (Hall : Forall (fun x => noControl x /\ trimmed x)
                        (map trim (split PIPE s))).
  { apply List.Forall_map. eapply List.Forall_impl; [|apply split_Forall, Hs].
    intros x Hx. split; [apply trim_Forall, Hx | apply trim_trimmed]. }
  assert (Hk : forall k, noControl (orEmpty (map trim (split PIPE s) !! k))
                         /\ trimmed (orEmpty (map trim (split PIPE s) !! k))).
  { intros k. destruct (map trim (split PIPE s) !! k) as [x|] eqn:E; simpl.
    - eapply Forall_lookup_1 in Hall; [exact Hall | exact E].
    - split; [constructor | split; reflexivity]. }
  inversion Hp; subst. repeat split; apply Hk.
Qed.

(** ** The loader *)

(** The helpers are run through their equations below, not unfolded. *)
Arguments parseRows : simpl never.
Arguments parseMeta : simpl never.
Arguments safeText : simpl never.
Arguments safeFileId : simpl never.
Arguments trim : simpl never.
Arguments isValidDocumentType : simpl never.
Arguments isAdmin : simpl never.
Arguments findByFileId : simpl never.


Lemma parseRow_specRecord (r : Row) : parseRow r = specRecord r.
Proof.
  unfold parseRow, specRecord.
  destruct (safeText (Some (cell r 1))) as [|c t];
    destruct (safeFileId (Some (cell r 3))) as [|d f]; reflexivity.
Qed.

(** Loop invariant: after the iterations from [i] the array holds what
    it held, followed by the records of rows [i], [i+1], ... *)
Lemma loadLoop_omap (rows : list Row) (fuel i : nat) (parsed : list BookRecord) :
  loadLoop rows fuel i parsed
  = parsed ++ omap parseRow (take fuel (drop i rows)).
Proof.
  revert i parsed. induction fuel as [|fuel IH]; intros i parsed; simpl.
  - rewrite app_nil_r. reflexivity.
  - rewrite IH. destruct (rows !! i) as [r|] eqn:E.
    + rewrite (drop_S _ _ _ E). simpl.
      destruct (parseRow r) as [b|]; [|reflexivity].
      rewrite <- app_assoc. reflexivity.
    + apply lookup_ge_None in E.
      rewrite !drop_ge by lia. rewrite take_nil. reflexivity.
Qed.

Lemma omap_cons {A B} (f : A -> option B) (x : A) (l : list A) :
  omap f (x :: l)
  = match f x with Some y => y :: omap f l | None => omap f l end.
Proof. reflexivity. Qed.

Lemma parseRows_specLoad (rows : list Row) : parseRows rows = specLoad rows.
Proof.
  unfold parseRows, specLoad. rewrite loadLoop_omap. simpl.
  destruct rows as [|h rows]; simpl; [reflexivity|].
  rewrite drop_0, Nat.sub_0_r, firstn_all.
  induction rows as [|r rows IH]; [reflexivity|].
  rewrite !omap_cons, parseRow_specRecord, IH. reflexivity.
Qed.

Lemma specRecord_Some (r : Row) (b : BookRecord) :
  specRecord r = Some b <->
  b = mkBook (safeText (Some (cell r 0))) (safeText (Some (cell r 1)))
             (safeText (Some (cell r 2))) (safeFileId (Some (cell r 3)))
  /\ safeText (Some (cell r 1)) <> [] /\ safeFileId (Some (cell r 3)) <> [].
Proof.
  unfold specRecord.
  destruct (safeText (Some (cell r 1))) as [|c t];
    destruct (safeFileId (Some (cell r 3))) as [|d f]; split;
    try (intros H; discriminate H);
    try (intros (_ & H1 & H2); congruence).
  - intros H. inversion H. repeat split; discriminate.
  - intros (-> & _ & _). reflexivity.
Qed.

Lemma loadSheet_ok (env : Env) (w : World) :
  get_failure env = None ->
  loadSheet env w
  = mkOutcome (set_fuse (parseRows (sheet w)) (set_books (parseRows (sheet w)) w))
              [SheetGet None]
              (inr (length (parseRows (sheet w)))).
Proof. intros H. unfold loadSheet. run. rewrite H. run. reflexivity. Qed.

Lemma loadSheet_fail (env : Env) (w : World) (e : Error) :
  get_failure env = Some e ->
  loadSheet env w
  = mkOutcome w [SheetGet (Some e); Log (LoadSheetError e)] (inl e).
Proof. intros H. unfold loadSheet. run. rewrite H. run. reflexivity. Qed.

Opaque loadSheet.

(** ** The catalog generation *)

(** C1: on a successful fetch [loadSheet] returns (it does not fail) and
    installs, as [books] and as the collection of [fuse], the generation
    the specification describes: the header skipped, and each later row
    kept, in order, exactly when its cleaned title and its trimmed
    reference are non-empty.  [safeText] removes the ASCII control
    characters and the surrounding white space; [safeFileId] removes
    surrounding white space only, the rest of the reference is kept as
    it is. *)
Theorem loadSheet_generation (env : Env) (w : World) :
  get_failure env = None ->
  let o := loadSheet env w in
  value o = inr (length (specLoad (sheet w)))
  /\ books (final o) = specLoad (sheet w)
  /\ fuse (final o) = specLoad (sheet w)
  /\ (forall r b,
        specRecord r = Some b <->
        b = mkBook (safeText (Some (cell r 0))) (safeText (Some (cell r 1)))
                   (safeText (Some (cell r 2))) (safeFileId (Some (cell r 3)))
        /\ safeText (Some (cell r 1)) <> []
        /\ safeFileId (Some (cell r 3)) <> [])
  /\ (forall s,
        noControl (safeText (Some s)) /\ trimmed (safeText (Some s))
        /\ exists l r, stripControl s = l ++ safeText (Some s) ++ r
                       /\ allWS l /\ allWS r)
  /\ (forall s,
        trimmed (safeFileId (Some s))
        /\ exists l r, s = l ++ safeFileId (Some s) ++ r
                       /\ allWS l /\ allWS r).
Proof.
  intros Hget. rewrite (loadSheet_ok env w Hget). simpl.
  rewrite parseRows_specLoad.
  split; [reflexivity|]. split; [reflexivity|]. split; [reflexivity|].
  split; [intros r b; apply specRecord_Some|].
  split; intros s.
  - split; [apply (safeText_noControl (Some s))|].
    split; [apply (safeText_trimmed (Some s))|]. apply trim_decompose.
  - split; [apply (trim_trimmed s) | apply trim_decompose].
Qed.

Lemma loadSheet_generation_witness :
  books (final (loadSheet (quietEnv 5000) demoWorld))
  = [ mkBook (js "1") (js "Great Book") (js "Jane Doe") (js "BQAC 1");
      mkBook (js "4") (js "Other Book") [] (js "BQAC4") ].
Proof.
  rewrite (proj1 (proj2 (loadSheet_generation (quietEnv 5000) demoWorld eq_refl))).
  reflexivity.
Defined.

(** C5: when the rows cannot be fetched, [loadSheet] fails with the
    error of the fetch and leaves the whole state, the generation and
    the collection of [fuse] included, as it was; [/reload] reports the
    failure to the administrator who asked for it. *)
Theorem loadSheet_failure_keeps_generation
  (ADMIN_IDS : list jsstring) (env : Env) (w : World) (e : Error)
  (chatId : Z) (fromId : jsstring) :
  get_failure env = Some e ->
  isAdmin ADMIN_IDS fromId = true ->
  value (loadSheet env w) = inl e
  /\ final (loadSheet env w) = w
  /\ final (onReload ADMIN_IDS env chatId fromId w) = w
  /\ In (SendMessage (Chat chatId) (ReloadFailed (message e))
                     (send_failure env (Chat chatId) (ReloadFailed (message e))))
        (effects (onReload ADMIN_IDS env chatId fromId w)).
Proof.
  intros Hget Hadm. rewrite (loadSheet_fail env w e Hget). simpl.
  split; [reflexivity|]. split; [reflexivity|].
  unfold onReload, returnSend. rewrite Hadm. run.
  destruct (send_failure env (Chat chatId) Reloading); run;
    rewrite (loadSheet_fail env w e Hget); run;
    destruct (send_failure env (Chat chatId) (ReloadFailed (message e))); run;
    (split; [reflexivity|]); rewrite ?in_app_iff; simpl; tauto.
Qed.

Lemma loadSheet_failure_witness :
  value (loadSheet (reloadDown 5000) loadedWorld) = inl boom
  /\ final (loadSheet (reloadDown 5000) loadedWorld) = loadedWorld
  /\ final (onReload roster (reloadDown 5000) 7 (js "42") loadedWorld)
     = loadedWorld.
Proof.
  destruct (loadSheet_failure_keeps_generation roster (reloadDown 5000)
              loadedWorld boom 7 (js "42")) as (Hv & Hf & Hr & _).
  - reflexivity.
  - vm_compute. reflexivity.
  - repeat split; assumption.
Defined.

(** ** The rate limiter *)

Lemma rateLimit_eq (env : Env) (u : jsstring) (w : World) :
  rateLimit env u w
  = if (now env - default 0 (lastRequestAt w !! u) <? RATE_WINDOW_MS)%Z
    then mkOutcome w [] (inr false)
    else mkOutcome (set_lastRequestAt (<[u := now env]> (lastRequestAt w)) w)
                   [] (inr true).
Proof.
  unfold rateLimit. run.
  destruct (now env - default 0 (lastRequestAt w !! u) <? RATE_WINDOW_MS)%Z;
    reflexivity.
Qed.

Opaque rateLimit.

Lemma allowRun_cons (env : Env) (u : jsstring) (rest : list (Env * jsstring))
  (w : World) :
  allowRun ((env, u) :: rest) w
  = if (now env - default 0 (lastRequestAt w !! u) <? RATE_WINDOW_MS)%Z
    then false :: allowRun rest w
    else true :: allowRun rest
                   (set_lastRequestAt (<[u := now env]> (lastRequestAt w)) w).
Proof.
  change (allowRun ((env, u) :: rest) w)
    with (match value (rateLimit env u w) with
          | inr b => b :: allowRun rest (final (rateLimit env u w))
          | inl _ => []
          end).
  rewrite rateLimit_eq.
  destruct (now env - default 0 (lastRequestAt w !! u) <? RATE_WINDOW_MS)%Z;
    reflexivity.
Qed.

(** Once a time is stored for [u], every later admitted call of [u]
    comes at least a window after it. *)
Lemma allowRun_after (calls : list (Env * jsstring)) :
  forall (w : World) (u : jsstring) (t0 : Z) (j : nat) (e : Env),
    lastRequestAt w !! u = Some t0 ->
    calls !! j = Some (e, u) ->
    allowRun calls w !! j = Some true ->
    (t0 + RATE_WINDOW_MS <= now e)%Z.
Proof.
  induction calls as [|[env u'] rest IH]; intros w u t0 j e Hst Hc Hr.
  - rewrite lookup_nil in Hc. discriminate.
  - rewrite allowRun_cons in Hr.
    destruct (now env - default 0 (lastRequestAt w !! u') <? RATE_WINDOW_MS)%Z
      eqn:Hlt; simpl in Hr.
    + destruct j as [|j]; simpl in Hc, Hr; [discriminate|].
      eapply IH; eassumption.
    + apply Z.ltb_ge in Hlt. destruct j as [|j]; simpl in Hc, Hr.
      * inversion Hc; subst. rewrite Hst in Hlt. simpl in Hlt. lia.
      * destruct (decide (u' = u)) as [->|Hne].
        -- rewrite Hst in Hlt. simpl in Hlt.
           assert (now env + RATE_WINDOW_MS <= now e)%Z.
           { eapply IH; [|eassumption|eassumption]. simpl.
             apply lookup_insert_eq. }
           unfold RATE_WINDOW_MS in *. lia.
        -- eapply IH; [|eassumption|eassumption]. simpl.
           rewrite lookup_insert_ne by exact Hne. exact Hst.
Qed.

(** C6: a call less than the window after the stored time of the user
    answers false and stores nothing; a call at least a window after it
    answers true and stores the current time; and in any sequence of
    calls, two calls of one user that both answer true are at least a
    window apart. *)
Theorem rateLimit_window :
  (forall env u w last,
      lastRequestAt w !! u = Some last ->
      (now env - last < RATE_WINDOW_MS)%Z ->
      rateLimit env u w = mkOutcome w [] (inr false))
  /\ (forall env u w last,
         lastRequestAt w !! u = Some last ->
         (RATE_WINDOW_MS <= now env - last)%Z ->
         rateLimit env u w
         = mkOutcome (set_lastRequestAt (<[u := now env]> (lastRequestAt w)) w)
                     [] (inr true))
  /\ (forall calls w i j e1 e2 u,
         (i < j)%nat ->
         calls !! i = Some (e1, u) ->
         calls !! j = Some (e2, u) ->
         allowRun calls w !! i = Some true ->
         allowRun calls w !! j = Some true ->
         (now e1 + RATE_WINDOW_MS <= now e2)%Z)
  /\ RATE_WINDOW_MS = 1000%Z.
Proof.
  split; [|split; [|split; [|reflexivity]]].
  - intros env u w last Hst Hlt. rewrite rateLimit_eq, Hst. simpl.
    apply Z.ltb_lt in Hlt. rewrite Hlt. reflexivity.
  - intros env u w last Hst Hge. rewrite rateLimit_eq, Hst. simpl.
    apply Z.ltb_ge in Hge. rewrite Hge. reflexivity.
  - induction calls as [|[env u'] rest IH]; intros w i j e1 e2 u Hij Hi Hj Ri Rj.
    + rewrite lookup_nil in Hi. discriminate.
    + destruct j as [|j]; [lia|]. simpl in Hj.
      rewrite allowRun_cons in Ri, Rj.
      destruct i as [|i].
      * simpl in Hi. inversion Hi; subst.
        destruct (now e1 - default 0 (lastRequestAt w !! u) <? RATE_WINDOW_MS)%Z;
          simpl in Ri, Rj; [discriminate|].
        eapply allowRun_after; [|eassumption|eassumption]. simpl.
        apply lookup_insert_eq.
      * simpl in Hi.
        destruct (now env - default 0 (lastRequestAt w !! u') <? RATE_WINDOW_MS)%Z;
          simpl in Ri, Rj; eapply (IH _ i j); try eassumption; lia.
Qed.

Lemma rateLimit_window_witness :
  (5000 + RATE_WINDOW_MS <= 6200)%Z.
Proof.
  pose (u := js "42").
  pose (calls := [(quietEnv 5000, u); (quietEnv 5400, u); (quietEnv 6200, u)]).
  apply (proj1 (proj2 (proj2 rateLimit_window))
           calls emptyWorld 0%nat 2%nat (quietEnv 5000) (quietEnv 6200) u).
  - lia.
  - reflexivity.
  - reflexivity.
  - vm_compute. reflexivity.
  - vm_compute. reflexivity.
Defined.

(** ** Equations of the handlers *)

Arguments sent : simpl never.
Arguments stamped : simpl never.

Lemma returnSend_eq (env : Env) (to : Recipient) (t : Text) (w : World) :
  returnSend env to t w = mkOutcome w (sent env to t) (inr tt).
Proof.
  unfold returnSend, sent. run.
  destruct (send_failure env to t); reflexivity.
Qed.

Lemma appendRowToSheet_ok (env : Env) (i t a f : jsstring) (w : World) :
  append_failure env = None ->
  appendRowToSheet env i t a f w
  = mkOutcome (set_sheet (sheet w ++ [sheetRow i t a f]) w)
              [SheetAppend (sheetRow i t a f) None] (inr true).
Proof. intros H. unfold appendRowToSheet. run. rewrite H. reflexivity. Qed.

Lemma appendRowToSheet_fail (env : Env) (i t a f : jsstring) (w : World)
  (e : Error) :
  append_failure env = Some e ->
  appendRowToSheet env i t a f w
  = mkOutcome w [SheetAppend (sheetRow i t a f) (Some e); Log (AppendRowError e)]
              (inl e).
Proof. intros H. unfold appendRowToSheet. run. rewrite H. reflexivity. Qed.

Lemma notifyLoop_eq (env : Env) (n : Notice) (admins : list jsstring) (w : World) :
  notifyLoop env admins n w
  = mkOutcome w (concat (map (notifyTrace env n) admins)) (inr tt).
Proof.
  induction admins as [|a rest IH]; [reflexivity|].
  change (notifyLoop env (a :: rest) n)
    with (tryCatch (awaitSend env (Admin a) (NewBookRequest n))
            (fun e => emit (Log (NotifyAdminFailed a e)));;
          notifyLoop env rest n).
  unfold awaitSend, notifyTrace, notification. run.
  destruct (send_failure env (Admin a) (NewBookRequest n)); run;
    rewrite IH; reflexivity.
Qed.

Opaque returnSend appendRowToSheet notifyLoop.

Lemma onMessage_limited (ADMIN_IDS : list jsstring)
  (Fuse_search : list BookRecord -> jsstring -> list (BookRecord * Q))
  (env : Env) (msg : Message) (w : World) :
  chat_private msg = true ->
  (now env - default 0 (lastRequestAt w !! from_id msg) <? RATE_WINDOW_MS)%Z
  = true ->
  onMessage ADMIN_IDS Fuse_search env msg w
  = mkOutcome w (sent env (Chat (chat_id msg)) SlowDown) (inr tt).
Proof.
  intros Hp Hlt. unfold onMessage. rewrite Hp. run.
  rewrite rateLimit_eq, Hlt. run. rewrite returnSend_eq. reflexivity.
Qed.

Lemma onMessage_admitted (ADMIN_IDS : list jsstring)
  (Fuse_search : list BookRecord -> jsstring -> list (BookRecord * Q))
  (env : Env) (msg : Message) (w : World) :
  chat_private msg = true ->
  admitted env w msg ->
  onMessage ADMIN_IDS Fuse_search env msg w
  = tryCatch (dispatch ADMIN_IDS Fuse_search env msg)
             (fun err => emit (Log (HandlerError err)))
             (stamped env w msg).
Proof.
  intros Hp Hadm. unfold onMessage. rewrite Hp. run.
  rewrite rateLimit_eq. unfold admitted in Hadm. rewrite Hadm. run.
  fold (stamped env w msg).
  destruct (dispatch ADMIN_IDS Fuse_search env msg (stamped env w msg))
    as [w' es [e|[]]]; reflexivity.
Qed.

(** ** The limiter in front of the handler *)

(** C10: the handler of a private message consults the limiter first;
    when the sender's stored time is less than a window old, the message
    (a metadata reply with a pending upload included) gets the slow-down
    answer and nothing else: the state, its pending sessions and the
    sheet are as before, and no row is appended. *)
Theorem onMessage_rate_limited
  (ADMIN_IDS : list jsstring)
  (Fuse_search : list BookRecord -> jsstring -> list (BookRecord * Q))
  (env : Env) (msg : Message) (w : World) (last : Z) :
  chat_private msg = true ->
  lastRequestAt w !! from_id msg = Some last ->
  (now env - last < RATE_WINDOW_MS)%Z ->
  let o := onMessage ADMIN_IDS Fuse_search env msg w in
  o = mkOutcome w (sent env (Chat (chat_id msg)) SlowDown) (inr tt)
  /\ final o = w
  /\ waitingForMeta (final o) = waitingForMeta w
  /\ appendsOf (effects o) = []
  /\ RATE_WINDOW_MS = 1000%Z.
Proof.
  intros Hp Hst Hlt. simpl.
  rewrite onMessage_limited.
  - simpl. repeat split. unfold sent.
    destruct (send_failure env (Chat (chat_id msg)) SlowDown); reflexivity.
  - exact Hp.
  - rewrite Hst. simpl. apply Z.ltb_lt. exact Hlt.
Qed.

Lemma onMessage_rate_limited_witness :
  let o := onMessage roster noMatches (quietEnv 5000)
             (replyMsg (js "007|Great Book|Jane Doe")) recentWorld in
  effects o = [SendMessage (Chat 7) SlowDown None] /\ final o = recentWorld.
Proof.
  destruct (onMessage_rate_limited roster noMatches (quietEnv 5000)
              (replyMsg (js "007|Great Book|Jane Doe")) recentWorld 4500)
    as (Ho & Hf & _).
  - reflexivity.
  - vm_compute. reflexivity.
  - vm_compute. reflexivity.
  - simpl in *. split; [rewrite Ho; reflexivity | exact Hf].
Defined.

(** ** The intake paths *)

Lemma truthy_true (s : jsstring) : truthy s = true <-> s <> [].
Proof. destruct s; simpl; split; congruence. Qed.

Lemma truthy_false (s : jsstring) : truthy s = false <-> s = [].
Proof. destruct s; simpl; split; congruence. Qed.

Section Paths.

Variable ADMIN_IDS : list jsstring.
Variable Fuse_search : list BookRecord -> jsstring -> list (BookRecord * Q).
Variable env : Env.
Variable msg : Message.

Let chat := chat_id msg.

Lemma dispatch_upload (doc : Document) :
  document msg = Some doc -> isAdmin ADMIN_IDS (from_id msg) = true ->
  dispatch ADMIN_IDS Fuse_search env msg = handleUpload env msg doc.
Proof. intros Hd Ha. unfold dispatch. rewrite Hd, Ha. reflexivity. Qed.

Lemma dispatch_text :
  document msg = None ->
  dispatch ADMIN_IDS Fuse_search env msg
  = afterUpload ADMIN_IDS Fuse_search env msg.
Proof. intros Hd. unfold dispatch. rewrite Hd. reflexivity. Qed.

Section Upload.

Variable doc : Document.
Let fid := safeFileId (Some (d_file_id doc)).
Let mime := orEmpty (d_mime_type doc).
Let cap := safeText (Some (orEmpty (caption msg))).

Hypothesis Hmime : isValidDocumentType mime = true.

Lemma handleUpload_session (w : World) :
  cap = [] ->
  handleUpload env msg doc w
  = mkOutcome
      (set_waitingForMeta (<[chat := mkSession fid mime]> (waitingForMeta w)) w)
      (sent env (Chat chat) (AskMetadata mime)) (inr tt).
Proof.
  intros Hc. unfold handleUpload. fold mime cap fid chat.
  rewrite Hmime, Hc. run. rewrite returnSend_eq. reflexivity.
Qed.

Lemma handleUpload_malformed (w : World) (i t a : jsstring) :
  cap <> [] -> parseMeta cap = (i, t, a) -> t = [] \/ fid = [] ->
  handleUpload env msg doc w
  = mkOutcome w (sent env (Chat chat) CaptionFormat) (inr tt).
Proof.
  intros Hc Hp Ht. unfold handleUpload. fold mime cap fid chat.
  apply truthy_true in Hc. rewrite Hmime, Hc, Hp. simpl negb. cbv iota.
  assert (negb (truthy t) || negb (truthy fid) = true) as ->.
  { destruct Ht as [-> | ->]; [reflexivity|]. apply orb_true_r. }
  apply returnSend_eq.
Qed.

Lemma handleUpload_duplicate (w : World) (i t a : jsstring) (b : BookRecord) :
  cap <> [] -> parseMeta cap = (i, t, a) -> t <> [] -> fid <> [] ->
  findByFileId (books w) fid = Some b ->
  handleUpload env msg doc w
  = mkOutcome w (sent env (Chat chat) (AlreadyInLibrary (title b))) (inr tt).
Proof.
  intros Hc Hp Ht Hf Hb. unfold handleUpload. fold mime cap fid chat.
  apply truthy_true in Hc, Ht, Hf. rewrite Hmime, Hc, Hp, Ht, Hf. run.
  rewrite Hb. rewrite returnSend_eq. reflexivity.
Qed.

Lemma handleUpload_saved (w : World) (i t a : jsstring) :
  cap <> [] -> parseMeta cap = (i, t, a) -> t <> [] -> fid <> [] ->
  findByFileId (books w) fid = None ->
  append_failure env = None -> get_failure env = None ->
  let w1 := set_sheet (sheet w ++ [sheetRow i t a fid]) w in
  handleUpload env msg doc w
  = mkOutcome
      (set_fuse (parseRows (sheet w1)) (set_books (parseRows (sheet w1)) w1))
      (SheetAppend (sheetRow i t a fid) None :: SheetGet None
       :: sent env (Chat chat) (SavedToLibrary t))
      (inr tt).
Proof.
  intros Hc Hp Ht Hf Hb Happ Hget. unfold handleUpload. fold mime cap fid chat.
  apply truthy_true in Hc, Ht, Hf. rewrite Hmime, Hc, Hp, Ht, Hf. run.
  rewrite Hb. run. rewrite appendRowToSheet_ok by exact Happ. run.
  rewrite loadSheet_ok by exact Hget. run. rewrite returnSend_eq. reflexivity.
Qed.

Lemma handleUpload_append_failed (w : World) (i t a : jsstring) (e : Error) :
  cap <> [] -> parseMeta cap = (i, t, a) -> t <> [] -> fid <> [] ->
  findByFileId (books w) fid = None ->
  append_failure env = Some e ->
  handleUpload env msg doc w
  = mkOutcome w
      (SheetAppend (sheetRow i t a fid) (Some e) :: Log (AppendRowError e)
       :: Log (AppendRowUploadError e)
       :: sent env (Chat chat) (FailedToSave t (message e)))
      (inr tt).
Proof.
  intros Hc Hp Ht Hf Hb Happ. unfold handleUpload. fold mime cap fid chat.
  apply truthy_true in Hc, Ht, Hf. rewrite Hmime, Hc, Hp, Ht, Hf. run.
  rewrite Hb. run. rewrite (appendRowToSheet_fail _ _ _ _ _ _ e) by exact Happ.
  run. rewrite returnSend_eq. reflexivity.
Qed.

Lemma handleUpload_reload_failed (w : World) (i t a : jsstring) (e : Error) :
  cap <> [] -> parseMeta cap = (i, t, a) -> t <> [] -> fid <> [] ->
  findByFileId (books w) fid = None ->
  append_failure env = None -> get_failure env = Some e ->
  handleUpload env msg doc w
  = mkOutcome (set_sheet (sheet w ++ [sheetRow i t a fid]) w)
      (SheetAppend (sheetRow i t a fid) None :: SheetGet (Some e)
       :: Log (LoadSheetError e) :: Log (AppendRowUploadError e)
       :: sent env (Chat chat) (FailedToSave t (message e)))
      (inr tt).
Proof.
  intros Hc Hp Ht Hf Hb Happ Hget. unfold handleUpload. fold mime cap fid chat.
  apply truthy_true in Hc, Ht, Hf. rewrite Hmime, Hc, Hp, Ht, Hf. run.
  rewrite Hb. run. rewrite appendRowToSheet_ok by exact Happ. run.
  rewrite (loadSheet_fail _ _ e) by exact Hget. run.
  rewrite returnSend_eq. reflexivity.
Qed.

End Upload.

Section Reply.

Variable sess : Session.
Let meta := safeText (Some (orEmpty (text msg))).

Lemma handleReply_invalid (w : World) (i t a : jsstring) :
  parseMeta meta = (i, t, a) -> t = [] \/ s_file_id sess = [] ->
  handleReply env msg sess w
  = mkOutcome w (sent env (Chat chat) InvalidMetadata) (inr tt).
Proof.
  intros Hp Ht. unfold handleReply. fold meta chat. rewrite Hp. cbv iota.
  assert (negb (truthy t) || negb (truthy (s_file_id sess)) = true) as ->.
  { destruct Ht as [-> | ->]; [reflexivity|]. apply orb_true_r. }
  apply returnSend_eq.
Qed.

Lemma handleReply_saved (w : World) (i t a : jsstring) :
  parseMeta meta = (i, t, a) -> t <> [] -> s_file_id sess <> [] ->
  append_failure env = None -> get_failure env = None ->
  let w1 := set_waitingForMeta (delete chat (waitingForMeta w))
              (set_sheet (sheet w ++ [sheetRow i t a (s_file_id sess)]) w) in
  handleReply env msg sess w
  = mkOutcome
      (set_fuse (parseRows (sheet w1)) (set_books (parseRows (sheet w1)) w1))
      (SheetAppend (sheetRow i t a (s_file_id sess)) None :: SheetGet None
       :: sent env (Chat chat) (SavedToSheet t))
      (inr tt).
Proof.
  intros Hp Ht Hf Happ Hget. unfold handleReply. fold meta chat.
  apply truthy_true in Ht, Hf. rewrite Hp, Ht, Hf. run.
  rewrite appendRowToSheet_ok by exact Happ. run.
  rewrite loadSheet_ok by exact Hget. run. rewrite returnSend_eq. reflexivity.
Qed.

Lemma handleReply_append_failed (w : World) (i t a : jsstring) (e : Error) :
  parseMeta meta = (i, t, a) -> t <> [] -> s_file_id sess <> [] ->
  append_failure env = Some e ->
  handleReply env msg sess w
  = mkOutcome w
      (SheetAppend (sheetRow i t a (s_file_id sess)) (Some e)
       :: Log (AppendRowError e) :: Log (AppendRowReplyError e)
       :: sent env (Chat chat) (FailedSave (message e)))
      (inr tt).
Proof.
  intros Hp Ht Hf Happ. unfold handleReply. fold meta chat.
  apply truthy_true in Ht, Hf. rewrite Hp, Ht, Hf. run.
  rewrite (appendRowToSheet_fail _ _ _ _ _ _ e) by exact Happ. run.
  rewrite returnSend_eq. reflexivity.
Qed.

Lemma handleReply_reload_failed (w : World) (i t a : jsstring) (e : Error) :
  parseMeta meta = (i, t, a) -> t <> [] -> s_file_id sess <> [] ->
  append_failure env = None -> get_failure env = Some e ->
  handleReply env msg sess w
  = mkOutcome
      (set_waitingForMeta (delete chat (waitingForMeta w))
         (set_sheet (sheet w ++ [sheetRow i t a (s_file_id sess)]) w))
      (SheetAppend (sheetRow i t a (s_file_id sess)) None :: SheetGet (Some e)
       :: Log (LoadSheetError e) :: Log (AppendRowReplyError e)
       :: sent env (Chat chat) (FailedSave (message e)))
      (inr tt).
Proof.
  intros Hp Ht Hf Happ Hget. unfold handleReply. fold meta chat.
  apply truthy_true in Ht, Hf. rewrite Hp, Ht, Hf. run.
  rewrite appendRowToSheet_ok by exact Happ. run.
  rewrite (loadSheet_fail _ _ e) by exact Hget. run.
  rewrite returnSend_eq. reflexivity.
Qed.

End Reply.

Lemma afterUpload_reply (w : World) (sess : Session) :
  waitingForMeta w !! chat = Some sess ->
  reply_to_message msg = true ->
  isAdmin ADMIN_IDS (from_id msg) = true ->
  truthy (orEmpty (text msg)) = true ->
  afterUpload ADMIN_IDS Fuse_search env msg w = handleReply env msg sess w.
Proof.
  intros Hs Hr Ha Ht. unfold afterUpload. run. fold chat.
  rewrite Hs, Hr, Ha, Ht. simpl.
  destruct (handleReply env msg sess w) as [w' es v]. reflexivity.
Qed.

Lemma afterUpload_no_session (w : World) :
  waitingForMeta w !! chat = None ->
  afterUpload ADMIN_IDS Fuse_search env msg w
  = handleText ADMIN_IDS Fuse_search env msg w.
Proof.
  intros Hs. unfold afterUpload. run. fold chat. rewrite Hs.
  destruct (handleText ADMIN_IDS Fuse_search env msg w) as [w' es v].
  reflexivity.
Qed.

End Paths.

(** ** Computations that leave the catalog and the sessions alone *)

Lemma appendsOf_app (l1 l2 : list Effect) :
  appendsOf (l1 ++ l2) = appendsOf l1 ++ appendsOf l2.
Proof. apply List.filter_app. Qed.

Lemma preserves_ret {A} (a : A) : preserves (mret a : M A).
Proof. intros w. repeat split. Qed.

Lemma preserves_throw {A} (e : Error) : preserves (throw e : M A).
Proof. intros w. repeat split. Qed.

Lemma preserves_get : preserves get.
Proof. intros w. repeat split. Qed.

Lemma preserves_emit (e : Effect) :
  isSheetAppend e = false -> preserves (emit e).
Proof. intros H w. simpl. unfold appendsOf. simpl. rewrite H. repeat split. Qed.

Lemma preserves_modify (f : World -> World) :
  (forall w, waitingForMeta (f w) = waitingForMeta w /\ sheet (f w) = sheet w
             /\ books (f w) = books w /\ fuse (f w) = fuse w) ->
  preserves (modify f).
Proof. intros H w. simpl. split; [reflexivity | apply H]. Qed.

Lemma preserves_bind {A B} (m : M A) (k : A -> M B) :
  preserves m -> (forall a, preserves (k a)) -> preserves (m ≫= k).
Proof.
  intros Hm Hk w. destruct (Hm w) as (E1 & S1 & T1 & B1 & F1).
  unfold mbind, M_bind, bind.
  destruct (value (m w)) as [e|a]; simpl.
  - repeat split; assumption.
  - destruct (Hk a (final (m w))) as (E2 & S2 & T2 & B2 & F2).
    rewrite appendsOf_app, E1, E2. repeat split; congruence.
Qed.

Lemma preserves_tryCatch {A} (m : M A) (h : Error -> M A) :
  preserves m -> (forall e, preserves (h e)) -> preserves (tryCatch m h).
Proof.
  intros Hm Hh w. destruct (Hm w) as (E1 & S1 & T1 & B1 & F1).
  unfold tryCatch.
  destruct (value (m w)) as [e|a]; simpl.
  - destruct (Hh e (final (m w))) as (E2 & S2 & T2 & B2 & F2).
    rewrite appendsOf_app, E1, E2. repeat split; congruence.
  - repeat split; assumption.
Qed.

Lemma preserves_await (e : Effect) (f : option Error) :
  isSheetAppend e = false -> preserves (await e f).
Proof.
  intros H. unfold await. apply preserves_bind.
  - apply preserves_emit, H.
  - intros _. destruct f; [apply preserves_throw | apply (preserves_ret tt)].
Qed.

Lemma appendsOf_notifyTrace (env : Env) (n : Notice) (admins : list jsstring) :
  appendsOf (concat (map (notifyTrace env n) admins)) = [].
Proof.
  induction admins as [|a rest IH]; [reflexivity|].
  simpl. rewrite appendsOf_app, IH, app_nil_r. unfold notifyTrace.
  destruct (send_failure env (Admin a) (NewBookRequest n)); reflexivity.
Qed.

Lemma preserves_notifyLoop (env : Env) (n : Notice) (admins : list jsstring) :
  preserves (notifyLoop env admins n).
Proof.
  intros w. rewrite notifyLoop_eq. simpl.
  rewrite appendsOf_notifyTrace. repeat split.
Qed.

Lemma preserves_returnSend (env : Env) (to : Recipient) (t : Text) :
  preserves (returnSend env to t).
Proof.
  intros w. rewrite returnSend_eq. simpl. unfold sent.
  destruct (send_failure env to t); repeat split.
Qed.

Ltac preserve :=
  repeat first
    [ apply preserves_notifyLoop
    | apply preserves_returnSend
    | apply preserves_get
    | apply preserves_throw
    | apply (preserves_ret tt)
    | apply preserves_ret
    | apply preserves_await; reflexivity
    | apply preserves_emit; reflexivity
    | apply preserves_modify; intros ?; repeat split
    | apply preserves_bind; [|intros ?]
    | apply preserves_tryCatch; [|intros ?] ].

Lemma preserves_handleQuery (ADMIN_IDS : list jsstring)
  (Fuse_search : list BookRecord -> jsstring -> list (BookRecord * Q))
  (env : Env) (msg : Message) (txt : jsstring) :
  preserves (handleQuery ADMIN_IDS Fuse_search env msg txt).
Proof.
  unfold handleQuery.
  destruct (truthy (safeText (Some (trim txt)))); simpl;
    [|apply (preserves_ret tt)].
  apply preserves_bind; [apply preserves_get|]. intros w.
  destruct (Fuse_search (fuse w) (safeText (Some (trim txt))))
    as [|[best sc] rest].
  - unfold saveDB, awaitSend, notifyAdminsAboutRequest. preserve.
  - unfold saveDB, awaitSend, notifyAdminsAboutRequest, trackUserDownload,
      saveDB.
    apply preserves_tryCatch.
    + apply preserves_bind; [preserve|]. intros _.
      apply preserves_bind; [preserve|]. intros _.
      destruct (negb (isAdmin ADMIN_IDS (from_id msg))); [|preserve].
      apply preserves_bind; [preserve|]. intros c.
      destruct (getUserMilestoneMessage c); preserve.
    + intros e. preserve.
Qed.

Lemma preserves_handleText (ADMIN_IDS : list jsstring)
  (Fuse_search : list BookRecord -> jsstring -> list (BookRecord * Q))
  (env : Env) (msg : Message) :
  preserves (handleText ADMIN_IDS Fuse_search env msg).
Proof.
  unfold handleText. destruct (text msg) as [txt|]; [|apply (preserves_ret tt)].
  destruct (negb (truthy txt)); [apply (preserves_ret tt)|].
  destruct (startsWith txt SLASH); [apply (preserves_ret tt)|].
  apply preserves_handleQuery.
Qed.

(** ** Queries without a match *)

Section Query.

Variable ADMIN_IDS : list jsstring.
Variable Fuse_search : list BookRecord -> jsstring -> list (BookRecord * Q).
Variable env : Env.
Variable msg : Message.
Variable txt : jsstring.

Let query := safeText (Some (trim txt)).
Let reply := noMatchReply ADMIN_IDS msg query.

Lemma handleQuery_no_match (w : World) :
  query <> [] -> Fuse_search (fuse w) query = [] ->
  handleQuery ADMIN_IDS Fuse_search env msg txt w
  = let w1 := set_requests (requests w ++ [requestOf env msg query]) w in
    match save_failure env with
    | Some e => mkOutcome w1 [SaveDB (Some e)] (inl e)
    | None =>
        match send_failure env (Chat (chat_id msg)) reply with
        | Some e =>
            mkOutcome w1
              [SaveDB None; SendMessage (Chat (chat_id msg)) reply (Some e)]
              (inl e)
        | None =>
            mkOutcome w1
              (SaveDB None :: SendMessage (Chat (chat_id msg)) reply None
               :: concat (map (notifyTrace env (noticeOf msg query)) ADMIN_IDS))
              (inr tt)
        end
    end.
Proof.
  intros Hq Hs. unfold handleQuery. fold query.
  apply truthy_true in Hq. rewrite Hq. run. rewrite Hs.
  unfold saveDB, awaitSend, notifyAdminsAboutRequest. run.
  fold (noMatchReply ADMIN_IDS msg query). fold reply.
  destruct (save_failure env) as [e|]; run; [reflexivity|].
  destruct (send_failure env (Chat (chat_id msg)) reply) as [e|]; run;
    [reflexivity|].
  rewrite notifyLoop_eq. reflexivity.
Qed.

Lemma dispatch_plainText (w : World) :
  plainText ADMIN_IDS w msg txt ->
  dispatch ADMIN_IDS Fuse_search env msg (stamped env w msg)
  = handleQuery ADMIN_IDS Fuse_search env msg txt (stamped env w msg).
Proof.
  intros (Hp & Hd & Ht & Hne & Hsl & Hno).
  rewrite dispatch_text by exact Hd.
  assert (Htext : handleText ADMIN_IDS Fuse_search env msg
                  = handleQuery ADMIN_IDS Fuse_search env msg txt).
  { unfold handleText. rewrite Ht. apply truthy_true in Hne.
    rewrite Hne, Hsl. reflexivity. }
  destruct (waitingForMeta w !! chat_id msg) as [sess|] eqn:E.
  - unfold afterUpload. run.
    change (waitingForMeta (stamped env w msg)) with (waitingForMeta w).
    rewrite E.
    assert (reply_to_message msg && isAdmin ADMIN_IDS (from_id msg)
            && truthy (orEmpty (text msg)) = false) as ->.
    { destruct Hno as [-> | [Hn | ->]]; [reflexivity| |].
      - congruence.
      - rewrite andb_false_r. reflexivity. }
    rewrite Htext.
    destruct (handleQuery ADMIN_IDS Fuse_search env msg txt (stamped env w msg))
      as [w' es v]. reflexivity.
  - rewrite afterUpload_no_session by exact E. rewrite Htext. reflexivity.
Qed.

End Query.

(** ** The intake state machine *)

Lemma tryCatch_ok {A} (m : M A) (h : Error -> M A) (w w' : World)
  (es : list Effect) (a : A) :
  m w = mkOutcome w' es (inr a) -> tryCatch m h w = mkOutcome w' es (inr a).
Proof. intros H. unfold tryCatch. rewrite H. reflexivity. Qed.

Lemma dispatch_unthreaded (ADMIN_IDS : list jsstring)
  (Fuse_search : list BookRecord -> jsstring -> list (BookRecord * Q))
  (env : Env) (msg : Message) (w : World) :
  waitingForMeta w !! chat_id msg = None ->
  dispatch ADMIN_IDS Fuse_search env msg w
  = dispatch ADMIN_IDS Fuse_search env (unthreaded msg) w.
Proof.
  intros Hs. unfold dispatch. simpl.
  assert (Hrest : afterUpload ADMIN_IDS Fuse_search env msg w
                  = afterUpload ADMIN_IDS Fuse_search env (unthreaded msg) w).
  { rewrite !afterUpload_no_session by exact Hs. reflexivity. }
  destruct (document msg) as [doc|]; [|exact Hrest].
  destruct (isAdmin ADMIN_IDS (from_id msg)); [reflexivity | exact Hrest].
Qed.

Lemma onMessage_text_preserves (ADMIN_IDS : list jsstring)
  (Fuse_search : list BookRecord -> jsstring -> list (BookRecord * Q))
  (env : Env) (msg : Message) (w : World) :
  waitingForMeta w !! chat_id msg = None -> document msg = None ->
  let o := onMessage ADMIN_IDS Fuse_search env msg w in
  appendsOf (effects o) = []
  /\ waitingForMeta (final o) = waitingForMeta w
  /\ sheet (final o) = sheet w
  /\ books (final o) = books w.
Proof.
  intros Hs Hd. simpl. unfold onMessage.
  destruct (chat_private msg); simpl; [|repeat split].
  unfold tryCatch, mbind, M_bind, bind. rewrite rateLimit_eq.
  destruct (now env - default 0 (lastRequestAt w !! from_id msg) <? RATE_WINDOW_MS)%Z;
    simpl.
  - rewrite returnSend_eq. simpl. unfold sent.
    destruct (send_failure env (Chat (chat_id msg)) SlowDown); repeat split.
  - rewrite dispatch_text by exact Hd.
    rewrite afterUpload_no_session by exact Hs.
    destruct (preserves_handleText ADMIN_IDS Fuse_search env msg
                (set_lastRequestAt (<[from_id msg:=now env]> (lastRequestAt w)) w))
      as (E & S & T & B & _).
    simpl in S, T, B.
    destruct (value (handleText _ _ _ _ _)) as [e|a]; simpl.
    + rewrite appendsOf_app, E. repeat split; assumption.
    + repeat split; assumption.
Qed.

(** C3: the sessions are a map from conversations, so a conversation
    has at most one.  (1) An administrator's document of an allowed type
    without a caption, admitted by the limiter, stores for its
    conversation a session with the trimmed reference and the mime type,
    replacing any pending one and leaving the other conversations alone,
    and appends nothing.  (2) A reply by an administrator with a
    non-empty title, while a session with a non-empty reference is
    pending and the append succeeds, appends the row and leaves the
    conversation without session.  (3) When the conversation has no
    session, a message is handled exactly as the same message without its
    reply link: a text is a search query, nothing is appended and no
    session appears. *)
Theorem intake_session_lifecycle
  (ADMIN_IDS : list jsstring)
  (Fuse_search : list BookRecord -> jsstring -> list (BookRecord * Q))
  (env : Env) (msg : Message) (w : World) :
  let o := onMessage ADMIN_IDS Fuse_search env msg w in
  (forall doc,
      adminUpload ADMIN_IDS msg doc -> admitted env w msg ->
      safeText (Some (orEmpty (caption msg))) = [] ->
      let sess := mkSession (safeFileId (Some (d_file_id doc)))
                            (orEmpty (d_mime_type doc)) in
      waitingForMeta (final o) = <[chat_id msg := sess]> (waitingForMeta w)
      /\ waitingForMeta (final o) !! chat_id msg = Some sess
      /\ (forall c, c <> chat_id msg ->
                    waitingForMeta (final o) !! c = waitingForMeta w !! c)
      /\ appendsOf (effects o) = [] /\ sheet (final o) = sheet w)
  /\ (forall sess i t a,
         metadataReply ADMIN_IDS w msg sess -> admitted env w msg ->
         parseMeta (safeText (Some (orEmpty (text msg)))) = (i, t, a) ->
         t <> [] -> s_file_id sess <> [] -> append_failure env = None ->
         waitingForMeta (final o) = delete (chat_id msg) (waitingForMeta w)
         /\ waitingForMeta (final o) !! chat_id msg = None
         /\ sheet (final o) = sheet w ++ [sheetRow i t a (s_file_id sess)]
         /\ appendsOf (effects o)
            = [SheetAppend (sheetRow i t a (s_file_id sess)) None])
  /\ (waitingForMeta w !! chat_id msg = None ->
      o = onMessage ADMIN_IDS Fuse_search env (unthreaded msg) w
      /\ (document msg = None ->
          appendsOf (effects o) = []
          /\ waitingForMeta (final o) = waitingForMeta w
          /\ sheet (final o) = sheet w)).
Proof.
  simpl. split; [|split].
  - intros doc (Hp & Hd & Ha & Hm) Hadm Hcap.
    rewrite onMessage_admitted by assumption.
    erewrite tryCatch_ok.
    2:{ rewrite (dispatch_upload _ _ _ _ doc) by assumption.
        apply handleUpload_session; assumption. }
    simpl. split; [reflexivity|]. split; [apply lookup_insert_eq|].
    split; [intros c Hc; apply lookup_insert_ne; congruence|].
    split; [|reflexivity]. unfold sent.
    destruct (send_failure _ _ _); reflexivity.
  - intros sess i t a (Hp & Hd & Hr & Hs & Ha & Ht) Hadm Hparse Htne Hfne Happ.
    rewrite onMessage_admitted by assumption.
    rewrite dispatch_text by assumption.
    destruct (get_failure env) as [e|] eqn:Hget.
    + erewrite tryCatch_ok.
      2:{ rewrite (afterUpload_reply _ _ _ _ _ sess) by assumption.
          apply (handleReply_reload_failed _ _ _ _ i t a e); assumption. }
      simpl. split; [reflexivity|]. split; [apply lookup_delete_eq|].
      split; [reflexivity|]. unfold sent, appendsOf.
      destruct (send_failure _ _ _); reflexivity.
    + erewrite tryCatch_ok.
      2:{ rewrite (afterUpload_reply _ _ _ _ _ sess) by assumption.
          apply (handleReply_saved _ _ _ _ i t a); assumption. }
      simpl. split; [reflexivity|]. split; [apply lookup_delete_eq|].
      split; [reflexivity|]. unfold sent, appendsOf.
      destruct (send_failure _ _ _); reflexivity.
  - intros Hs. split.
    + unfold onMessage. simpl. destruct (chat_private msg); [|reflexivity].
      simpl. unfold tryCatch, mbind, M_bind, bind. rewrite rateLimit_eq.
      destruct (now env - default 0 (lastRequestAt w !! from_id msg)
                <? RATE_WINDOW_MS)%Z; simpl; [reflexivity|].
      rewrite <- dispatch_unthreaded by exact Hs. reflexivity.
    + intros Hd.
      destruct (onMessage_text_preserves ADMIN_IDS Fuse_search env msg w Hs Hd)
        as (E & S & T & _).
      repeat split; assumption.
Qed.

Lemma intake_session_lifecycle_witness :
  waitingForMeta
    (final (onMessage roster noMatches (quietEnv 5000) (uploadMsg None)
              loadedWorld)) !! 7%Z
  = Some (mkSession (js "BQAC9") (js "application/pdf"))
  /\ waitingForMeta
       (final (onMessage roster noMatches (quietEnv 5000)
                 (replyMsg (js "007|Great Book|Jane Doe"))
                 (pendingWorld (js "BQAC9")))) !! 7%Z
     = None.
Proof.
  split.
  - apply (proj1 (intake_session_lifecycle roster noMatches (quietEnv 5000)
                    (uploadMsg None) loadedWorld) pdf).
    + repeat split; vm_compute; reflexivity.
    + vm_compute. reflexivity.
    + vm_compute. reflexivity.
  - apply (proj1 (proj2 (intake_session_lifecycle roster noMatches
                           (quietEnv 5000)
                           (replyMsg (js "007|Great Book|Jane Doe"))
                           (pendingWorld (js "BQAC9"))))
             (mkSession (js "BQAC9") (js "application/pdf"))
             (js "007") (js "Great Book") (js "Jane Doe")).
    + repeat split; vm_compute; reflexivity.
    + vm_compute. reflexivity.
    + vm_compute. reflexivity.
    + discriminate.
    + discriminate.
    + reflexivity.
Defined.

(** C9: on the path of a metadata reply with a non-empty title and a
    pending session with a non-empty reference, the session is deleted
    exactly when the append succeeds.  When the append succeeds the row
    is in the sheet and the session is gone, also when the reload that
    follows fails (the generation is then the old one and the answer is
    the failure message); when the append fails the session and the
    sheet are as before. *)
Theorem reply_session_deleted_iff_append_succeeds
  (ADMIN_IDS : list jsstring)
  (Fuse_search : list BookRecord -> jsstring -> list (BookRecord * Q))
  (env : Env) (msg : Message) (w : World) (sess : Session)
  (i t a : jsstring) :
  metadataReply ADMIN_IDS w msg sess -> admitted env w msg ->
  parseMeta (safeText (Some (orEmpty (text msg)))) = (i, t, a) ->
  t <> [] -> s_file_id sess <> [] ->
  let o := onMessage ADMIN_IDS Fuse_search env msg w in
  let row := sheetRow i t a (s_file_id sess) in
  (append_failure env = None ->
   waitingForMeta (final o) = delete (chat_id msg) (waitingForMeta w)
   /\ sheet (final o) = sheet w ++ [row]
   /\ (forall e, get_failure env = Some e ->
                 books (final o) = books w
                 /\ effects o
                    = SheetAppend row None :: SheetGet (Some e)
                      :: Log (LoadSheetError e) :: Log (AppendRowReplyError e)
                      :: sent env (Chat (chat_id msg)) (FailedSave (message e))))
  /\ (forall e, append_failure env = Some e ->
                final o = stamped env w msg
                /\ waitingForMeta (final o) = waitingForMeta w
                /\ sheet (final o) = sheet w
                /\ effects o
                   = SheetAppend row (Some e) :: Log (AppendRowError e)
                     :: Log (AppendRowReplyError e)
                     :: sent env (Chat (chat_id msg)) (FailedSave (message e)))
  /\ (waitingForMeta (final o) !! chat_id msg = None
      <-> append_failure env = None).
Proof.
  intros (Hp & Hd & Hr & Hs & Ha & Ht) Hadm Hparse Htne Hfne. simpl.
  rewrite onMessage_admitted by assumption.
  rewrite dispatch_text by assumption.
  destruct (append_failure env) as [ea|] eqn:Happ.
  - erewrite tryCatch_ok.
    2:{ rewrite (afterUpload_reply _ _ _ _ _ sess) by assumption.
        apply (handleReply_append_failed _ _ _ _ i t a ea); assumption. }
    simpl. split; [discriminate|]. split.
    + intros e He. inversion He; subst. repeat split.
    + rewrite Hs. split; discriminate.
  - destruct (get_failure env) as [eg|] eqn:Hget.
    + erewrite tryCatch_ok.
      2:{ rewrite (afterUpload_reply _ _ _ _ _ sess) by assumption.
          apply (handleReply_reload_failed _ _ _ _ i t a eg); assumption. }
      simpl. split; [|split; [discriminate|]].
      * intros _. split; [reflexivity|]. split; [reflexivity|].
        intros e He. inversion He; subst. split; reflexivity.
      * split; [reflexivity | intros _; apply lookup_delete_eq].
    + erewrite tryCatch_ok.
      2:{ rewrite (afterUpload_reply _ _ _ _ _ sess) by assumption.
          apply (handleReply_saved _ _ _ _ i t a); assumption. }
      simpl. split; [|split; [discriminate|]].
      * intros _. split; [reflexivity|]. split; [reflexivity|]. discriminate.
      * split; [reflexivity | intros _; apply lookup_delete_eq].
Qed.

Lemma reply_session_deleted_witness :
  let o := onMessage roster noMatches (reloadDown 5000)
             (replyMsg (js "007|Great Book|Jane Doe"))
             (pendingWorld (js "BQAC9")) in
  waitingForMeta (final o) !! 7%Z = None
  /\ sheet (final o)
     = demoSheet ++ [[js "007"; js "Great Book"; js "Jane Doe"; js "BQAC9"]].
Proof.
  pose proof (reply_session_deleted_iff_append_succeeds roster noMatches
                (reloadDown 5000) (replyMsg (js "007|Great Book|Jane Doe"))
                (pendingWorld (js "BQAC9"))
                (mkSession (js "BQAC9") (js "application/pdf"))
                (js "007") (js "Great Book") (js "Jane Doe")) as H.
  simpl in H.
  destruct H as (Hok & _ & Hiff).
  - repeat split; vm_compute; reflexivity.
  - vm_compute. reflexivity.
  - vm_compute. reflexivity.
  - discriminate.
  - discriminate.
  - simpl. split.
    + apply Hiff. reflexivity.
    + destruct (Hok eq_refl) as (_ & Hsheet & _). rewrite Hsheet.
      vm_compute. reflexivity.
Defined.

(** ** Duplicates *)

Lemma countRef_app (f : jsstring) (l1 l2 : list BookRecord) :
  countRef f (l1 ++ l2) = (countRef f l1 + countRef f l2)%nat.
Proof. unfold countRef. rewrite List.filter_app, length_app. reflexivity. Qed.

Lemma findByFileId_Some (bs : list BookRecord) (f : jsstring) (b : BookRecord) :
  findByFileId bs f = Some b -> In b bs /\ file_id b = f.
Proof.
  unfold findByFileId. intros H. apply List.find_some in H as [Hin Heq].
  split; [exact Hin|]. unfold eqb_str in Heq.
  apply bool_decide_eq_true in Heq. exact Heq.
Qed.

(** The lookup finds a record whenever one has the reference: the first
    of them. *)
Lemma findByFileId_first (bs : list BookRecord) (f : jsstring)
  (b0 : BookRecord) :
  In b0 bs -> file_id b0 = f ->
  exists pre b post,
    bs = pre ++ b :: post /\ file_id b = f
    /\ (forall x, In x pre -> file_id x <> f)
    /\ findByFileId bs f = Some b.
Proof.
  unfold findByFileId. induction bs as [|x bs IH]; intros Hin Hf; [destruct Hin|].
  simpl. unfold eqb_str at 1. destruct (decide (file_id x = f)) as [Hx|Hx].
  - rewrite bool_decide_eq_true_2 by exact Hx.
    exists [], x, bs. repeat split; [exact Hx | intros y []].
  - rewrite bool_decide_eq_false_2 by exact Hx.
    destruct Hin as [->|Hin]; [contradiction|].
    destruct (IH Hin Hf) as (pre & b & post & -> & Hb & Hpre & Hfind).
    exists (x :: pre), b, post. repeat split; [exact Hb| |exact Hfind].
    intros y [<-|Hy]; [exact Hx | apply Hpre, Hy].
Qed.

Lemma countRef_In (f : jsstring) (bs : list BookRecord) (b : BookRecord) :
  In b bs -> file_id b = f -> (1 <= countRef f bs)%nat.
Proof.
  intros Hin Hf. unfold countRef.
  assert (In b (List.filter (fun b => eqb_str (file_id b) f) bs)) as Hb.
  { apply List.filter_In. split; [exact Hin|]. unfold eqb_str.
    apply bool_decide_eq_true. exact Hf. }
  destruct (List.filter _ bs); [destruct Hb | simpl; lia].
Qed.

Lemma specLoad_In (rows : list Row) (b : BookRecord) :
  In b (specLoad rows) ->
  rows <> [] /\ trimmed (file_id b) /\ file_id b <> [].
Proof.
  intros Hin. split.
  - intros ->. destruct Hin.
  - unfold specLoad in Hin. apply list_elem_of_In in Hin.
    apply list_elem_of_omap in Hin as (r & _ & Hr).
    apply specRecord_Some in Hr as (-> & _ & Hf). simpl.
    split; [apply (safeFileId_trimmed (Some (cell r 3))) | exact Hf].
Qed.

Lemma specLoad_snoc (rows : list Row) (r : Row) :
  rows <> [] -> specLoad (rows ++ [r]) = specLoad rows ++ omap specRecord [r].
Proof.
  intros Hne. unfold specLoad. destruct rows as [|h rows]; [congruence|].
  simpl tail. apply omap_app.
Qed.

(** The row written for clean fields is read back as their record. *)
Lemma specRecord_sheetRow (i t a f : jsstring) :
  noControl t -> trimmed t -> t <> [] -> trimmed f -> f <> [] ->
  specRecord (sheetRow i t a f)
  = Some (mkBook (safeText (Some i)) t (safeText (Some a)) f).
Proof.
  intros Hc Ht Hne Hf Hfne. apply specRecord_Some. unfold sheetRow, cell. simpl.
  rewrite (safeText_id t Hc Ht), (safeFileId_id f Hf).
  rewrite !(safeText_id (safeText _)) by
    (apply safeText_noControl || apply safeText_trimmed).
  rewrite (safeText_id t Hc Ht), (safeFileId_id f Hf).
  repeat split; assumption.
Qed.

(** C4: on the caption path a document whose reference equals that of
    some record of the generation is answered with the title of the
    first record of the generation with that reference, and nothing is
    appended; on the path of the metadata reply no such
    test is made: when the session holds a reference already in the
    generation (loaded from the sheet) and the append and the reload
    succeed, the row is appended and the new generation has one more
    record with that reference, hence at least two. *)
Theorem duplicate_detection_only_on_caption_path
  (ADMIN_IDS : list jsstring)
  (Fuse_search : list BookRecord -> jsstring -> list (BookRecord * Q))
  (env : Env) (msg : Message) (w : World) (i t a : jsstring) (b : BookRecord) :
  admitted env w msg -> t <> [] ->
  let o := onMessage ADMIN_IDS Fuse_search env msg w in
  (forall doc,
      adminUpload ADMIN_IDS msg doc ->
      safeText (Some (orEmpty (caption msg))) <> [] ->
      parseMeta (safeText (Some (orEmpty (caption msg)))) = (i, t, a) ->
      safeFileId (Some (d_file_id doc)) <> [] ->
      In b (books w) -> file_id b = safeFileId (Some (d_file_id doc)) ->
      exists pre b' post,
        books w = pre ++ b' :: post
        /\ file_id b' = safeFileId (Some (d_file_id doc))
        /\ (forall x, In x pre ->
                      file_id x <> safeFileId (Some (d_file_id doc)))
        /\ o = mkOutcome (stamped env w msg)
                 (sent env (Chat (chat_id msg)) (AlreadyInLibrary (title b')))
                 (inr tt)
        /\ appendsOf (effects o) = [] /\ sheet (final o) = sheet w
        /\ books (final o) = books w)
  /\ (forall sess,
         metadataReply ADMIN_IDS w msg sess ->
         parseMeta (safeText (Some (orEmpty (text msg)))) = (i, t, a) ->
         books w = parseRows (sheet w) ->
         In b (books w) -> file_id b = s_file_id sess ->
         append_failure env = None -> get_failure env = None ->
         appendsOf (effects o)
         = [SheetAppend (sheetRow i t a (s_file_id sess)) None]
         /\ books (final o)
            = books w ++ [mkBook (safeText (Some i)) t (safeText (Some a))
                                 (s_file_id sess)]
         /\ countRef (s_file_id sess) (books (final o))
            = S (countRef (s_file_id sess) (books w))
         /\ (2 <= countRef (s_file_id sess) (books (final o)))%nat).
Proof.
  intros Hadm Htne. simpl. split.
  - intros doc (Hp & Hd & Ha & Hm) Hcap Hparse Hfne Hin Hfid.
    destruct (findByFileId_first _ _ _ Hin Hfid)
      as (pre & b' & post & Hsplit & Hfid' & Hpre & Hfind).
    exists pre, b', post.
    split; [exact Hsplit|]. split; [exact Hfid'|]. split; [exact Hpre|].
    rewrite onMessage_admitted by assumption.
    erewrite tryCatch_ok.
    2:{ rewrite (dispatch_upload _ _ _ _ doc) by assumption.
        apply (handleUpload_duplicate env msg doc Hm _ i t a b'); assumption. }
    split; [reflexivity|]. simpl. unfold sent.
    destruct (send_failure _ _ _); repeat split.
  - intros sess (Hp & Hd & Hr & Hs & Ha & Ht) Hparse Hsync Hin Hfid Happ Hget.
    rewrite Hsync, parseRows_specLoad in Hin.
    destruct (specLoad_In _ _ Hin) as (Hne & Htrim & Hfne).
    rewrite Hfid in Htrim, Hfne.
    destruct (parseMeta_clean _ _ _ _
                (safeText_noControl (Some (orEmpty (text msg)))) Hparse)
      as (_ & (Hct & Htt) & _).
    rewrite onMessage_admitted by assumption.
    rewrite dispatch_text by assumption.
    erewrite tryCatch_ok.
    2:{ rewrite (afterUpload_reply _ _ _ _ _ sess) by assumption.
        apply (handleReply_saved _ _ _ _ i t a); assumption. }
    simpl.
    assert (Hbooks : parseRows (sheet w ++ [sheetRow i t a (s_file_id sess)])
                     = books w ++ [mkBook (safeText (Some i)) t
                                          (safeText (Some a)) (s_file_id sess)]).
    { rewrite Hsync, !parseRows_specLoad, specLoad_snoc by exact Hne.
      f_equal. rewrite omap_cons, specRecord_sheetRow by assumption.
      reflexivity. }
    rewrite Hbooks. split.
    + unfold sent, appendsOf. destruct (send_failure _ _ _); reflexivity.
    + split; [reflexivity|].
      assert (Hcount : countRef (s_file_id sess)
                         (books w ++ [mkBook (safeText (Some i)) t
                                        (safeText (Some a)) (s_file_id sess)])
                       = S (countRef (s_file_id sess) (books w))).
      { rewrite countRef_app. unfold countRef at 2. simpl. unfold eqb_str.
        rewrite bool_decide_eq_true_2 by reflexivity. simpl. lia. }
      split; [exact Hcount|]. rewrite Hcount.
      assert (1 <= countRef (s_file_id sess) (books w))%nat; [|lia].
      apply (countRef_In _ _ b); [|exact Hfid].
      rewrite Hsync, parseRows_specLoad. exact Hin.
Qed.

Lemma duplicate_detection_witness :
  effects (onMessage roster noMatches (quietEnv 5000)
             (dupMsg (Some (js "9|Great Again|X"))) loadedWorld)
  = [SendMessage (Chat 7) (AlreadyInLibrary (js "Great Book")) None]
  /\ countRef (js "BQAC4")
       (books (final (onMessage roster noMatches (quietEnv 5000)
                        (replyMsg (js "9|Other Again|X"))
                        (pendingWorld (js "BQAC4")))))
     = 2%nat.
Proof.
  split.
  - pose (b := mkBook (js "1") (js "Great Book") (js "Jane Doe") (js "BQAC 1")).
    pose (doc := mkDocument (js "BQAC 1") (Some (js "application/pdf")) None).
    destruct (duplicate_detection_only_on_caption_path roster noMatches
                (quietEnv 5000) (dupMsg (Some (js "9|Great Again|X")))
                loadedWorld (js "9") (js "Great Again") (js "X") b)
      as [Hcap _].
    + vm_compute. reflexivity.
    + discriminate.
    + destruct (Hcap doc) as (pre & b' & post & Hsplit & _ & Hpre & Ho & _).
      * repeat split; vm_compute; reflexivity.
      * discriminate.
      * vm_compute. reflexivity.
      * discriminate.
      * vm_compute. left. reflexivity.
      * vm_compute. reflexivity.
      * rewrite Ho. clear Ho. destruct pre as [|x pre].
        -- injection Hsplit as <- _. reflexivity.
        -- exfalso. injection Hsplit as <- _.
           apply (Hpre _ (or_introl eq_refl)). reflexivity.
  - pose (b := mkBook (js "4") (js "Other Book") [] (js "BQAC4")).
    destruct (duplicate_detection_only_on_caption_path roster noMatches
                (quietEnv 5000) (replyMsg (js "9|Other Again|X"))
                (pendingWorld (js "BQAC4")) (js "9") (js "Other Again")
                (js "X") b)
      as [_ Hrep].
    + vm_compute. reflexivity.
    + discriminate.
    + destruct (Hrep (mkSession (js "BQAC4") (js "application/pdf")))
        as (_ & _ & Hcount & _).
      * repeat split; vm_compute; reflexivity.
      * vm_compute. reflexivity.
      * reflexivity.
      * vm_compute. tauto.
      * reflexivity.
      * reflexivity.
      * reflexivity.
      * simpl s_file_id in Hcount. rewrite Hcount. vm_compute. reflexivity.
Defined.

(** ** Captions and metadata *)

Lemma split_notin (sep : N) (s : jsstring) :
  ~ In sep s -> split sep s = [s].
Proof.
  induction s as [|c s IH]; intros Hn; simpl; [reflexivity|].
  destruct (N.eqb_spec c sep) as [->|Hne].
  - exfalso. apply Hn. left. reflexivity.
  - rewrite IH; [reflexivity|]. intros H. apply Hn. right. exact H.
Qed.

Lemma split_app_sep (sep : N) (s t : jsstring) :
  ~ In sep s -> split sep (s ++ sep :: t) = s :: split sep t.
Proof.
  induction s as [|c s IH]; intros Hn; simpl.
  - rewrite N.eqb_refl. reflexivity.
  - destruct (N.eqb_spec c sep) as [->|Hne].
    + exfalso. apply Hn. left. reflexivity.
    + rewrite IH; [reflexivity|]. intros H. apply Hn. right. exact H.
Qed.

(** Splitting undoes joining, for segments without the separator. *)
Lemma split_join (sep : N) (segs : list jsstring) :
  segs <> [] -> Forall (fun s => ~ In sep s) segs ->
  split sep (join sep segs) = segs.
Proof.
  intros Hne Hall. induction Hall as [|s rest Hs Hrest IH]; [congruence|].
  destruct rest as [|s' rest].
  - simpl. apply split_notin, Hs.
  - change (join sep (s :: s' :: rest)) with (s ++ sep :: join sep (s' :: rest)).
    rewrite split_app_sep by exact Hs. rewrite IH by discriminate. reflexivity.
Qed.

Lemma trim_nil : trim [] = [].
Proof. reflexivity. Qed.

Lemma parseMeta_join (segs : list jsstring) :
  segs <> [] -> Forall (fun s => ~ In PIPE s) segs ->
  parseMeta (join PIPE segs)
  = (trim (orEmpty (segs !! 0%nat)), trim (orEmpty (segs !! 1%nat)),
     trim (orEmpty (segs !! 2%nat))).
Proof.
  intros Hne Hall. unfold parseMeta. rewrite split_join by assumption.
  rewrite !list_lookup_fmap.
  destruct (segs !! 0%nat), (segs !! 1%nat), (segs !! 2%nat); reflexivity.
Qed.

(** C7: the text is split on the bar and each segment is trimmed; the
    first three segments are the id, the title and the author, and
    further segments are ignored; a text without a bar has no title.
    The three examples parse as stated.  A caption (non-blank) or a
    metadata reply whose title is empty is answered with the format
    message, and the state is left as the limiter left it: nothing is
    appended and the sessions are unchanged.  A caption with a title, a
    non-empty reference that is not yet in the generation and a
    successful append adds the row, empty id and author included. *)
Theorem caption_parsing
  (ADMIN_IDS : list jsstring)
  (Fuse_search : list BookRecord -> jsstring -> list (BookRecord * Q))
  (env : Env) (msg : Message) (w : World) :
  let o := onMessage ADMIN_IDS Fuse_search env msg w in
  (forall segs,
      segs <> [] -> Forall (fun s => ~ In PIPE s) segs ->
      parseMeta (join PIPE segs)
      = (trim (orEmpty (segs !! 0%nat)), trim (orEmpty (segs !! 1%nat)),
         trim (orEmpty (segs !! 2%nat))))
  /\ (forall s, ~ In PIPE s -> parseMeta s = (trim s, [], []))
  /\ parseMeta (js "007|Great Book|Jane Doe")
     = (js "007", js "Great Book", js "Jane Doe")
  /\ parseMeta (js "|Great Book|") = ([], js "Great Book", [])
  /\ parseMeta (js "007||Jane Doe") = (js "007", [], js "Jane Doe")
  /\ (forall doc i a,
         adminUpload ADMIN_IDS msg doc -> admitted env w msg ->
         safeText (Some (orEmpty (caption msg))) <> [] ->
         parseMeta (safeText (Some (orEmpty (caption msg)))) = (i, [], a) ->
         o = mkOutcome (stamped env w msg)
               (sent env (Chat (chat_id msg)) CaptionFormat) (inr tt)
         /\ appendsOf (effects o) = []
         /\ waitingForMeta (final o) = waitingForMeta w
         /\ sheet (final o) = sheet w)
  /\ (forall sess i a,
         metadataReply ADMIN_IDS w msg sess -> admitted env w msg ->
         parseMeta (safeText (Some (orEmpty (text msg)))) = (i, [], a) ->
         o = mkOutcome (stamped env w msg)
               (sent env (Chat (chat_id msg)) InvalidMetadata) (inr tt)
         /\ appendsOf (effects o) = []
         /\ waitingForMeta (final o) = waitingForMeta w
         /\ sheet (final o) = sheet w)
  /\ (forall doc i t a,
         adminUpload ADMIN_IDS msg doc -> admitted env w msg ->
         safeText (Some (orEmpty (caption msg))) <> [] ->
         parseMeta (safeText (Some (orEmpty (caption msg)))) = (i, t, a) ->
         t <> [] -> safeFileId (Some (d_file_id doc)) <> [] ->
         findByFileId (books w) (safeFileId (Some (d_file_id doc))) = None ->
         append_failure env = None ->
         sheet (final o)
         = sheet w ++ [sheetRow i t a (safeFileId (Some (d_file_id doc)))]
         /\ waitingForMeta (final o) = waitingForMeta w).
Proof.
  simpl.
  split; [exact parseMeta_join|].
  split.
  { intros s Hs. apply (parseMeta_join [s]); [discriminate|].
    constructor; [exact Hs | constructor]. }
  split; [vm_compute; reflexivity|].
  split; [vm_compute; reflexivity|].
  split; [vm_compute; reflexivity|].
  split; [|split].
  - intros doc i a (Hp & Hd & Ha & Hm) Hadm Hcap Hparse.
    rewrite onMessage_admitted by assumption.
    erewrite tryCatch_ok.
    2:{ rewrite (dispatch_upload _ _ _ _ doc) by assumption.
        apply (handleUpload_malformed env msg doc Hm _ i [] a);
          [assumption | assumption | left; reflexivity]. }
    split; [reflexivity|]. simpl. unfold sent.
    destruct (send_failure _ _ _); repeat split.
  - intros sess i a (Hp & Hd & Hr & Hs & Ha & Ht) Hadm Hparse.
    rewrite onMessage_admitted by assumption.
    rewrite dispatch_text by assumption.
    erewrite tryCatch_ok.
    2:{ rewrite (afterUpload_reply _ _ _ _ _ sess) by assumption.
        apply (handleReply_invalid _ _ _ _ i [] a);
          [assumption | left; reflexivity]. }
    split; [reflexivity|]. simpl. unfold sent.
    destruct (send_failure _ _ _); repeat split.
  - intros doc i t a (Hp & Hd & Ha & Hm) Hadm Hcap Hparse Htne Hfne Hfind Happ.
    rewrite onMessage_admitted by assumption.
    destruct (get_failure env) as [e|] eqn:Hget.
    + erewrite tryCatch_ok.
      2:{ rewrite (dispatch_upload _ _ _ _ doc) by assumption.
          apply (handleUpload_reload_failed env msg doc Hm _ i t a e);
            assumption. }
      split; reflexivity.
    + erewrite tryCatch_ok.
      2:{ rewrite (dispatch_upload _ _ _ _ doc) by assumption.
          apply (handleUpload_saved env msg doc Hm _ i t a); assumption. }
      split; reflexivity.
Qed.

Lemma caption_parsing_witness :
  sheet (final (onMessage roster noMatches (quietEnv 5000)
                  (uploadMsg (Some (js "|Great Book|"))) loadedWorld))
  = demoSheet ++ [[[]; js "Great Book"; []; js "BQAC9"]]
  /\ effects (onMessage roster noMatches (quietEnv 5000)
                (uploadMsg (Some (js "007||Jane Doe"))) loadedWorld)
     = [SendMessage (Chat 7) CaptionFormat None].
Proof.
  split.
  - destruct (caption_parsing roster noMatches (quietEnv 5000)
                (uploadMsg (Some (js "|Great Book|"))) loadedWorld)
      as (_ & _ & _ & _ & _ & _ & _ & Hacc).
    destruct (Hacc pdf [] (js "Great Book") []) as [Hsheet _].
    + repeat split; vm_compute; reflexivity.
    + vm_compute. reflexivity.
    + discriminate.
    + vm_compute. reflexivity.
    + discriminate.
    + discriminate.
    + vm_compute. reflexivity.
    + reflexivity.
    + rewrite Hsheet. vm_compute. reflexivity.
  - destruct (caption_parsing roster noMatches (quietEnv 5000)
                (uploadMsg (Some (js "007||Jane Doe"))) loadedWorld)
      as (_ & _ & _ & _ & _ & Hrej & _).
    destruct (Hrej pdf (js "007") (js "Jane Doe")) as [Ho _].
    + repeat split; vm_compute; reflexivity.
    + vm_compute. reflexivity.
    + discriminate.
    + vm_compute. reflexivity.
    + rewrite Ho. reflexivity.
Defined.

(** ** The request ledger and the notification of administrators *)

Lemma notificationsOf_notifyTrace (env : Env) (n : Notice)
  (admins : list jsstring) :
  notificationsOf (concat (map (notifyTrace env n) admins))
  = map (notification env n) admins.
Proof.
  induction admins as [|a rest IH]; [reflexivity|].
  simpl. unfold notificationsOf in *. rewrite List.filter_app, IH.
  unfold notifyTrace, notification.
  destruct (send_failure env (Admin a) (NewBookRequest n)); reflexivity.
Qed.

Lemma notifyTrace_logged (env : Env) (n : Notice) (admins : list jsstring)
  (a : jsstring) (e : Error) :
  In a admins -> send_failure env (Admin a) (NewBookRequest n) = Some e ->
  In (Log (NotifyAdminFailed a e)) (concat (map (notifyTrace env n) admins)).
Proof.
  intros Hin Hf. apply in_concat. exists (notifyTrace env n a). split.
  - apply in_map. exact Hin.
  - unfold notifyTrace. rewrite Hf. right. left. reflexivity.
Qed.

(** C8, amended: a query without a match adds exactly one record to the
    ledger.  When the ledger is written and the answer to the user is
    delivered, one notification is attempted for every entry of the
    roster, in order, whatever the outcome of the others; each failed
    delivery is logged after its attempt and the loop goes on. *)
Theorem unanswered_query_ledger_and_fanout
  (ADMIN_IDS : list jsstring)
  (Fuse_search : list BookRecord -> jsstring -> list (BookRecord * Q))
  (env : Env) (msg : Message) (w : World) (txt : jsstring) :
  plainText ADMIN_IDS w msg txt -> admitted env w msg ->
  safeText (Some (trim txt)) <> [] ->
  Fuse_search (fuse w) (safeText (Some (trim txt))) = [] ->
  let query := safeText (Some (trim txt)) in
  let o := onMessage ADMIN_IDS Fuse_search env msg w in
  requests (final o) = requests w ++ [requestOf env msg query]
  /\ (save_failure env = None ->
      send_failure env (Chat (chat_id msg)) (noMatchReply ADMIN_IDS msg query)
      = None ->
      notificationsOf (effects o)
      = map (notification env (noticeOf msg query)) ADMIN_IDS
      /\ effects o
         = SaveDB None
           :: SendMessage (Chat (chat_id msg))
                (noMatchReply ADMIN_IDS msg query) None
           :: concat (map (notifyTrace env (noticeOf msg query)) ADMIN_IDS)
      /\ (forall a e,
             In a ADMIN_IDS ->
             send_failure env (Admin a) (NewBookRequest (noticeOf msg query))
             = Some e ->
             In (Log (NotifyAdminFailed a e)) (effects o))).
Proof.
  intros Hplain Hadm Hq Hnone. simpl.
  rewrite onMessage_admitted by (assumption || apply Hplain).
  unfold tryCatch. rewrite (dispatch_plainText _ _ _ _ txt) by exact Hplain.
  rewrite handleQuery_no_match by assumption. simpl.
  destruct (save_failure env) as [es|]; simpl.
  { split; [reflexivity | discriminate]. }
  destruct (send_failure env (Chat (chat_id msg)) _) as [eu|]; simpl.
  { split; [reflexivity | discriminate]. }
  split; [reflexivity|]. intros _ _. split; [|split].
  - apply notificationsOf_notifyTrace.
  - reflexivity.
  - intros a e Hin Hf. right. right. apply notifyTrace_logged; assumption.
Qed.

Lemma unanswered_query_witness :
  notificationsOf
    (effects (onMessage roster noMatches (adminDown 5000)
                (userMsg (js "unknown book")) loadedWorld))
  = [ SendMessage (Admin (js "42"))
        (NewBookRequest (noticeOf (userMsg (js "unknown book"))
                                  (js "unknown book")))
        (Some boom);
      SendMessage (Admin (js "77"))
        (NewBookRequest (noticeOf (userMsg (js "unknown book"))
                                  (js "unknown book")))
        None ].
Proof.
  destruct (unanswered_query_ledger_and_fanout roster noMatches
              (adminDown 5000) (userMsg (js "unknown book")) loadedWorld
              (js "unknown book")) as [_ Hfan].
  - repeat split; try (vm_compute; reflexivity); try discriminate.
    left. reflexivity.
  - vm_compute. reflexivity.
  - discriminate.
  - reflexivity.
  - destruct Hfan as (Hn & _ & _); [reflexivity | reflexivity |].
    rewrite Hn. reflexivity.
Defined.

(** C8 as stated fails: when the answer to the user cannot be
    delivered, the query without a match is recorded in the ledger and
    no administrator of the roster is notified. *)
Lemma unanswered_query_without_fanout :
  let msg := userMsg (js "unknown book") in
  let o := onMessage roster noMatches (chatDown 5000) msg loadedWorld in
  plainText roster loadedWorld msg (js "unknown book")
  /\ admitted (chatDown 5000) loadedWorld msg
  /\ noMatches (fuse loadedWorld) (safeText (Some (trim (js "unknown book"))))
     = []
  /\ length (requests (final o)) = 1%nat
  /\ length roster = 2%nat
  /\ notificationsOf (effects o) = []
  /\ effects o
     = [ SaveDB None;
         SendMessage (Chat 9) (NoMatchUser (js "unknown book")) (Some boom);
         Log (HandlerError boom) ].
Proof.
  simpl. repeat split; try (vm_compute; reflexivity); try discriminate.
  left. reflexivity.
Qed.

(** ** The matcher of the specification *)

Section MatcherFacts.

Variable score : jsstring -> BookRecord -> Q.

Let byScore (a b : BookRecord * Q) : Prop := (snd a <= snd b)%Q.

Lemma below_lt (p : BookRecord * Q) :
  Matcher.below p = true <-> (snd p < Matcher.THRESHOLD)%Q.
Proof.
  unfold Matcher.below. rewrite negb_true_iff. split.
  - intros H. apply Qnot_le_lt. intros Hle.
    apply Qle_bool_iff in Hle. congruence.
  - intros H. destruct (Qle_bool Matcher.THRESHOLD (snd p)) eqn:E; [|reflexivity].
    apply Qle_bool_iff in E. exfalso. exact (Qlt_not_le _ _ H E).
Qed.

Lemma insertByScore_In (x y : BookRecord * Q) (l : list (BookRecord * Q)) :
  In y (Matcher.insertByScore x l) <-> y = x \/ In y l.
Proof.
  induction l as [|z l IH]; simpl.
  - intuition congruence.
  - destruct (Qle_bool (snd x) (snd z)); simpl; [intuition congruence|].
    rewrite IH. intuition congruence.
Qed.

Lemma sortByScore_In (y : BookRecord * Q) (l : list (BookRecord * Q)) :
  In y (Matcher.sortByScore l) <-> In y l.
Proof.
  induction l as [|x l IH]; simpl; [reflexivity|].
  rewrite insertByScore_In, IH. intuition congruence.
Qed.

Lemma insertByScore_sorted (x : BookRecord * Q) (l : list (BookRecord * Q)) :
  StronglySorted byScore l -> StronglySorted byScore (Matcher.insertByScore x l).
Proof.
  induction 1 as [|z l Hl IH Hz]; simpl.
  - repeat constructor.
  - destruct (Qle_bool (snd x) (snd z)) eqn:E.
    + apply Qle_bool_iff in E. constructor; [constructor; assumption|].
      constructor; [exact E|].
      eapply List.Forall_impl; [|exact Hz]. intros a Ha. unfold byScore in *.
      eapply Qle_trans; eassumption.
    + constructor; [exact IH|]. apply List.Forall_forall. intros a Ha.
      apply insertByScore_In in Ha as [->|Ha].
      * unfold byScore. apply Qlt_le_weak, Qnot_le_lt. intros Hle.
        apply Qle_bool_iff in Hle. congruence.
      * eapply List.Forall_forall in Hz; eassumption.
Qed.

Lemma sortByScore_sorted (l : list (BookRecord * Q)) :
  StronglySorted byScore (Matcher.sortByScore l).
Proof.
  induction l as [|x l IH]; simpl; [constructor|].
  apply insertByScore_sorted, IH.
Qed.

(** An entry that scores no more than those after it and strictly less
    than those before it comes first: the sort is stable. *)
Lemma sortByScore_first (pre post : list (BookRecord * Q)) (x : BookRecord * Q) :
  (forall y, In y pre -> (snd x < snd y)%Q) ->
  (forall y, In y post -> (snd x <= snd y)%Q) ->
  exists rest, Matcher.sortByScore (pre ++ x :: post) = x :: rest.
Proof.
  intros Hpre Hpost. induction pre as [|p pre IH]; simpl.
  - destruct (Matcher.sortByScore post) as [|z l] eqn:E; simpl.
    + eexists. reflexivity.
    + assert (Hz : (snd x <= snd z)%Q).
      { apply Hpost, sortByScore_In. rewrite E. left. reflexivity. }
      apply Qle_bool_iff in Hz. rewrite Hz. eexists. reflexivity.
  - destruct IH as [rest Hrest].
    { intros y Hy. apply Hpre. right. exact Hy. }
    rewrite Hrest. simpl.
    assert (Hp : Qle_bool (snd p) (snd x) = false).
    { destruct (Qle_bool (snd p) (snd x)) eqn:E; [|reflexivity].
      apply Qle_bool_iff in E. exfalso.
      exact (Qlt_not_le _ _ (Hpre p (or_introl eq_refl)) E). }
    rewrite Hp. eexists. reflexivity.
Qed.

Lemma search_In (q : jsstring) (gen : list BookRecord) (p : BookRecord * Q) :
  In p (Matcher.search score q gen) <->
  In (fst p) gen /\ snd p = score q (fst p) /\ (snd p < Matcher.THRESHOLD)%Q.
Proof.
  unfold Matcher.search. rewrite sortByScore_In, List.filter_In, List.in_map_iff.
  rewrite below_lt. split.
  - intros [(b & <- & Hb) Hlt]. simpl in *. auto.
  - intros (Hin & Hs & Hlt). split; [|exact Hlt].
    exists (fst p). split; [|exact Hin]. destruct p; simpl in *. congruence.
Qed.

Let scores (s : Q) (p : BookRecord * Q) : bool := Qeq_bool (snd p) s.

(** Inserting an entry moves it only past entries that score strictly
    less, so the entries of one score keep their order. *)
Lemma insertByScore_stable (s : Q) (x : BookRecord * Q)
  (l : list (BookRecord * Q)) :
  List.filter (scores s) (Matcher.insertByScore x l)
  = List.filter (scores s) (x :: l).
Proof.
  induction l as [|y l IH]; [reflexivity|].
  simpl Matcher.insertByScore.
  destruct (Qle_bool (snd x) (snd y)) eqn:E; [reflexivity|].
  change (List.filter (scores s) (y :: Matcher.insertByScore x l))
    with (if scores s y
          then y :: List.filter (scores s) (Matcher.insertByScore x l)
          else List.filter (scores s) (Matcher.insertByScore x l)).
  rewrite IH. simpl.
  destruct (scores s x) eqn:Ex, (scores s y) eqn:Ey; try reflexivity.
  exfalso. unfold scores in Ex, Ey.
  apply Qeq_bool_iff in Ex, Ey.
  assert (Hle : (snd x <= snd y)%Q) by (rewrite Ex, Ey; apply Qle_refl).
  apply Qle_bool_iff in Hle. congruence.
Qed.

Lemma sortByScore_stable (s : Q) (l : list (BookRecord * Q)) :
  List.filter (scores s) (Matcher.sortByScore l) = List.filter (scores s) l.
Proof.
  induction l as [|x l IH]; [reflexivity|].
  simpl Matcher.sortByScore. rewrite insertByScore_stable. simpl.
  rewrite IH. reflexivity.
Qed.

(** The results of one score are the records of the generation of that
    score, in the order of the generation. *)
Lemma search_stable (q : jsstring) (gen : list BookRecord) (s : Q) :
  map fst (List.filter (fun p => Qeq_bool (snd p) s)
             (Matcher.search score q gen))
  = List.filter (fun b => Qeq_bool (score q b) s
                          && negb (Qle_bool (35 # 100) (score q b))) gen.
Proof.
  unfold Matcher.search.
  change (fun p : BookRecord * Q => Qeq_bool (snd p) s) with (scores s).
  rewrite sortByScore_stable.
  induction gen as [|b gen IH]; [reflexivity|]. simpl.
  unfold Matcher.below at 1. simpl. unfold Matcher.THRESHOLD.
  destruct (Qle_bool (35 # 100) (score q b)); simpl.
  - rewrite andb_false_r. exact IH.
  - rewrite andb_true_r. unfold scores at 1. simpl.
    destruct (Qeq_bool (score q b) s); simpl; [f_equal|]; exact IH.
Qed.

(** The first result is the first record of the generation among those
    of the lowest score, when that score is below the threshold. *)
Lemma search_first (q : jsstring) (pre post : list BookRecord)
  (r : BookRecord) :
  (score q r < 35 # 100)%Q ->
  (forall b, In b pre -> (score q r < score q b)%Q) ->
  (forall b, In b post -> (score q r <= score q b)%Q) ->
  firstItem (Matcher.search score q (pre ++ r :: post)) = Some r.
Proof.
  intros Hlt Hpre Hpost.
  unfold Matcher.search. rewrite map_app, List.filter_app. simpl.
  assert (Hbelow : Matcher.below (r, score q r) = true).
  { apply below_lt. exact Hlt. }
  rewrite Hbelow.
  destruct (sortByScore_first
              (List.filter Matcher.below (map (fun b => (b, score q b)) pre))
              (List.filter Matcher.below (map (fun b => (b, score q b)) post))
              (r, score q r)) as [rest Hrest].
  - intros y Hy. apply List.filter_In in Hy as [Hy _].
    apply List.in_map_iff in Hy as (b & <- & Hb). simpl. apply Hpre, Hb.
  - intros y Hy. apply List.filter_In in Hy as [Hy _].
    apply List.in_map_iff in Hy as (b & <- & Hb). simpl. apply Hpost, Hb.
  - rewrite Hrest. reflexivity.
Qed.

End MatcherFacts.

(** C2, amended: over the matcher of the specification and for every
    scoring, the results are exactly the records of the generation whose
    score is below the threshold 0.35, each with its score; they are in
    non-decreasing order of score, and the results of one score are in
    the order of the generation; without a record below the threshold
    the result is empty; the first result is the first record of the
    generation among those of the lowest score.  A query equal to the
    title of a record returns that record first under conditions the
    claim leaves out: for a scoring that is never negative and is 0 on
    an exact title, it does when no earlier record of the generation
    scores 0 as well. *)
Theorem search_ranked (score : jsstring -> BookRecord -> Q) (q : jsstring)
  (gen : list BookRecord) :
  (forall p, In p (Matcher.search score q gen) <->
             In (fst p) gen /\ snd p = score q (fst p)
             /\ (snd p < 35 # 100)%Q)
  /\ StronglySorted (fun a b => (snd a <= snd b)%Q) (Matcher.search score q gen)
  /\ (forall s,
         map fst (List.filter (fun p => Qeq_bool (snd p) s)
                    (Matcher.search score q gen))
         = List.filter (fun b => Qeq_bool (score q b) s
                                 && negb (Qle_bool (35 # 100) (score q b)))
                       gen)
  /\ ((forall b, In b gen -> ~ (score q b < 35 # 100)%Q) ->
      Matcher.search score q gen = [])
  /\ (forall pre r post,
         gen = pre ++ r :: post ->
         (score q r < 35 # 100)%Q ->
         (forall b, In b pre -> (score q r < score q b)%Q) ->
         (forall b, In b post -> (score q r <= score q b)%Q) ->
         firstItem (Matcher.search score q gen) = Some r)
  /\ (forall pre r post,
         (forall b, (0 <= score q b)%Q) ->
         (forall b, title b = q -> (score q b == 0)%Q) ->
         gen = pre ++ r :: post -> title r = q ->
         (forall b, In b pre -> ~ (score q b == 0)%Q) ->
         firstItem (Matcher.search score q gen) = Some r).
Proof.
  split; [|split; [|split; [|split; [|split]]]].
  - intros p. apply search_In.
  - apply sortByScore_sorted.
  - intros s. apply search_stable.
  - intros Hnone. destruct (Matcher.search score q gen) as [|p l] eqn:E;
      [reflexivity|].
    assert (Hp : In p (Matcher.search score q gen)) by (rewrite E; left; reflexivity).
    apply search_In in Hp as (Hin & Hs & Hlt). exfalso.
    apply (Hnone (fst p) Hin). rewrite <- Hs. exact Hlt.
  - intros pre r post -> Hlt Hpre Hpost. apply search_first; assumption.
  - intros pre r post Hnn Hexact -> Hr Hpre.
    pose proof (Hexact r Hr) as Hzero. apply search_first.
    + rewrite Hzero. reflexivity.
    + intros b Hb. rewrite Hzero.
      destruct (Qle_lt_or_eq _ _ (Hnn b)) as [Hlt|Heq]; [exact Hlt|].
      exfalso. apply (Hpre b Hb). symmetry. exact Heq.
    + intros b _. rewrite Hzero. apply Hnn.
Qed.

Lemma search_ranked_witness :
  firstItem (Matcher.search Matcher.exactTitle (js "Other Book")
               (parseRows demoSheet))
  = Some (mkBook (js "4") (js "Other Book") [] (js "BQAC4")).
Proof.
  apply (proj2 (proj2 (proj2 (proj2 (proj2
           (search_ranked Matcher.exactTitle (js "Other Book")
              (parseRows demoSheet))))))
           [mkBook (js "1") (js "Great Book") (js "Jane Doe") (js "BQAC 1")]
           (mkBook (js "4") (js "Other Book") [] (js "BQAC4")) []).
  - intros b. unfold Matcher.exactTitle.
    destruct (eqb_str (title b) (js "Other Book")); discriminate.
  - intros b Hb. unfold Matcher.exactTitle, eqb_str.
    rewrite bool_decide_eq_true_2 by exact Hb. reflexivity.
  - vm_compute. reflexivity.
  - reflexivity.
  - intros b [<-|[]]. vm_compute. discriminate.
Defined.

(** C2 as stated fails: the loader keeps two rows with one title as two
    records, and no search whatever returns each of them first for the
    query equal to their title; the matcher of the specification returns
    the earlier one first. *)
Lemma exact_title_not_always_first :
  parseRows twinSheet = [twin1; twin2]
  /\ title twin1 = js "Great Book" /\ title twin2 = js "Great Book"
  /\ (forall search : jsstring -> list BookRecord -> list (BookRecord * Q),
         ~ (forall r, In r [twin1; twin2] -> title r = js "Great Book" ->
                     firstItem (search (js "Great Book") [twin1; twin2])
                     = Some r))
  /\ firstItem (Matcher.search Matcher.exactTitle (js "Great Book")
                  [twin1; twin2]) = Some twin1.
Proof.
  split; [vm_compute; reflexivity|].
  split; [reflexivity|]. split; [reflexivity|]. split.
  - intros search H.
    assert (H1 := H twin1 (or_introl eq_refl) eq_refl).
    assert (H2 := H twin2 (or_intror (or_introl eq_refl)) eq_refl).
    rewrite H1 in H2. discriminate H2.
  - vm_compute. reflexivity.
Qed.

(** ** Invariants: composition *)

Lemma trackUserDownload_eq (env : Env) (u : jsstring) (w : World) :
  trackUserDownload env u w
  = let w1 := set_userStats
                (<[u := mkStat (S (downloadsOf w u)) (Some (now env))]>
                   (userStats w)) w in
    match save_failure env with
    | Some e => mkOutcome w1 [SaveDB (Some e)] (inl e)
    | None => mkOutcome w1 [SaveDB None] (inr (S (downloadsOf w u)))
    end.
Proof.
  unfold trackUserDownload, saveDB, downloadsOf. run.
  destruct (save_failure env); reflexivity.
Qed.

Opaque trackUserDownload.

Section Invariants.

Variable I : World -> Prop.

Lemma invariant_ret {A} (a : A) : invariant I (mret a : M A).
Proof. intros w H. exact H. Qed.

Lemma invariant_throw {A} (e : Error) : invariant I (throw e : M A).
Proof. intros w H. exact H. Qed.

Lemma invariant_get : invariant I get.
Proof. intros w H. exact H. Qed.

Lemma invariant_emit (e : Effect) : invariant I (emit e).
Proof. intros w H. exact H. Qed.

Lemma invariant_modify (f : World -> World) :
  (forall w, I w -> I (f w)) -> invariant I (modify f).
Proof. intros Hf w H. apply Hf, H. Qed.

Lemma invariant_bind {A B} (m : M A) (k : A -> M B) :
  invariant I m -> (forall a, invariant I (k a)) -> invariant I (m ≫= k).
Proof.
  intros Hm Hk w H. unfold mbind, M_bind, bind.
  destruct (value (m w)) as [e|a] eqn:E; simpl.
  - apply Hm, H.
  - apply Hk, Hm, H.
Qed.

Lemma invariant_tryCatch {A} (m : M A) (h : Error -> M A) :
  invariant I m -> (forall e, invariant I (h e)) -> invariant I (tryCatch m h).
Proof.
  intros Hm Hh w H. unfold tryCatch.
  destruct (value (m w)) as [e|a] eqn:E; simpl.
  - apply Hh, Hm, H.
  - apply Hm, H.
Qed.

Lemma invariant_await (e : Effect) (f : option Error) : invariant I (await e f).
Proof.
  unfold await. apply invariant_bind; [apply invariant_emit|].
  intros _. destruct f; [apply invariant_throw | apply (invariant_ret tt)].
Qed.

Lemma invariant_returnSend (env : Env) (to : Recipient) (t : Text) :
  invariant I (returnSend env to t).
Proof. intros w H. rewrite returnSend_eq. exact H. Qed.

Lemma invariant_notifyLoop (env : Env) (admins : list jsstring) (n : Notice) :
  invariant I (notifyLoop env admins n).
Proof. intros w H. rewrite notifyLoop_eq. exact H. Qed.

Lemma invariant_rateLimit (env : Env) (u : jsstring) :
  (forall w, I w ->
     I (set_lastRequestAt (<[u := now env]> (lastRequestAt w)) w)) ->
  invariant I (rateLimit env u).
Proof.
  intros Hs w H. rewrite rateLimit_eq.
  destruct (now env - default 0 (lastRequestAt w !! u) <? RATE_WINDOW_MS)%Z;
    simpl; [exact H | apply Hs, H].
Qed.

Lemma invariant_appendRowToSheet (env : Env) (i t a f : jsstring) :
  (forall w r, I w -> I (set_sheet (sheet w ++ [r]) w)) ->
  invariant I (appendRowToSheet env i t a f).
Proof.
  intros Hs w H. destruct (append_failure env) as [e|] eqn:E.
  - rewrite (appendRowToSheet_fail _ _ _ _ _ _ e E). exact H.
  - rewrite (appendRowToSheet_ok _ _ _ _ _ _ E). apply Hs, H.
Qed.

Lemma invariant_loadSheet (env : Env) :
  (forall w, I w ->
     I (set_fuse (parseRows (sheet w)) (set_books (parseRows (sheet w)) w))) ->
  invariant I (loadSheet env).
Proof.
  intros Hs w H. destruct (get_failure env) as [e|] eqn:E.
  - rewrite (loadSheet_fail _ _ e E). exact H.
  - rewrite (loadSheet_ok _ _ E). apply Hs, H.
Qed.

Ltac keep :=
  repeat first
    [ apply invariant_notifyLoop
    | apply invariant_returnSend
    | apply invariant_get
    | apply invariant_throw
    | apply (invariant_ret tt)
    | apply invariant_ret
    | apply invariant_await
    | apply invariant_emit
    | apply invariant_bind; [|intros ?]
    | apply invariant_tryCatch; [|intros ?] ].

Variable ADMIN_IDS : list jsstring.
Variable Fuse_search : list BookRecord -> jsstring -> list (BookRecord * Q).
Variable env : Env.
Variable msg : Message.

Hypothesis Hres : respects ADMIN_IDS env msg I.

Lemma invariant_handleUpload (doc : Document) :
  isAdmin ADMIN_IDS (from_id msg) = true ->
  invariant I (handleUpload env msg doc).
Proof.
  intros Ha. unfold handleUpload.
  destruct (negb (isValidDocumentType (orEmpty (d_mime_type doc)))); [keep|].
  destruct (truthy (safeText (Some (orEmpty (caption msg))))).
  - destruct (parseMeta (safeText (Some (orEmpty (caption msg)))))
      as [[i t] a].
    destruct (negb (truthy t) || negb (truthy (safeFileId (Some (d_file_id doc)))));
      [keep|].
    apply invariant_bind; [keep|]. intros w.
    destruct (findByFileId (books w) (safeFileId (Some (d_file_id doc))));
      [keep|].
    apply invariant_tryCatch; [|intros e; keep].
    apply invariant_bind.
    { apply invariant_appendRowToSheet, (respects_append _ _ _ _ Hres Ha). }
    intros _. apply invariant_bind.
    { apply invariant_loadSheet, (respects_load _ _ _ _ Hres Ha). }
    intros _. keep.
  - apply invariant_bind; [|intros _; keep].
    apply invariant_modify. intros w. apply (respects_session _ _ _ _ Hres Ha).
Qed.

Lemma invariant_handleReply (sess : Session) :
  isAdmin ADMIN_IDS (from_id msg) = true ->
  invariant I (handleReply env msg sess).
Proof.
  intros Ha. unfold handleReply.
  destruct (parseMeta (safeText (Some (orEmpty (text msg))))) as [[i t] a].
  destruct (negb (truthy t) || negb (truthy (s_file_id sess))); [keep|].
  apply invariant_tryCatch; [|intros e; keep].
  apply invariant_bind.
  { apply invariant_appendRowToSheet, (respects_append _ _ _ _ Hres Ha). }
  intros _. apply invariant_bind.
  { apply invariant_modify. intros w. apply (respects_consume _ _ _ _ Hres Ha). }
  intros _. apply invariant_bind.
  { apply invariant_loadSheet, (respects_load _ _ _ _ Hres Ha). }
  intros _. keep.
Qed.

Lemma invariant_handleQuery (txt : jsstring) :
  invariant I (handleQuery ADMIN_IDS Fuse_search env msg txt).
Proof.
  unfold handleQuery.
  destruct (negb (truthy (safeText (Some (trim txt))))); [keep|].
  apply invariant_bind; [keep|]. intros w.
  destruct (Fuse_search (fuse w) (safeText (Some (trim txt))))
    as [|[best sc] rest].
  - unfold saveDB, awaitSend, notifyAdminsAboutRequest.
    apply invariant_bind; [|intros _; keep].
    apply invariant_modify. intros w'. apply (respects_request _ _ _ _ Hres).
  - unfold saveDB, awaitSend, notifyAdminsAboutRequest.
    apply invariant_tryCatch; [|intros e; keep].
    apply invariant_bind; [keep|]. intros _.
    apply invariant_bind; [keep|]. intros _.
    destruct (isAdmin ADMIN_IDS (from_id msg)) eqn:Ha; simpl; [keep|].
    apply invariant_bind.
    + intros w' Hw'. rewrite trackUserDownload_eq.
      destruct (save_failure env); simpl;
        apply (respects_download _ _ _ _ Hres Ha), Hw'.
    + intros c. destruct (getUserMilestoneMessage c); keep.
Qed.

Lemma invariant_handleText :
  invariant I (handleText ADMIN_IDS Fuse_search env msg).
Proof.
  unfold handleText. destruct (text msg) as [txt|]; [|keep].
  destruct (negb (truthy txt)); [keep|].
  destruct (startsWith txt SLASH); [keep|].
  apply invariant_handleQuery.
Qed.

Lemma invariant_afterUpload :
  invariant I (afterUpload ADMIN_IDS Fuse_search env msg).
Proof.
  unfold afterUpload. apply invariant_bind; [keep|]. intros w.
  destruct (waitingForMeta w !! chat_id msg) as [sess|];
    [|apply invariant_handleText].
  destruct (isAdmin ADMIN_IDS (from_id msg)) eqn:Ha.
  - destruct (reply_to_message msg && true && truthy (orEmpty (text msg)));
      [apply invariant_handleReply, Ha | apply invariant_handleText].
  - rewrite andb_false_r. simpl. apply invariant_handleText.
Qed.

Lemma invariant_dispatch :
  invariant I (dispatch ADMIN_IDS Fuse_search env msg).
Proof.
  unfold dispatch. destruct (document msg) as [doc|];
    [|apply invariant_afterUpload].
  destruct (isAdmin ADMIN_IDS (from_id msg)) eqn:Ha;
    [apply invariant_handleUpload, Ha | apply invariant_afterUpload].
Qed.

(** Every property that survives the assignments of the handler is
    kept by the handler, whatever the outside calls answer. *)
Lemma invariant_onMessage :
  invariant I (onMessage ADMIN_IDS Fuse_search env msg).
Proof.
  unfold onMessage. apply invariant_tryCatch; [|intros e; keep].
  destruct (negb (chat_private msg)); [keep|].
  apply invariant_bind.
  { apply invariant_rateLimit, (respects_stamp _ _ _ _ Hres). }
  intros allowed. destruct (negb allowed); [keep|]. apply invariant_dispatch.
Qed.

End Invariants.

(** ** What the message handler keeps *)

Lemma preserves_rateLimit (env : Env) (u : jsstring) :
  preserves (rateLimit env u).
Proof.
  intros w. rewrite rateLimit_eq.
  destruct (now env - default 0 (lastRequestAt w !! u) <? RATE_WINDOW_MS)%Z;
    repeat split.
Qed.

Lemma preserves_onMessage_non_admin (ADMIN_IDS : list jsstring)
  (Fuse_search : list BookRecord -> jsstring -> list (BookRecord * Q))
  (env : Env) (msg : Message) :
  isAdmin ADMIN_IDS (from_id msg) = false ->
  preserves (onMessage ADMIN_IDS Fuse_search env msg).
Proof.
  intros Ha. unfold onMessage. apply preserves_tryCatch.
  2:{ intros e. apply preserves_emit. reflexivity. }
  destruct (negb (chat_private msg)); [apply (preserves_ret tt)|].
  apply preserves_bind; [apply preserves_rateLimit|]. intros allowed.
  destruct (negb allowed); [apply preserves_returnSend|].
  assert (Hrest : preserves (afterUpload ADMIN_IDS Fuse_search env msg)).
  { unfold afterUpload. apply preserves_bind; [apply preserves_get|].
    intros w. rewrite Ha, andb_false_r. simpl.
    destruct (waitingForMeta w !! chat_id msg); apply preserves_handleText. }
  unfold dispatch. rewrite Ha. destruct (document msg); exact Hrest.
Qed.

(** X1: whatever a sender who is not an administrator sends, and
    whatever the outside calls answer, the handler appends no row and
    leaves the sessions, the sheet, the generation and the collection of
    the search as they were. *)
Theorem non_admin_cannot_change_catalog
  (ADMIN_IDS : list jsstring)
  (Fuse_search : list BookRecord -> jsstring -> list (BookRecord * Q))
  (env : Env) (msg : Message) (w : World) :
  isAdmin ADMIN_IDS (from_id msg) = false ->
  let o := onMessage ADMIN_IDS Fuse_search env msg w in
  appendsOf (effects o) = []
  /\ waitingForMeta (final o) = waitingForMeta w
  /\ sheet (final o) = sheet w
  /\ books (final o) = books w
  /\ fuse (final o) = fuse w.
Proof.
  intros Ha. exact (preserves_onMessage_non_admin _ Fuse_search env msg Ha w).
Qed.

Lemma non_admin_cannot_change_catalog_witness :
  sheet (final (onMessage roster firstRecord (quietEnv 5000)
                  (userMsg (js "007|Sneaky|Me")) (pendingWorld (js "BQAC9"))))
  = demoSheet.
Proof.
  destruct (non_admin_cannot_change_catalog roster firstRecord (quietEnv 5000)
              (userMsg (js "007|Sneaky|Me")) (pendingWorld (js "BQAC9")))
    as (_ & _ & Hs & _).
  - vm_compute. reflexivity.
  - rewrite Hs. reflexivity.
Defined.

(** X2: a document of an administrator whose type is not in the
    allow-list is answered with the list of allowed types and nothing
    else, with or without caption: no session, no append, the state is
    as the limiter left it. *)
Theorem unsupported_type_rejected
  (ADMIN_IDS : list jsstring)
  (Fuse_search : list BookRecord -> jsstring -> list (BookRecord * Q))
  (env : Env) (msg : Message) (w : World) (doc : Document) :
  chat_private msg = true -> admitted env w msg ->
  document msg = Some doc -> isAdmin ADMIN_IDS (from_id msg) = true ->
  isValidDocumentType (orEmpty (d_mime_type doc)) = false ->
  onMessage ADMIN_IDS Fuse_search env msg w
  = mkOutcome (stamped env w msg)
      (sent env (Chat (chat_id msg)) (UnsupportedType (orEmpty (d_mime_type doc))))
      (inr tt).
Proof.
  intros Hp Hadm Hd Ha Hm. rewrite onMessage_admitted by assumption.
  apply tryCatch_ok. rewrite (dispatch_upload _ _ _ _ doc) by assumption.
  unfold handleUpload. rewrite Hm. simpl. apply returnSend_eq.
Qed.

Lemma unsupported_type_rejected_witness :
  onMessage roster noMatches (quietEnv 5000)
    (pngMsg (Some (js "1|Picture|Me"))) loadedWorld
  = mkOutcome (stamped (quietEnv 5000) loadedWorld (pngMsg (Some (js "1|Picture|Me"))))
      [SendMessage (Chat 7) (UnsupportedType (js "image/png")) None] (inr tt).
Proof.
  rewrite (unsupported_type_rejected roster noMatches (quietEnv 5000)
             (pngMsg (Some (js "1|Picture|Me"))) loadedWorld
             (mkDocument (js "BQAC9") (Some (js "image/png")) None));
    reflexivity.
Defined.

Lemma parseRows_valid (rows : list Row) : Forall validRecord (parseRows rows).
Proof.
  rewrite parseRows_specLoad. unfold specLoad. apply List.Forall_forall.
  intros b Hb. apply list_elem_of_In in Hb.
  apply list_elem_of_omap in Hb as (r & _ & Hr).
  apply specRecord_Some in Hr as (-> & Ht & Hf). unfold validRecord. simpl.
  repeat split;
    first [ exact Ht | exact Hf
          | apply (safeText_noControl (Some _))
          | apply (safeText_trimmed (Some _))
          | apply (safeFileId_trimmed (Some _)) ].
Qed.

(** X3: the collection the search runs on is the generation.  A
    successful [loadSheet] makes them equal, and the message handler
    keeps them equal, whatever the message and the outside calls. *)
Theorem search_collection_is_generation
  (ADMIN_IDS : list jsstring)
  (Fuse_search : list BookRecord -> jsstring -> list (BookRecord * Q))
  (env : Env) (msg : Message) (w : World) :
  (get_failure env = None ->
   fuse (final (loadSheet env w)) = books (final (loadSheet env w)))
  /\ (fuse w = books w ->
      fuse (final (onMessage ADMIN_IDS Fuse_search env msg w))
      = books (final (onMessage ADMIN_IDS Fuse_search env msg w))).
Proof.
  split.
  - intros Hget. rewrite loadSheet_ok by exact Hget. reflexivity.
  - apply (invariant_onMessage (fun w => fuse w = books w)).
    constructor; simpl; intros; try assumption. reflexivity.
Qed.

Lemma search_collection_witness :
  fuse (final (onMessage roster noMatches (quietEnv 5000)
                 (replyMsg (js "007|Great Book|Jane Doe"))
                 (pendingWorld (js "BQAC9"))))
  = books (final (onMessage roster noMatches (quietEnv 5000)
                    (replyMsg (js "007|Great Book|Jane Doe"))
                    (pendingWorld (js "BQAC9")))).
Proof.
  apply (proj2 (search_collection_is_generation roster noMatches
                  (quietEnv 5000) (replyMsg (js "007|Great Book|Jane Doe"))
                  (pendingWorld (js "BQAC9")))).
  reflexivity.
Defined.

(** X4: every record [loadSheet] builds has a non-empty title and
    reference, descriptive fields without control characters and no
    field with surrounding white space; if the generation is made of
    such records before a message, it is after it. *)
Theorem generation_stays_valid
  (ADMIN_IDS : list jsstring)
  (Fuse_search : list BookRecord -> jsstring -> list (BookRecord * Q))
  (env : Env) (msg : Message) (w : World) :
  Forall validRecord (parseRows (sheet w))
  /\ (Forall validRecord (books w) ->
      Forall validRecord
        (books (final (onMessage ADMIN_IDS Fuse_search env msg w)))).
Proof.
  split; [apply parseRows_valid|].
  apply (invariant_onMessage (fun w => Forall validRecord (books w))).
  constructor; simpl; intros; try assumption. apply parseRows_valid.
Qed.

Lemma generation_stays_valid_witness :
  Forall validRecord (books loadedWorld)
  /\ Forall validRecord
       (books (final (onMessage roster noMatches (quietEnv 5000)
                        (uploadMsg (Some (js "|Great Book|"))) loadedWorld))).
Proof.
  assert (H : Forall validRecord (books loadedWorld)).
  { change (Forall validRecord (parseRows demoSheet)).
    apply parseRows_valid. }
  split; [exact H|].
  apply (proj2 (generation_stays_valid roster noMatches (quietEnv 5000)
                  (uploadMsg (Some (js "|Great Book|"))) loadedWorld)).
  exact H.
Defined.

(** X5: the limiter keeps one time per user.  Handling a message
    leaves the times of all other users as they are, and the time of the
    sender is either unchanged or the clock of this message. *)
Theorem limiter_touches_only_the_sender
  (ADMIN_IDS : list jsstring)
  (Fuse_search : list BookRecord -> jsstring -> list (BookRecord * Q))
  (env : Env) (msg : Message) (w : World) :
  let o := onMessage ADMIN_IDS Fuse_search env msg w in
  (lastRequestAt (final o) = lastRequestAt w
   \/ lastRequestAt (final o) = <[from_id msg := now env]> (lastRequestAt w))
  /\ (forall u, u <> from_id msg ->
                lastRequestAt (final o) !! u = lastRequestAt w !! u).
Proof.
  simpl.
  assert (H : lastRequestAt (final (onMessage ADMIN_IDS Fuse_search env msg w))
              = lastRequestAt w
              \/ lastRequestAt (final (onMessage ADMIN_IDS Fuse_search env msg w))
                 = <[from_id msg := now env]> (lastRequestAt w)).
  { apply (invariant_onMessage
             (fun w' => lastRequestAt w' = lastRequestAt w
                        \/ lastRequestAt w'
                           = <[from_id msg := now env]> (lastRequestAt w))
             ADMIN_IDS Fuse_search env msg); [|left; reflexivity].
    constructor; simpl; intros; try assumption.
    right. destruct H as [-> | ->]; [reflexivity | apply insert_insert_eq]. }
  split; [exact H|]. intros u Hu.
  destruct H as [-> | ->]; [reflexivity|].
  apply lookup_insert_ne. congruence.
Qed.

(** X6: handling a message of one conversation leaves the pending
    uploads of every other conversation as they are. *)
Theorem sessions_of_other_chats_untouched
  (ADMIN_IDS : list jsstring)
  (Fuse_search : list BookRecord -> jsstring -> list (BookRecord * Q))
  (env : Env) (msg : Message) (w : World) (c : Z) :
  c <> chat_id msg ->
  waitingForMeta (final (onMessage ADMIN_IDS Fuse_search env msg w)) !! c
  = waitingForMeta w !! c.
Proof.
  intros Hc.
  apply (invariant_onMessage
           (fun w' => waitingForMeta w' !! c = waitingForMeta w !! c)
           ADMIN_IDS Fuse_search env msg); [|reflexivity].
  constructor; simpl; intros; try assumption.
  - rewrite lookup_insert_ne by congruence. assumption.
  - rewrite lookup_delete_ne by congruence. assumption.
Qed.

Lemma sessions_of_other_chats_witness :
  waitingForMeta
    (final (onMessage roster noMatches (quietEnv 5000)
              (userMsg (js "unknown book")) (pendingWorld (js "BQAC9")))) !! 7%Z
  = Some (mkSession (js "BQAC9") (js "application/pdf")).
Proof.
  rewrite (sessions_of_other_chats_untouched roster noMatches (quietEnv 5000)
             (userMsg (js "unknown book")) (pendingWorld (js "BQAC9")) 7).
  - reflexivity.
  - discriminate.
Defined.

(** X7: the handler only ever adds to the sheet and to the ledger of
    requests: after a message the rows and the requests that were there
    are still there, in place, followed by what was added. *)
Theorem sheet_and_ledger_only_grow
  (ADMIN_IDS : list jsstring)
  (Fuse_search : list BookRecord -> jsstring -> list (BookRecord * Q))
  (env : Env) (msg : Message) (w : World) :
  let o := onMessage ADMIN_IDS Fuse_search env msg w in
  (exists rows, sheet (final o) = sheet w ++ rows)
  /\ (exists reqs, requests (final o) = requests w ++ reqs).
Proof.
  simpl. split.
  - apply (invariant_onMessage
             (fun w' => exists rows, sheet w' = sheet w ++ rows)
             ADMIN_IDS Fuse_search env msg);
      [|exists []; rewrite app_nil_r; reflexivity].
    constructor; simpl; intros; try assumption.
    destruct H0 as [rows ->]. exists (rows ++ [r]).
    rewrite app_assoc. reflexivity.
  - apply (invariant_onMessage
             (fun w' => exists reqs, requests w' = requests w ++ reqs)
             ADMIN_IDS Fuse_search env msg);
      [|exists []; rewrite app_nil_r; reflexivity].
    constructor; simpl; intros; try assumption.
    destruct H as [reqs ->]. exists (reqs ++ [r]).
    rewrite app_assoc. reflexivity.
Qed.

(** X8: downloads are counted for users only.  A message of an
    administrator changes no counter; a message of anyone leaves the
    counters of the other users as they are and never lowers a count. *)
Theorem download_counters
  (ADMIN_IDS : list jsstring)
  (Fuse_search : list BookRecord -> jsstring -> list (BookRecord * Q))
  (env : Env) (msg : Message) (w : World) :
  let o := onMessage ADMIN_IDS Fuse_search env msg w in
  (isAdmin ADMIN_IDS (from_id msg) = true -> userStats (final o) = userStats w)
  /\ (forall u, u <> from_id msg -> userStats (final o) !! u = userStats w !! u)
  /\ (forall u, (downloadsOf w u <= downloadsOf (final o) u)%nat).
Proof.
  simpl. split; [|split].
  - intros Ha.
    apply (invariant_onMessage (fun w' => userStats w' = userStats w)
             ADMIN_IDS Fuse_search env msg); [|reflexivity].
    constructor; simpl; intros; try assumption. congruence.
  - intros u Hu.
    apply (invariant_onMessage
             (fun w' => userStats w' !! u = userStats w !! u)
             ADMIN_IDS Fuse_search env msg); [|reflexivity].
    constructor; simpl; intros; try assumption.
    rewrite lookup_insert_ne by congruence. assumption.
  - intros u.
    apply (invariant_onMessage
             (fun w' => (downloadsOf w u <= downloadsOf w' u)%nat)
             ADMIN_IDS Fuse_search env msg); [|lia].
    constructor; simpl; intros; try assumption.
    unfold downloadsOf in *. simpl.
    destruct (decide (u = from_id msg)) as [->|Hne].
    + rewrite lookup_insert_eq. simpl. lia.
    + rewrite lookup_insert_ne by congruence. assumption.
Qed.

Lemma download_counters_witness :
  userStats (final (onMessage roster firstRecord (quietEnv 5000)
                      (replyMsg (js "Great Book")) loadedWorld))
  = userStats loadedWorld.
Proof.
  apply (proj1 (download_counters roster firstRecord (quietEnv 5000)
                  (replyMsg (js "Great Book")) loadedWorld)).
  vm_compute. reflexivity.
Defined.

(** ** Queries with a match *)

Arguments Nat.modulo : simpl never.

Section Found.

Variable ADMIN_IDS : list jsstring.
Variable Fuse_search : list BookRecord -> jsstring -> list (BookRecord * Q).
Variable env : Env.
Variable msg : Message.
Variable txt : jsstring.
Variable best : BookRecord.
Variable sc : Q.
Variable rest : list (BookRecord * Q).

Let query := safeText (Some (trim txt)).
Let chat := chat_id msg.
Let found := foundReply ADMIN_IDS env msg best.

Lemma handleQuery_delivered_user (w : World) :
  query <> [] -> Fuse_search (fuse w) query = (best, sc) :: rest ->
  isAdmin ADMIN_IDS (from_id msg) = false ->
  send_failure env (Chat chat) found = None ->
  document_failure env = None -> save_failure env = None ->
  handleQuery ADMIN_IDS Fuse_search env msg txt w
  = mkOutcome
      (set_userStats
         (<[from_id msg := mkStat (S (downloadsOf w (from_id msg)))
                                  (Some (now env))]> (userStats w)) w)
      [ SendMessage (Chat chat) found None;
        SendDocument chat (file_id best) None;
        SaveDB None;
        followUp env msg (S (downloadsOf w (from_id msg))) ]
      (inr tt).
Proof.
  intros Hq Hs Ha Hsend Hdoc Hsave. unfold handleQuery. fold query chat.
  apply truthy_true in Hq. rewrite Hq. run. rewrite Hs.
  unfold awaitSend. fold (foundReply ADMIN_IDS env msg best). fold found.
  run. rewrite Hsend, Hdoc. run. rewrite Ha. run.
  rewrite trackUserDownload_eq, Hsave. run. unfold followUp. fold chat.
  destruct (getUserMilestoneMessage (S (downloadsOf w (from_id msg))));
    reflexivity.
Qed.

Lemma handleQuery_delivered_admin (w : World) :
  query <> [] -> Fuse_search (fuse w) query = (best, sc) :: rest ->
  isAdmin ADMIN_IDS (from_id msg) = true ->
  send_failure env (Chat chat) found = None ->
  document_failure env = None ->
  handleQuery ADMIN_IDS Fuse_search env msg txt w
  = mkOutcome w
      [ SendMessage (Chat chat) found None;
        SendDocument chat (file_id best) None ]
      (inr tt).
Proof.
  intros Hq Hs Ha Hsend Hdoc. unfold handleQuery. fold query chat.
  apply truthy_true in Hq. rewrite Hq. run. rewrite Hs.
  unfold awaitSend. fold (foundReply ADMIN_IDS env msg best). fold found.
  run. rewrite Hsend, Hdoc. run. rewrite Ha. reflexivity.
Qed.

Lemma handleQuery_undelivered (w : World) (e : Error) :
  query <> [] -> Fuse_search (fuse w) query = (best, sc) :: rest ->
  send_failure env (Chat chat) found = None ->
  document_failure env = Some e ->
  let issue := send_failure env (Chat chat) (SendIssue (title best)) in
  handleQuery ADMIN_IDS Fuse_search env msg txt w
  = mkOutcome w
      (SendMessage (Chat chat) found None
       :: SendDocument chat (file_id best) (Some e)
       :: Log (SendDocumentFailed best e)
       :: SendMessage (Chat chat) (SendIssue (title best)) issue
       :: match issue with
          | None => concat (map (notifyTrace env (failureNotice env msg best e))
                                ADMIN_IDS)
          | Some _ => []
          end)
      match issue with
      | None => inr tt
      | Some e' => inl e'
      end.
Proof.
  intros Hq Hs Hsend Hdoc. unfold handleQuery. fold query chat.
  apply truthy_true in Hq. rewrite Hq. run. rewrite Hs.
  unfold awaitSend, notifyAdminsAboutRequest.
  fold (foundReply ADMIN_IDS env msg best). fold found.
  run. rewrite Hsend, Hdoc. run.
  destruct (send_failure env (Chat chat) (SendIssue (title best))) as [e'|];
    run; [reflexivity|].
  fold (failureNotice env msg best e). rewrite notifyLoop_eq. reflexivity.
Qed.

End Found.

(** X9: when a query of a user who is not an administrator has a
    match, the answer and then the document of the best match are sent,
    and once both are delivered and the counters are written, the
    download counter of the user is one more than before and exactly one
    follow-up message is scheduled: the milestone message at 1, 5, 10,
    25, 50 and 100 downloads, the ordinary follow-up otherwise.  No
    request is recorded and no administrator is notified. *)
Theorem delivery_counts_one_download
  (ADMIN_IDS : list jsstring)
  (Fuse_search : list BookRecord -> jsstring -> list (BookRecord * Q))
  (env : Env) (msg : Message) (w : World) (txt : jsstring)
  (best : BookRecord) (sc : Q) (rest : list (BookRecord * Q)) :
  plainText ADMIN_IDS w msg txt -> admitted env w msg ->
  safeText (Some (trim txt)) <> [] ->
  Fuse_search (fuse w) (safeText (Some (trim txt))) = (best, sc) :: rest ->
  isAdmin ADMIN_IDS (from_id msg) = false ->
  send_failure env (Chat (chat_id msg)) (foundReply ADMIN_IDS env msg best)
  = None ->
  document_failure env = None -> save_failure env = None ->
  let o := onMessage ADMIN_IDS Fuse_search env msg w in
  let n := S (downloadsOf w (from_id msg)) in
  effects o
  = [ SendMessage (Chat (chat_id msg)) (foundReply ADMIN_IDS env msg best) None;
      SendDocument (chat_id msg) (file_id best) None;
      SaveDB None;
      followUp env msg n ]
  /\ downloadsOf (final o) (from_id msg) = n
  /\ (followUp env msg n = SetTimeout 1500 (chat_id msg) (Milestone n)
      <-> In n [1; 5; 10; 25; 50; 100]%nat)
  /\ requests (final o) = requests w
  /\ notificationsOf (effects o) = [].
Proof.
  intros Hplain Hadm Hq Hs Ha Hsend Hdoc Hsave. simpl.
  rewrite onMessage_admitted by (assumption || apply Hplain).
  erewrite tryCatch_ok.
  2:{ rewrite (dispatch_plainText _ _ _ _ txt) by exact Hplain.
      apply (handleQuery_delivered_user _ _ _ _ _ best sc rest); assumption. }
  simpl. split; [reflexivity|]. split.
  { unfold downloadsOf. simpl. rewrite lookup_insert_eq. reflexivity. }
  split.
  { unfold followUp, getUserMilestoneMessage.
    set (n := S (downloadsOf w (from_id msg))).
    destruct (existsb (Nat.eqb n) [1; 5; 10; 25; 50; 100]%nat) eqn:E.
    - split; [intros _|reflexivity].
      apply existsb_exists in E as (x & Hx & Hn).
      apply Nat.eqb_eq in Hn. subst x. exact Hx.
    - split; [discriminate|]. intros Hin. exfalso.
      assert (existsb (Nat.eqb n) [1; 5; 10; 25; 50; 100]%nat = true).
      { apply existsb_exists. exists n. split; [exact Hin|].
        apply Nat.eqb_refl. }
      congruence. }
  split; [reflexivity|].
  unfold followUp. destruct (getUserMilestoneMessage _); reflexivity.
Qed.

Lemma delivery_counts_one_download_witness :
  effects (onMessage roster firstRecord (quietEnv 5000) (userMsg (js "great"))
             loadedWorld)
  = [ SendMessage (Chat 9)
        (Motivational 0
           (mkBook (js "1") (js "Great Book") (js "Jane Doe") (js "BQAC 1")))
        None;
      SendDocument 9 (js "BQAC 1") None;
      SaveDB None;
      SetTimeout 1500 9 (Milestone 1) ].
Proof.
  destruct (delivery_counts_one_download roster firstRecord (quietEnv 5000)
              (userMsg (js "great")) loadedWorld (js "great")
              (mkBook (js "1") (js "Great Book") (js "Jane Doe") (js "BQAC 1"))
              0%Q [])
    as (He & _).
  - repeat split; try (vm_compute; reflexivity); try discriminate.
    left. reflexivity.
  - vm_compute. reflexivity.
  - discriminate.
  - vm_compute. reflexivity.
  - vm_compute. reflexivity.
  - reflexivity.
  - reflexivity.
  - reflexivity.
  - rewrite He. vm_compute. reflexivity.
Defined.

(** X10: when the match was announced and its document cannot be sent,
    the failure is logged and the message about a temporary issue is
    attempted.  If that message is accepted, a notification with the
    record and the error is attempted for every entry of the roster, in
    order; if it is refused, no administrator is notified and the
    refusal is logged as an error of the handler.  Either way nothing
    is added to the ledger of requests and no download is counted. *)
Theorem undelivered_document_is_reported
  (ADMIN_IDS : list jsstring)
  (Fuse_search : list BookRecord -> jsstring -> list (BookRecord * Q))
  (env : Env) (msg : Message) (w : World) (txt : jsstring)
  (best : BookRecord) (sc : Q) (rest : list (BookRecord * Q)) (e : Error) :
  plainText ADMIN_IDS w msg txt -> admitted env w msg ->
  safeText (Some (trim txt)) <> [] ->
  Fuse_search (fuse w) (safeText (Some (trim txt))) = (best, sc) :: rest ->
  send_failure env (Chat (chat_id msg)) (foundReply ADMIN_IDS env msg best)
  = None ->
  document_failure env = Some e ->
  let o := onMessage ADMIN_IDS Fuse_search env msg w in
  let issue := send_failure env (Chat (chat_id msg)) (SendIssue (title best)) in
  effects o
  = SendMessage (Chat (chat_id msg)) (foundReply ADMIN_IDS env msg best) None
    :: SendDocument (chat_id msg) (file_id best) (Some e)
    :: Log (SendDocumentFailed best e)
    :: SendMessage (Chat (chat_id msg)) (SendIssue (title best)) issue
    :: match issue with
       | None =>
           concat (map (notifyTrace env (failureNotice env msg best e))
                       ADMIN_IDS)
       | Some e' => [Log (HandlerError e')]
       end
  /\ notificationsOf (effects o)
     = match issue with
       | None => map (notification env (failureNotice env msg best e)) ADMIN_IDS
       | Some _ => []
       end
  /\ final o = stamped env w msg
  /\ requests (final o) = requests w
  /\ userStats (final o) = userStats w.
Proof.
  intros Hplain Hadm Hq Hs Hsend Hdoc. cbv zeta.
  rewrite onMessage_admitted by (assumption || apply Hplain).
  unfold tryCatch.
  rewrite (dispatch_plainText _ _ _ _ txt) by exact Hplain.
  rewrite (handleQuery_undelivered _ _ _ _ _ best sc rest _ e) by assumption.
  destruct (send_failure env (Chat (chat_id msg)) (SendIssue (title best)))
    as [e'|]; run.
  - repeat split.
  - split; [reflexivity|]. split; [|repeat split].
    apply notificationsOf_notifyTrace.
Qed.

Lemma undelivered_document_witness :
  notificationsOf
    (effects (onMessage roster firstRecord (documentDown 5000)
                (userMsg (js "great")) loadedWorld))
  = map (notification (documentDown 5000)
           (failureNotice (documentDown 5000) (userMsg (js "great"))
              (mkBook (js "1") (js "Great Book") (js "Jane Doe") (js "BQAC 1"))
              boom))
        roster
  /\ notificationsOf
       (effects (onMessage roster firstRecord (documentAndIssueDown 5000)
                   (userMsg (js "great")) loadedWorld))
     = [].
Proof.
  split.
  - destruct (undelivered_document_is_reported roster firstRecord
                (documentDown 5000) (userMsg (js "great")) loadedWorld
                (js "great")
                (mkBook (js "1") (js "Great Book") (js "Jane Doe") (js "BQAC 1"))
                0%Q [] boom)
      as (_ & Hn & _).
    + repeat split; try (vm_compute; reflexivity); try discriminate.
      left. reflexivity.
    + vm_compute. reflexivity.
    + discriminate.
    + vm_compute. reflexivity.
    + reflexivity.
    + reflexivity.
    + exact Hn.
  - destruct (undelivered_document_is_reported roster firstRecord
                (documentAndIssueDown 5000) (userMsg (js "great")) loadedWorld
                (js "great")
                (mkBook (js "1") (js "Great Book") (js "Jane Doe") (js "BQAC 1"))
                0%Q [] boom)
      as (_ & Hn & _).
    + repeat split; try (vm_compute; reflexivity); try discriminate.
      left. reflexivity.
    + vm_compute. reflexivity.
    + discriminate.
    + vm_compute. reflexivity.
    + reflexivity.
    + reflexivity.
    + exact Hn.
Defined.

(** ** Append, then load *)

Lemma safeText_idempotent (v : option jsstring) :
  safeText (Some (safeText v)) = safeText v.
Proof. apply safeText_id; [apply safeText_noControl | apply safeText_trimmed]. Qed.

Lemma safeFileId_idempotent (v : option jsstring) :
  safeFileId (Some (safeFileId v)) = safeFileId v.
Proof. apply safeFileId_id, safeFileId_trimmed. Qed.

Lemma specRecord_sheetRow_any (i t a f : jsstring) :
  specRecord (sheetRow i t a f)
  = if truthy (safeText (Some t)) && truthy (safeFileId (Some f))
    then Some (mkBook (safeText (Some i)) (safeText (Some t))
                      (safeText (Some a)) (safeFileId (Some f)))
    else None.
Proof.
  unfold specRecord, sheetRow, cell. simpl.
  rewrite !safeText_idempotent, safeFileId_idempotent.
  destruct (safeText (Some t)), (safeFileId (Some f)); reflexivity.
Qed.

Lemma findByFileId_app_In (bs : list BookRecord) (b : BookRecord) :
  exists b', findByFileId (bs ++ [b]) (file_id b) = Some b'
             /\ file_id b' = file_id b.
Proof.
  unfold findByFileId.
  destruct (List.find (fun x => eqb_str (file_id x) (file_id b)) (bs ++ [b]))
    as [b'|] eqn:E.
  - exists b'. split; [reflexivity|].
    apply List.find_some in E as [_ E]. unfold eqb_str in E.
    apply bool_decide_eq_true in E. exact E.
  - exfalso.
    assert (Hb : eqb_str (file_id b) (file_id b) = false).
    { apply (List.find_none _ _ E b). apply in_app_iff. right. left.
      reflexivity. }
    unfold eqb_str in Hb. rewrite bool_decide_eq_true_2 in Hb by reflexivity.
    discriminate Hb.
Qed.

(** X11: what [appendRowToSheet] writes, [loadSheet] reads back
    unchanged.  On a sheet with a header, an append followed by a load
    gives the generation of the sheet followed by the record of the
    cleaned fields, which [findByFileId] then finds by its reference,
    if its cleaned title and trimmed reference are not empty; otherwise
    the row is in the sheet and the generation is that of the sheet
    before.  On a sheet without any row the appended row takes the place
    of the header and the generation is empty. *)
Theorem append_then_load (env : Env) (w : World) (i t a f : jsstring) :
  append_failure env = None -> get_failure env = None ->
  let o := (appendRowToSheet env i t a f ≫= fun _ => loadSheet env) w in
  let b := mkBook (safeText (Some i)) (safeText (Some t)) (safeText (Some a))
                  (safeFileId (Some f)) in
  sheet (final o) = sheet w ++ [sheetRow i t a f]
  /\ (sheet w <> [] ->
      books (final o)
      = parseRows (sheet w)
        ++ (if truthy (title b) && truthy (file_id b) then [b] else []))
  /\ (sheet w <> [] -> title b <> [] -> file_id b <> [] ->
      exists b', findByFileId (books (final o)) (file_id b) = Some b'
                 /\ file_id b' = file_id b)
  /\ (sheet w = [] -> books (final o) = []).
Proof.
  intros Happ Hget. simpl. unfold mbind, M_bind, bind.
  rewrite appendRowToSheet_ok by exact Happ. simpl.
  rewrite loadSheet_ok by exact Hget. simpl.
  split; [reflexivity|].
  assert (Hgen : sheet w <> [] ->
                 parseRows (sheet w ++ [sheetRow i t a f])
                 = parseRows (sheet w)
                   ++ (if truthy (safeText (Some t)) && truthy (safeFileId (Some f))
                       then [mkBook (safeText (Some i)) (safeText (Some t))
                                    (safeText (Some a)) (safeFileId (Some f))]
                       else [])).
  { intros Hne. rewrite !parseRows_specLoad, specLoad_snoc by exact Hne.
    f_equal. rewrite omap_cons, specRecord_sheetRow_any.
    destruct (truthy (safeText (Some t)) && truthy (safeFileId (Some f)));
      reflexivity. }
  split; [exact Hgen|]. split.
  - intros Hne Ht Hf. rewrite Hgen by exact Hne.
    apply truthy_true in Ht, Hf. rewrite Ht, Hf. simpl.
    apply (findByFileId_app_In (parseRows (sheet w))
             (mkBook (safeText (Some i)) (safeText (Some t))
                     (safeText (Some a)) (safeFileId (Some f)))).
  - intros ->. reflexivity.
Qed.

Lemma append_then_load_witness :
  books (final ((appendRowToSheet (quietEnv 5000) (js " 7 ") (js "New Book")
                   (js "") (js " BQAC7 ")
                 ≫= fun _ => loadSheet (quietEnv 5000)) demoWorld))
  = parseRows demoSheet ++ [mkBook (js "7") (js "New Book") [] (js "BQAC7")]
  /\ books (final ((appendRowToSheet (quietEnv 5000) (js "7") (js "New Book")
                      (js "") (js "BQAC7")
                    ≫= fun _ => loadSheet (quietEnv 5000)) emptyWorld))
     = [].
Proof.
  split.
  - destruct (append_then_load (quietEnv 5000) demoWorld (js " 7 ")
                (js "New Book") (js "") (js " BQAC7 ") eq_refl eq_refl)
      as (_ & Hb & _).
    rewrite Hb by discriminate. reflexivity.
  - destruct (append_then_load (quietEnv 5000) emptyWorld (js "7")
                (js "New Book") (js "") (js "BQAC7") eq_refl eq_refl)
      as (_ & _ & _ & Hb).
    apply Hb. reflexivity.
Defined.

(** ** Reload, commands and blank texts *)

(** X12: [/reload] of a sender who is not an administrator is
    answered with the refusal only: the sheet is not read and the state
    is unchanged.  For an administrator, when the sheet can be read, the
    generation and the collection of the search become the records of
    the sheet and their number is reported. *)
Theorem reload_command
  (ADMIN_IDS : list jsstring) (env : Env) (chatId : Z) (fromId : jsstring)
  (w : World) :
  let o := onReload ADMIN_IDS env chatId fromId w in
  (isAdmin ADMIN_IDS fromId = false ->
   o = mkOutcome w (sent env (Chat chatId) OnlyAdminReload) (inr tt))
  /\ (isAdmin ADMIN_IDS fromId = true -> get_failure env = None ->
      books (final o) = parseRows (sheet w)
      /\ fuse (final o) = parseRows (sheet w)
      /\ sheet (final o) = sheet w
      /\ effects o
         = sent env (Chat chatId) Reloading
           ++ SheetGet None
              :: sent env (Chat chatId) (Reloaded (length (parseRows (sheet w))))).
Proof.
  simpl. split.
  - intros Ha. unfold onReload. rewrite Ha. simpl. apply returnSend_eq.
  - intros Ha Hget. unfold onReload. rewrite Ha. simpl.
    unfold tryCatch, mbind, M_bind, bind.
    rewrite returnSend_eq. simpl. rewrite loadSheet_ok by exact Hget. simpl.
    rewrite returnSend_eq. simpl. repeat split.
Qed.

Lemma reload_command_witness :
  onReload roster (quietEnv 5000) 9 (js "5") demoWorld
  = mkOutcome demoWorld [SendMessage (Chat 9) OnlyAdminReload None] (inr tt)
  /\ length (books (final (onReload roster (quietEnv 5000) 7 (js "42")
                            demoWorld))) = 2%nat.
Proof.
  split.
  - rewrite (proj1 (reload_command roster (quietEnv 5000) 9 (js "5") demoWorld));
      reflexivity.
  - destruct (proj2 (reload_command roster (quietEnv 5000) 7 (js "42")
                       demoWorld)) as (Hb & _); [reflexivity | reflexivity |].
    rewrite Hb. reflexivity.
Defined.

Lemma dispatch_handleText (ADMIN_IDS : list jsstring)
  (Fuse_search : list BookRecord -> jsstring -> list (BookRecord * Q))
  (env : Env) (msg : Message) (w : World) :
  document msg = None ->
  reply_to_message msg = false \/ waitingForMeta w !! chat_id msg = None
  \/ isAdmin ADMIN_IDS (from_id msg) = false ->
  dispatch ADMIN_IDS Fuse_search env msg (stamped env w msg)
  = handleText ADMIN_IDS Fuse_search env msg (stamped env w msg).
Proof.
  intros Hd Hno. rewrite dispatch_text by exact Hd.
  destruct (waitingForMeta w !! chat_id msg) as [sess|] eqn:E.
  - unfold afterUpload. run.
    change (waitingForMeta (stamped env w msg)) with (waitingForMeta w).
    rewrite E.
    assert (reply_to_message msg && isAdmin ADMIN_IDS (from_id msg)
            && truthy (orEmpty (text msg)) = false) as ->.
    { destruct Hno as [-> | [Hn | ->]]; [reflexivity| |].
      - congruence.
      - rewrite andb_false_r. reflexivity. }
    destruct (handleText ADMIN_IDS Fuse_search env msg (stamped env w msg))
      as [w' es v]. reflexivity.
  - rewrite afterUpload_no_session by exact E. reflexivity.
Qed.

(** X13: a text that starts with a slash, or that is empty once
    trimmed and cleaned, is not a query (unless it is the reply to a
    pending upload): the handler searches nothing, answers nothing and
    records nothing; only the limiter's time of the sender is set, so the
    text uses up the sender's window. *)
Theorem commands_and_blank_texts_ignored
  (ADMIN_IDS : list jsstring)
  (Fuse_search : list BookRecord -> jsstring -> list (BookRecord * Q))
  (env : Env) (msg : Message) (w : World) (txt : jsstring) :
  chat_private msg = true -> admitted env w msg ->
  document msg = None -> text msg = Some txt ->
  reply_to_message msg = false \/ waitingForMeta w !! chat_id msg = None
  \/ isAdmin ADMIN_IDS (from_id msg) = false ->
  startsWith txt SLASH = true \/ safeText (Some (trim txt)) = [] ->
  onMessage ADMIN_IDS Fuse_search env msg w
  = mkOutcome (stamped env w msg) [] (inr tt)
  /\ lastRequestAt (final (onMessage ADMIN_IDS Fuse_search env msg w))
     !! from_id msg = Some (now env).
Proof.
  intros Hp Hadm Hd Ht Hno Hskip.
  assert (Ho : onMessage ADMIN_IDS Fuse_search env msg w
               = mkOutcome (stamped env w msg) [] (inr tt)).
  { rewrite onMessage_admitted by assumption. apply tryCatch_ok.
    rewrite dispatch_handleText by assumption.
    unfold handleText. rewrite Ht.
    destruct (truthy txt); [|reflexivity]. simpl.
    destruct (startsWith txt SLASH) eqn:Hs; [reflexivity|].
    destruct Hskip as [Hs' | Hq]; [discriminate|].
    unfold handleQuery. rewrite Hq. reflexivity. }
  split; [exact Ho|]. rewrite Ho. unfold stamped. simpl.
  apply lookup_insert_eq.
Qed.

Lemma commands_ignored_witness :
  onMessage roster firstRecord (quietEnv 5000) (userMsg (js "/start"))
    loadedWorld
  = mkOutcome (stamped (quietEnv 5000) loadedWorld (userMsg (js "/start")))
      [] (inr tt).
Proof.
  apply (commands_and_blank_texts_ignored roster firstRecord (quietEnv 5000)
           (userMsg (js "/start")) loadedWorld (js "/start")).
  - reflexivity.
  - vm_compute. reflexivity.
  - reflexivity.
  - reflexivity.
  - left. reflexivity.
  - left. reflexivity.
Defined.

(** ** The command [/add] *)

Ltac crun :=
  repeat (progress
            (unfold mbind, mret, Cmd_bind, Cmd_ret, cbind, cret, cthrow,
               ctryCatch, cget, cemit, cawait, liftM;
             simpl)).

Lemma replyNow_eq (cenv : CommandEnv) (chatId : Z) (t : CommandText) (w : World) :
  replyNow cenv chatId t w = mkCOutcome w (replied cenv chatId t) (inr tt).
Proof.
  unfold replyNow, replied. crun.
  destruct (reply_failure cenv chatId t); reflexivity.
Qed.

Opaque replyNow.

Lemma parseAdd_trimmed (raw i t a f : jsstring) :
  parseAdd raw = (i, t, a, f) -> trimmed f.
Proof.
  unfold parseAdd. intros H. inversion H; subst.
  rewrite list_lookup_fmap.
  destruct (split PIPE raw !! 3%nat); simpl;
    [apply trim_trimmed | split; reflexivity].
Qed.

Section Add.

Variable ADMIN_IDS : list jsstring.
Variable cenv : CommandEnv.
Variable env : Env.
Variable chatId : Z.
Variable fromId : jsstring.
Variable match1 : jsstring.
Variables i t a f : jsstring.

Hypothesis Hadmin : isAdmin ADMIN_IDS fromId = true.
Hypothesis Hparse : parseAdd (trim match1) = (i, t, a, f).

Lemma onAdd_usage (w : World) :
  t = [] \/ f = [] ->
  onAdd ADMIN_IDS cenv env chatId fromId match1 w
  = mkCOutcome w (replied cenv chatId AddUsage) (inr tt).
Proof.
  intros Hm. unfold onAdd. rewrite Hadmin, Hparse. simpl.
  assert (negb (truthy t) || negb (truthy f) = true) as ->.
  { destruct Hm as [-> | ->]; [reflexivity | apply orb_true_r]. }
  apply replyNow_eq.
Qed.

Lemma onAdd_exists (w : World) (b : BookRecord) :
  t <> [] -> f <> [] -> findByFileId (books w) f = Some b ->
  onAdd ADMIN_IDS cenv env chatId fromId match1 w
  = mkCOutcome w (replied cenv chatId FileIdExists) (inr tt).
Proof.
  intros Ht Hf Hb. unfold onAdd. rewrite Hadmin, Hparse. simpl.
  apply truthy_true in Ht, Hf. rewrite Ht, Hf. crun. rewrite Hb.
  rewrite replyNow_eq. reflexivity.
Qed.

Lemma onAdd_saved (w : World) :
  t <> [] -> f <> [] -> findByFileId (books w) f = None ->
  append_failure env = None -> get_failure env = None ->
  let w1 := set_sheet (sheet w ++ [sheetRow i t a f]) w in
  onAdd ADMIN_IDS cenv env chatId fromId match1 w
  = mkCOutcome
      (set_fuse (parseRows (sheet w1)) (set_books (parseRows (sheet w1)) w1))
      (Core (SheetAppend (sheetRow i t a f) None) :: Core (SheetGet None)
       :: replied cenv chatId (AddSaved t))
      (inr tt).
Proof.
  intros Ht Hf Hb Happ Hget. unfold onAdd. rewrite Hadmin, Hparse. simpl.
  apply truthy_true in Ht, Hf. rewrite Ht, Hf. crun. rewrite Hb. crun.
  rewrite appendRowToSheet_ok by exact Happ. crun.
  rewrite loadSheet_ok by exact Hget. crun.
  rewrite replyNow_eq. reflexivity.
Qed.

End Add.

(** X14: [/add] refuses without touching anything: a sender who is
    not an administrator, a text without title or without reference,
    and a reference that a record of the generation already has are
    each answered with one message; no row is appended and the state is
    unchanged. *)
Theorem add_refusals
  (ADMIN_IDS : list jsstring) (cenv : CommandEnv) (env : Env) (chatId : Z)
  (fromId match1 : jsstring) (w : World) :
  let o := onAdd ADMIN_IDS cenv env chatId fromId match1 w in
  (isAdmin ADMIN_IDS fromId = false ->
   o = mkCOutcome w (replied cenv chatId (OnlyAdmin CmdAdd)) (inr tt))
  /\ (forall i t a f,
         isAdmin ADMIN_IDS fromId = true ->
         parseAdd (trim match1) = (i, t, a, f) -> t = [] \/ f = [] ->
         o = mkCOutcome w (replied cenv chatId AddUsage) (inr tt))
  /\ (forall i t a f b,
         isAdmin ADMIN_IDS fromId = true ->
         parseAdd (trim match1) = (i, t, a, f) -> t <> [] -> f <> [] ->
         In b (books w) -> file_id b = f ->
         o = mkCOutcome w (replied cenv chatId FileIdExists) (inr tt)).
Proof.
  simpl. split; [|split].
  - intros Ha. unfold onAdd. rewrite Ha. simpl. apply replyNow_eq.
  - intros i t a f Ha Hp Hm. apply (onAdd_usage _ _ _ _ _ _ i t a f); assumption.
  - intros i t a f b Ha Hp Ht Hf Hin Hb.
    destruct (findByFileId_first _ _ _ Hin Hb) as (_ & b' & _ & _ & _ & _ & Hfind).
    apply (onAdd_exists _ _ _ _ _ _ i t a f Ha Hp _ b'); assumption.
Qed.

Lemma add_refusals_witness :
  onAdd roster quietCommands (quietEnv 5000) 7 (js "42")
        (js "9|Great Again|X|BQAC 1") loadedWorld
  = mkCOutcome loadedWorld [Reply 7 FileIdExists None] (inr tt)
  /\ onAdd roster quietCommands (quietEnv 5000) 7 (js "42")
          (js "9|No Reference|X") loadedWorld
     = mkCOutcome loadedWorld [Reply 7 AddUsage None] (inr tt).
Proof.
  split.
  - rewrite (proj2 (proj2 (add_refusals roster quietCommands (quietEnv 5000) 7
                             (js "42") (js "9|Great Again|X|BQAC 1") loadedWorld))
               (js "9") (js "Great Again") (js "X") (js "BQAC 1")
               (mkBook (js "1") (js "Great Book") (js "Jane Doe") (js "BQAC 1")));
      [reflexivity | reflexivity | reflexivity | discriminate | discriminate
       | vm_compute; left; reflexivity | reflexivity].
  - rewrite (proj1 (proj2 (add_refusals roster quietCommands (quietEnv 5000) 7
                             (js "42") (js "9|No Reference|X") loadedWorld))
               (js "9") (js "No Reference") (js "X") []);
      [reflexivity | reflexivity | reflexivity | right; reflexivity].
Defined.

(** X15: [/add] is idempotent on a sheet with a header.  When an
    administrator adds a reference that no record has, with a title
    that is not empty once cleaned, and the append and the reload
    succeed, the generation becomes that of the sheet followed by the
    new record; the same [/add] sent again is then answered with the
    refusal for an existing reference and appends nothing, whatever the
    outside calls would answer. *)
Theorem add_twice_adds_once
  (ADMIN_IDS : list jsstring) (cenv : CommandEnv) (env : Env) (chatId : Z)
  (fromId match1 : jsstring) (w : World) (i t a f : jsstring) :
  isAdmin ADMIN_IDS fromId = true ->
  parseAdd (trim match1) = (i, t, a, f) ->
  safeText (Some t) <> [] -> f <> [] ->
  findByFileId (books w) f = None -> sheet w <> [] ->
  append_failure env = None -> get_failure env = None ->
  let o := onAdd ADMIN_IDS cenv env chatId fromId match1 w in
  sheet (cfinal o) = sheet w ++ [sheetRow i t a f]
  /\ books (cfinal o)
     = parseRows (sheet w)
       ++ [mkBook (safeText (Some i)) (safeText (Some t)) (safeText (Some a)) f]
  /\ (forall cenv' env',
         onAdd ADMIN_IDS cenv' env' chatId fromId match1 (cfinal o)
         = mkCOutcome (cfinal o) (replied cenv' chatId FileIdExists) (inr tt)).
Proof.
  intros Ha Hp Hclean Hf Hnone Hne Happ Hget. simpl.
  assert (Ht : t <> []).
  { intros ->. apply Hclean. reflexivity. }
  pose proof (parseAdd_trimmed _ _ _ _ _ Hp) as Htrim.
  rewrite (onAdd_saved ADMIN_IDS cenv env chatId fromId match1 i t a f Ha Hp w)
    by assumption.
  simpl.
  assert (Hgen : parseRows (sheet w ++ [sheetRow i t a f])
                 = parseRows (sheet w)
                   ++ [mkBook (safeText (Some i)) (safeText (Some t))
                              (safeText (Some a)) f]).
  { rewrite !parseRows_specLoad, specLoad_snoc by exact Hne. f_equal.
    rewrite omap_cons, specRecord_sheetRow_any.
    rewrite (safeFileId_id f Htrim).
    apply truthy_true in Hclean, Hf. rewrite Hclean, Hf. reflexivity. }
  split; [reflexivity|]. split; [exact Hgen|].
  intros cenv' env'.
  destruct (findByFileId_app_In (parseRows (sheet w))
              (mkBook (safeText (Some i)) (safeText (Some t))
                      (safeText (Some a)) f)) as (b' & Hb' & _).
  simpl in Hb'.
  apply (onAdd_exists ADMIN_IDS cenv' env' chatId fromId match1 i t a f Ha Hp
           _ b'); try assumption.
  simpl. rewrite Hgen. exact Hb'.
Qed.

Lemma add_twice_adds_once_witness :
  books (cfinal (onAdd roster quietCommands (quietEnv 5000) 7 (js "42")
                   (js " 8 | Third Book | | BQAC8 ") loadedWorld))
  = parseRows demoSheet ++ [mkBook (js "8") (js "Third Book") [] (js "BQAC8")].
Proof.
  destruct (add_twice_adds_once roster quietCommands (quietEnv 5000) 7
              (js "42") (js " 8 | Third Book | | BQAC8 ") loadedWorld
              (js "8") (js "Third Book") [] (js "BQAC8"))
    as (_ & Hb & _).
  - reflexivity.
  - reflexivity.
  - discriminate.
  - discriminate.
  - reflexivity.
  - discriminate.
  - reflexivity.
  - reflexivity.
  - rewrite Hb. reflexivity.
Defined.

(** X16: the answer "Saved" of [/add] does not mean the record can be
    found.  The title is tested before it is cleaned: when it is not
    empty but is empty once its control characters and surrounding white
    space are removed, the row is appended, the answer is "Saved", and
    the reloaded generation is that of the sheet before, without the
    record. *)
Theorem add_saved_without_record
  (ADMIN_IDS : list jsstring) (cenv : CommandEnv) (env : Env) (chatId : Z)
  (fromId match1 : jsstring) (w : World) (i t a f : jsstring) :
  isAdmin ADMIN_IDS fromId = true ->
  parseAdd (trim match1) = (i, t, a, f) ->
  t <> [] -> safeText (Some t) = [] -> f <> [] ->
  findByFileId (books w) f = None -> sheet w <> [] ->
  append_failure env = None -> get_failure env = None ->
  let o := onAdd ADMIN_IDS cenv env chatId fromId match1 w in
  ceffects o
  = Core (SheetAppend (sheetRow i t a f) None) :: Core (SheetGet None)
    :: replied cenv chatId (AddSaved t)
  /\ sheet (cfinal o) = sheet w ++ [sheetRow i t a f]
  /\ books (cfinal o) = parseRows (sheet w).
Proof.
  intros Ha Hp Ht Hclean Hf Hnone Hne Happ Hget. simpl.
  rewrite (onAdd_saved ADMIN_IDS cenv env chatId fromId match1 i t a f Ha Hp w)
    by assumption.
  simpl. split; [reflexivity|]. split; [reflexivity|].
  rewrite !parseRows_specLoad, specLoad_snoc by exact Hne.
  rewrite omap_cons, specRecord_sheetRow_any, Hclean. simpl.
  apply app_nil_r.
Qed.

Lemma add_saved_without_record_witness :
  let o := onAdd roster quietCommands (quietEnv 5000) 7 (js "42")
             [56; 124; 1; 124; 124; 66; 81] loadedWorld in
  ceffects o
  = [ Core (SheetAppend [js "8"; []; []; js "BQ"] None); Core (SheetGet None);
      Reply 7 (AddSaved [1]) None ]
  /\ books (cfinal o) = parseRows demoSheet.
Proof.
  destruct (add_saved_without_record roster quietCommands (quietEnv 5000) 7
              (js "42") [56; 124; 1; 124; 124; 66; 81] loadedWorld
              (js "8") [1] [] (js "BQ"))
    as (He & _ & Hb).
  - reflexivity.
  - reflexivity.
  - discriminate.
  - reflexivity.
  - discriminate.
  - reflexivity.
  - discriminate.
  - reflexivity.
  - reflexivity.
  - cbv zeta. split; [rewrite He; reflexivity | exact Hb].
Defined.

(** ** The command [/cleanup] *)

Lemma lookup_snoc_iff {A} (pre : list A) (b x : A) (j : nat) :
  (pre ++ [b]) !! j = Some x <->
  pre !! j = Some x \/ (j = length pre /\ x = b).
Proof.
  destruct (decide (j < length pre)%nat) as [Hlt|Hge].
  - rewrite lookup_app_l by exact Hlt. split; [auto|].
    intros [H|[-> _]]; [exact H | lia].
  - rewrite lookup_app_r by lia.
    rewrite (lookup_ge_None_2 pre j) by lia.
    destruct (j - length pre)%nat as [|k] eqn:E; simpl.
    + split.
      * intros H. inversion H. right. split; [lia | reflexivity].
      * intros [H|[_ ->]]; [discriminate | reflexivity].
    + split; [discriminate|]. intros [H|[-> _]]; [discriminate | lia].
Qed.

Lemma earlier_snoc (key : BookRecord -> jsstring) (pre : list BookRecord)
  (b x : BookRecord) (i : nat) :
  earlier key (pre ++ [b]) x i <->
  earlier key pre x i
  \/ (i = length pre /\ x = b
      /\ exists j b', pre !! j = Some b' /\ key b' = key b).
Proof.
  unfold earlier. split.
  - intros (Hi & j & b' & Hj & Hb' & Hk).
    apply lookup_snoc_iff in Hi as [Hi|[-> ->]].
    + left. split; [exact Hi|]. exists j, b'. split; [exact Hj|].
      split; [|exact Hk].
      apply lookup_lt_Some in Hi.
      apply lookup_snoc_iff in Hb' as [Hb'|[-> _]]; [exact Hb' | lia].
    + right. split; [reflexivity|]. split; [reflexivity|].
      exists j, b'. split; [|exact Hk].
      apply lookup_snoc_iff in Hb' as [Hb'|[-> _]]; [exact Hb' | lia].
  - intros [(Hi & j & b' & Hj & Hb' & Hk) | (-> & -> & j & b' & Hb' & Hk)].
    + split; [apply lookup_snoc_iff; left; exact Hi|].
      exists j, b'. split; [exact Hj|]. split; [|exact Hk].
      apply lookup_snoc_iff. left. exact Hb'.
    + split; [apply lookup_snoc_iff; right; split; reflexivity|].
      exists j, b'. split; [apply lookup_lt_Some in Hb'; exact Hb'|].
      split; [|exact Hk]. apply lookup_snoc_iff. left. exact Hb'.
Qed.

Section Cleanup.

Variable toLowerCase : jsstring -> jsstring.

Let key := titleKey toLowerCase.

Lemma scanLoop_app (l1 l2 : list BookRecord) (n : nat)
  (st : list Duplicate * gset jsstring * gset jsstring) :
  scanLoop toLowerCase (l1 ++ l2) n st
  = scanLoop toLowerCase l2 (n + length l1) (scanLoop toLowerCase l1 n st).
Proof.
  revert n st. induction l1 as [|b l1 IH]; intros n st; simpl.
  - rewrite Nat.add_0_r. reflexivity.
  - rewrite IH. f_equal. lia.
Qed.

(** One step of the scan, by component. *)
Lemma scanStep_eq (dups : list Duplicate) (sF sT : gset jsstring)
  (b : BookRecord) (i : nat) :
  scanStep toLowerCase (dups, sF, sT) b i
  = ( dups
      ++ (if bool_decide (file_id b ∈ sF)
          then [mkDuplicate DupFileId b i] else [])
      ++ (if truthy (key b) && bool_decide (key b ∈ sT)
          then [mkDuplicate DupTitle b i] else []),
      (if bool_decide (file_id b ∈ sF) then sF else {[file_id b]} ∪ sF),
      (if truthy (key b) && negb (bool_decide (key b ∈ sT))
       then {[key b]} ∪ sT else sT) ).
Proof.
  unfold scanStep. fold key.
  destruct (bool_decide (file_id b ∈ sF)), (truthy (key b)),
    (bool_decide (key b ∈ sT)); simpl;
    rewrite <- ?app_assoc, ?app_nil_r; reflexivity.
Qed.

Lemma scanLoop_invariant (pre : list BookRecord) :
  forall dups sF sT,
    scanLoop toLowerCase pre 0 ([], ∅, ∅) = (dups, sF, sT) ->
    (forall x, x ∈ sF <-> exists j b', pre !! j = Some b' /\ file_id b' = x)
    /\ (forall x, x ∈ sT <->
                  x <> [] /\ exists j b', pre !! j = Some b' /\ key b' = x)
    /\ (forall b i, In (mkDuplicate DupFileId b i) dups <->
                    earlier file_id pre b i)
    /\ (forall b i, In (mkDuplicate DupTitle b i) dups <->
                    key b <> [] /\ earlier key pre b i).
Proof.
  induction pre as [|b pre IH] using rev_ind; intros dups sF sT Hrun.
  - simpl in Hrun. inversion Hrun; subst. split; [|split; [|split]].
    + intros x. split.
      * intros H. apply elem_of_empty in H. destruct H.
      * intros (j & b' & H & _). discriminate H.
    + intros x. split.
      * intros H. apply elem_of_empty in H. destruct H.
      * intros (_ & j & b' & H & _). discriminate H.
    + intros b i. split; [intros [] | intros (H & _); discriminate H].
    + intros b i. split; [intros [] | intros (_ & H & _); discriminate H].
  - rewrite scanLoop_app in Hrun. simpl in Hrun.
    destruct (scanLoop toLowerCase pre 0 ([], ∅, ∅)) as [[dups0 sF0] sT0].
    destruct (IH dups0 sF0 sT0 eq_refl) as (HF & HT & HDF & HDT).
    rewrite scanStep_eq in Hrun. inversion Hrun; subst; clear Hrun.
    split; [|split; [|split]].
    + (* references met *)
      intros x.
      assert (Hnew : x ∈ ({[file_id b]} ∪ sF0 : gset jsstring) <->
                     exists j b', (pre ++ [b]) !! j = Some b' /\ file_id b' = x).
      { rewrite elem_of_union, elem_of_singleton, HF. split.
        - intros [-> | (j & b' & Hj & Hx)].
          + exists (length pre), b. split; [|reflexivity].
            apply lookup_snoc_iff. right. split; reflexivity.
          + exists j, b'. split; [|exact Hx]. apply lookup_snoc_iff.
            left. exact Hj.
        - intros (j & b' & Hj & Hx).
          apply lookup_snoc_iff in Hj as [Hj|[_ ->]].
          + right. exists j, b'. split; assumption.
          + left. symmetry. exact Hx. }
      destruct (bool_decide (file_id b ∈ sF0)) eqn:EF; [|exact Hnew].
      apply bool_decide_eq_true in EF. rewrite <- Hnew.
      rewrite elem_of_union, elem_of_singleton. split; [auto|].
      intros [-> | H]; assumption.
    + (* title keys met *)
      intros x.
      assert (Hold : key b = [] \/ key b ∈ sT0 ->
                     (x ∈ sT0 <->
                      x <> [] /\ exists j b', (pre ++ [b]) !! j = Some b'
                                              /\ key b' = x)).
      { intros Hcase. rewrite HT. split.
        - intros (Hx & j & b' & Hj & Hk). split; [exact Hx|].
          exists j, b'. split; [|exact Hk]. apply lookup_snoc_iff.
          left. exact Hj.
        - intros (Hx & j & b' & Hj & Hk). split; [exact Hx|].
          apply lookup_snoc_iff in Hj as [Hj|[_ ->]].
          + exists j, b'. split; assumption.
          + destruct Hcase as [Hnil | Hin]; [congruence|].
            rewrite <- Hk. apply HT in Hin as (_ & H). exact H. }
      destruct (truthy (key b)) eqn:EK; simpl.
      * apply truthy_true in EK.
        destruct (bool_decide (key b ∈ sT0)) eqn:ET; simpl.
        -- apply bool_decide_eq_true in ET. apply Hold. right. exact ET.
        -- rewrite elem_of_union, elem_of_singleton, HT. split.
           ++ intros [-> | (Hx & j & b' & Hj & Hk)].
              ** split; [exact EK|]. exists (length pre), b.
                 split; [|reflexivity]. apply lookup_snoc_iff. right.
                 split; reflexivity.
              ** split; [exact Hx|]. exists j, b'. split; [|exact Hk].
                 apply lookup_snoc_iff. left. exact Hj.
           ++ intros (Hx & j & b' & Hj & Hk).
              apply lookup_snoc_iff in Hj as [Hj|[_ ->]].
              ** right. split; [exact Hx|]. exists j, b'. split; assumption.
              ** left. symmetry. exact Hk.
      * apply truthy_false in EK. apply Hold. left. exact EK.
    + (* repeated references *)
      intros x i. rewrite !in_app_iff, HDF, earlier_snoc, <- HF.
      assert (HnoT : ~ In (mkDuplicate DupFileId x i)
                       (if truthy (key b) && bool_decide (key b ∈ sT0)
                        then [mkDuplicate DupTitle b (0 + length pre)] else [])).
      { destruct (truthy (key b) && bool_decide (key b ∈ sT0));
          [intros [H|[]]; discriminate H | intros []]. }
      destruct (bool_decide (file_id b ∈ sF0)) eqn:EF;
        [apply bool_decide_eq_true in EF | apply bool_decide_eq_false in EF].
      * split.
        -- intros [H | [[H|[]] | H]]; [left; exact H | | contradiction].
           inversion H; subst. right. repeat split. exact EF.
        -- intros [H | (-> & -> & _)]; [left; exact H|].
           right. left. left. reflexivity.
      * split.
        -- intros [H | [[] | H]]; [left; exact H | contradiction].
        -- intros [H | (_ & _ & H)]; [left; exact H | contradiction].
    + (* repeated title keys *)
      intros x i. rewrite !in_app_iff, HDT, earlier_snoc.
      assert (HnoF : ~ In (mkDuplicate DupTitle x i)
                       (if bool_decide (file_id b ∈ sF0)
                        then [mkDuplicate DupFileId b (0 + length pre)] else [])).
      { destruct (bool_decide (file_id b ∈ sF0));
          [intros [H|[]]; discriminate H | intros []]. }
      destruct (truthy (key b)) eqn:EK; simpl.
      * apply truthy_true in EK.
        destruct (bool_decide (key b ∈ sT0)) eqn:ET;
          [apply bool_decide_eq_true in ET | apply bool_decide_eq_false in ET].
        -- split.
           ++ intros [H | [H | [H|[]]]]; [| contradiction |].
              ** destruct H as [Hx He]. split; [exact Hx | left; exact He].
              ** inversion H; subst. split; [exact EK|]. right.
                 split; [reflexivity|]. split; [reflexivity|].
                 apply HT in ET as (_ & He). exact He.
           ++ intros (Hx & [He | (-> & -> & He)]).
              ** left. split; assumption.
              ** right. right. left. reflexivity.
        -- split.
           ++ intros [H | [H | []]]; [| contradiction].
              destruct H as [Hx He]. split; [exact Hx | left; exact He].
           ++ intros (Hx & [He | (-> & -> & He)]).
              ** left. split; assumption.
              ** exfalso. apply ET. apply HT. split; assumption.
      * apply truthy_false in EK. split.
        -- intros [H | [H | []]]; [| contradiction].
           destruct H as [Hx He]. split; [exact Hx | left; exact He].
        -- intros (Hx & [He | (-> & -> & He)]).
           ++ left. split; assumption.
           ++ congruence.
Qed.


Lemma scanDuplicates_spec (bs : list BookRecord) :
  (forall b i, In (mkDuplicate DupFileId b i) (scanDuplicates toLowerCase bs)
               <-> earlier file_id bs b i)
  /\ (forall b i, In (mkDuplicate DupTitle b i) (scanDuplicates toLowerCase bs)
                  <-> key b <> [] /\ earlier key bs b i).
Proof.
  unfold scanDuplicates.
  destruct (scanLoop toLowerCase bs 0 ([], ∅, ∅)) as [[dups sF] sT] eqn:E.
  destruct (scanLoop_invariant bs dups sF sT E) as (_ & _ & HDF & HDT).
  split; assumption.
Qed.

Lemma scanDuplicates_nil (bs : list BookRecord) :
  scanDuplicates toLowerCase bs = [] <->
  NoDup (map file_id bs)
  /\ (forall i j b b', (i < j)%nat -> bs !! i = Some b -> bs !! j = Some b' ->
                       key b' <> [] -> key b <> key b').
Proof.
  destruct (scanDuplicates_spec bs) as [HDF HDT]. split.
  - intros Hnil. rewrite Hnil in HDF, HDT. split.
    + apply NoDup_alt. intros i j x Hi Hj.
      rewrite list_lookup_fmap in Hi, Hj.
      destruct (bs !! i) as [bi|] eqn:Ei; [|discriminate].
      destruct (bs !! j) as [bj|] eqn:Ej; [|discriminate].
      simpl in Hi, Hj. inversion Hi. inversion Hj. subst x.
      destruct (Nat.lt_trichotomy i j) as [Hlt | [Heq | Hgt]]; [|exact Heq|].
      * exfalso. apply (HDF bj j). split; [exact Ej|].
        exists i, bi. repeat split; [exact Hlt | exact Ei | congruence].
      * exfalso. apply (HDF bi i). split; [exact Ei|].
        exists j, bj. repeat split; [exact Hgt | exact Ej | congruence].
    + intros i j b b' Hlt Hi Hj Hk Heq.
      apply (HDT b' j). split; [exact Hk|]. split; [exact Hj|].
      exists i, b. repeat split; assumption.
  - intros [Hnd Htitle].
    destruct (scanDuplicates toLowerCase bs) as [|[ty b i] l]; [reflexivity|].
    exfalso. destruct ty.
    + destruct (proj1 (HDF b i) (or_introl eq_refl))
        as (Hi & j & b' & Hlt & Hj & Hk).
      assert (j = i); [|lia].
      apply (proj1 (NoDup_alt _) Hnd j i (file_id b));
        rewrite list_lookup_fmap; [rewrite Hj | rewrite Hi]; simpl; congruence.
    + destruct (proj1 (HDT b i) (or_introl eq_refl))
        as (Hkb & Hi & j & b' & Hlt & Hj & Hk).
      apply (Htitle j i b' b Hlt Hj Hi Hkb Hk).
Qed.

End Cleanup.

(** X17: [/cleanup] lists exactly the repeats.  A record is listed
    under [file_id], with its position, exactly when an earlier record
    of the generation has the same reference; it is listed under
    [title] exactly when its title key (the title in lower case,
    trimmed) is not empty and an earlier record has the same key. *)
Theorem cleanup_reports_repeats (toLowerCase : jsstring -> jsstring)
  (bs : list BookRecord) :
  (forall b i, In (mkDuplicate DupFileId b i) (scanDuplicates toLowerCase bs)
               <-> earlier file_id bs b i)
  /\ (forall b i, In (mkDuplicate DupTitle b i) (scanDuplicates toLowerCase bs)
                  <-> titleKey toLowerCase b <> []
                      /\ earlier (titleKey toLowerCase) bs b i).
Proof. apply scanDuplicates_spec. Qed.

(** X18: [/cleanup] changes nothing in the state.  A sender who is
    not an administrator gets the refusal; an administrator gets "no
    duplicates" exactly when the references of the generation are
    pairwise different and no two records share a non-empty title
    key. *)
Theorem cleanup_command
  (ADMIN_IDS : list jsstring) (toLowerCase : jsstring -> jsstring)
  (cenv : CommandEnv) (chatId : Z) (fromId : jsstring) (w : World) :
  let o := onCleanup ADMIN_IDS toLowerCase cenv chatId fromId w in
  cfinal o = w
  /\ (isAdmin ADMIN_IDS fromId = false ->
      ceffects o = replied cenv chatId (OnlyAdmin CmdCleanup))
  /\ (isAdmin ADMIN_IDS fromId = true ->
      (ceffects o = replied cenv chatId NoDuplicates <->
       NoDup (map file_id (books w))
       /\ (forall i j b b',
              (i < j)%nat -> books w !! i = Some b -> books w !! j = Some b' ->
              titleKey toLowerCase b' <> [] ->
              titleKey toLowerCase b <> titleKey toLowerCase b'))).
Proof.
  simpl. unfold onCleanup.
  destruct (isAdmin ADMIN_IDS fromId) eqn:Ha; simpl.
  - crun. rewrite <- scanDuplicates_nil.
    destruct (scanDuplicates toLowerCase (books w)) as [|d l] eqn:E; simpl;
      rewrite replyNow_eq; simpl.
    + split; [reflexivity|]. split; [discriminate|]. intros _.
      split; reflexivity.
    + split; [reflexivity|]. split; [discriminate|]. intros _.
      split; [|discriminate]. unfold replied. intros H. inversion H.
  - rewrite replyNow_eq. simpl. split; [reflexivity|].
    split; [reflexivity | discriminate].
Qed.

Lemma cleanup_command_witness :
  NoDup (map file_id (books loadedWorld))
  /\ ceffects (onCleanup roster noCase quietCommands 7 (js "42") twinWorld)
     = [ Reply 7 (DuplicatesFound 1 [mkDuplicate DupTitle twin2 1] None) None ].
Proof.
  split.
  - apply (proj1 (proj2 (proj2 (cleanup_command roster noCase quietCommands 7
                                  (js "42") loadedWorld)) eq_refl)).
    vm_compute. reflexivity.
  - vm_compute. reflexivity.
Defined.

(** ** The validation job *)

Lemma keeps_ret {A} (I : World -> Prop) (a : A) : keeps I (cret a).
Proof. intros w H. exact H. Qed.

Lemma keeps_throw {A} (I : World -> Prop) (e : Error) : keeps I (@cthrow A e).
Proof. intros w H. exact H. Qed.

Lemma keeps_emit (I : World -> Prop) (e : CommandEffect) : keeps I (cemit e).
Proof. intros w H. exact H. Qed.

Lemma keeps_get (I : World -> Prop) : keeps I cget.
Proof. intros w H. exact H. Qed.

Lemma keeps_bind {A B} (I : World -> Prop) (m : Cmd A) (k : A -> Cmd B) :
  keeps I m -> (forall a, keeps I (k a)) -> keeps I (cbind m k).
Proof.
  intros Hm Hk w H. unfold cbind. specialize (Hm w H).
  destruct (cvalue (m w)) as [e|a]; simpl; [exact Hm|].
  apply Hk, Hm.
Qed.

Lemma keeps_tryCatch {A} (I : World -> Prop) (m : Cmd A) (h : Error -> Cmd A) :
  keeps I m -> (forall e, keeps I (h e)) -> keeps I (ctryCatch m h).
Proof.
  intros Hm Hh w H. unfold ctryCatch. specialize (Hm w H).
  destruct (cvalue (m w)) as [e|a]; simpl; [|exact Hm].
  apply Hh, Hm.
Qed.

(** A first step that returns, under a handler. *)
Lemma ctryCatch_bind {A B} (m : Cmd A) (k : A -> Cmd B) (h : Error -> Cmd B)
  (w wf : World) (es : list CommandEffect) (a : A) :
  m w = mkCOutcome wf es (inr a) ->
  ctryCatch (cbind m k) h w
  = mkCOutcome (cfinal (ctryCatch (k a) h wf))
               (es ++ ceffects (ctryCatch (k a) h wf))
               (cvalue (ctryCatch (k a) h wf)).
Proof.
  intros Hm. unfold ctryCatch, cbind. rewrite Hm. simpl.
  destruct (k a wf) as [wk ek [e|b]]; simpl; rewrite ?app_assoc; reflexivity.
Qed.

Lemma keeps_replyNow (I : World -> Prop) (cenv : CommandEnv) (chatId : Z)
  (t : CommandText) : keeps I (replyNow cenv chatId t).
Proof. intros w H. rewrite replyNow_eq. exact H. Qed.

Section Interleaved.

Variable others : Interleaving.
Variable cenv : CommandEnv.

Lemma keeps_suspend (I : World -> Prop) (s : Suspension) :
  (forall s w, I w -> I (others s w)) -> keeps I (suspend others s).
Proof. intros HI w H. apply HI, H. Qed.

Lemma keeps_cawait (I : World -> Prop) (e : CommandEffect)
  (failure : option Error) : keeps I (cawait e failure).
Proof.
  unfold cawait. apply keeps_bind; [apply keeps_emit|]. intros _.
  destruct failure; [apply keeps_throw | apply keeps_ret].
Qed.

Lemma keeps_cawaitAt (I : World -> Prop) (s : Suspension) (e : CommandEffect)
  (failure : option Error) :
  (forall s w, I w -> I (others s w)) -> keeps I (cawaitAt others s e failure).
Proof.
  intros HI. unfold cawaitAt. apply keeps_bind; [apply keeps_emit|]. intros _.
  apply keeps_bind; [apply keeps_suspend, HI|]. intros _.
  destruct failure; [apply keeps_throw | apply keeps_ret].
Qed.

Lemma keeps_validateLoop (I : World -> Prop) :
  (forall s w, I w -> I (others s w)) ->
  forall fuel i report, keeps I (validateLoop others cenv fuel i report).
Proof.
  intros HI. induction fuel as [|fuel IH]; intros i report;
    [apply keeps_ret|].
  simpl validateLoop. intros w H.
  change (I (cfinal (match books w !! i with
                     | None => cret (Some report)
                     | Some b =>
                         res ← validateFileId others cenv i (file_id b);
                         suspend others (WaitSleep i);;
                         validateLoop others cenv fuel (S i)
                           match res with
                           | Some e =>
                               report ++ [mkReportRow (i + 2) (id b) (title b)
                                            (author b) (file_id b) e]
                           | None => report
                           end
                     end w))).
  destruct (books w !! i) as [b|]; [|exact H]. revert w H.
  apply keeps_bind.
  - unfold validateFileId. apply keeps_bind; [apply keeps_emit|]. intros _.
    apply keeps_bind; [apply keeps_suspend, HI | intros _; apply keeps_ret].
  - intros res. apply keeps_bind; [apply keeps_suspend, HI|]. intros _.
    apply IH.
Qed.

Lemma keeps_job (I : World -> Prop) (fuel : nat) (chatId : Z) :
  (forall s w, I w -> I (others s w)) ->
  keeps I (validateAllFileIdsAndReport others cenv fuel chatId).
Proof.
  intros HI. unfold validateAllFileIdsAndReport, awaitReplyAt.
  apply keeps_tryCatch.
  - apply keeps_bind; [apply keeps_emit|]. intros _.
    apply keeps_bind; [apply keeps_validateLoop, HI|]. intros [report|];
      [|apply keeps_ret].
    destruct (length report =? 0)%nat.
    + apply keeps_bind; [apply keeps_get|]. intros w'.
      apply keeps_bind; [apply keeps_cawaitAt, HI | intros _; apply keeps_ret].
    + apply keeps_bind; [apply keeps_cawait|]. intros _.
      apply keeps_bind; [apply keeps_cawaitAt, HI|]. intros _.
      apply keeps_bind; [apply keeps_cawaitAt, HI|]. intros _.
      apply keeps_bind; [apply keeps_cawait | intros _; apply keeps_ret].
  - intros e. apply keeps_bind; [apply keeps_emit|]. intros _.
    apply keeps_bind; [apply keeps_cawaitAt, HI | intros _; apply keeps_ret].
Qed.

(** While no handler replaces the generation, the loop ends within as
    many turns as records are left, and looks up each of them once. *)
Lemma validateLoop_stable :
  (forall s w, books (others s w) = books w) ->
  forall fuel i report w,
    (length (books w) - i < fuel)%nat ->
    let o := validateLoop others cenv fuel i report w in
    cvalue o = inr (Some (report ++ failing cenv (drop i (books w)) i))
    /\ ceffects o = lookups cenv (drop i (books w)) i
    /\ books (cfinal o) = books w.
Proof.
  intros Hst. induction fuel as [|fuel IH]; intros i report w Hfuel; [lia|].
  cbv zeta. simpl validateLoop.
  change ((w0 ← cget;
           match books w0 !! i with
           | None => cret (Some report)
           | Some b =>
               res ← validateFileId others cenv i (file_id b);
               suspend others (WaitSleep i);;
               validateLoop others cenv fuel (S i)
                 match res with
                 | Some e =>
                     report ++ [mkReportRow (i + 2) (id b) (title b)
                                  (author b) (file_id b) e]
                 | None => report
                 end
           end) w)
    with (let o := (match books w !! i with
                    | None => cret (Some report)
                    | Some b =>
                        res ← validateFileId others cenv i (file_id b);
                        suspend others (WaitSleep i);;
                        validateLoop others cenv fuel (S i)
                          match res with
                          | Some e =>
                              report ++ [mkReportRow (i + 2) (id b) (title b)
                                           (author b) (file_id b) e]
                          | None => report
                          end
                    end) w in
          mkCOutcome (cfinal o) ([] ++ ceffects o) (cvalue o)).
  cbv zeta. simpl app.
  destruct (books w !! i) as [b|] eqn:Hb.
  - rewrite (drop_S _ _ _ Hb). simpl failing. simpl lookups.
    unfold validateFileId, suspend. crun.
    set (w1 := others (WaitSleep i) (others (WaitLookup i) w)).
    assert (Hw1 : books w1 = books w) by (unfold w1; rewrite !Hst; reflexivity).
    assert (Hlen : (i < length (books w))%nat)
      by (apply lookup_lt_is_Some; eexists; exact Hb).
    destruct (IH (S i)
                match getFile_failure cenv i (file_id b) with
                | Some e =>
                    report ++ [mkReportRow (i + 2) (id b) (title b) (author b)
                                 (file_id b) e]
                | None => report
                end w1) as (Hv & He & Hf).
    { rewrite Hw1. lia. }
    cbv zeta in Hv, He, Hf. rewrite Hw1 in Hv, He, Hf.
    rewrite Hv, He, Hf. simpl.
    destruct (getFile_failure cenv i (file_id b)); simpl;
      rewrite <- ?app_assoc; repeat split; reflexivity.
  - apply lookup_ge_None in Hb. rewrite drop_ge by exact Hb. simpl.
    rewrite app_nil_r. repeat split; reflexivity.
Qed.

End Interleaved.

Lemma failing_In (cenv : CommandEnv) (bs : list BookRecord) :
  forall (n : nat) (r : ReportRow),
    In r (failing cenv bs n) <->
    exists i b e,
      bs !! i = Some b /\ getFile_failure cenv (n + i) (file_id b) = Some e
      /\ r = mkReportRow (n + i + 2) (id b) (title b) (author b) (file_id b) e.
Proof.
  induction bs as [|b bs IH]; intros n r; simpl.
  - split; [intros [] | intros (i & b & e & H & _); discriminate H].
  - assert (Htail : In r (failing cenv bs (S n)) <->
                    exists i b' e,
                      (b :: bs) !! S i = Some b'
                      /\ getFile_failure cenv (n + S i) (file_id b') = Some e
                      /\ r = mkReportRow (n + S i + 2) (id b') (title b')
                               (author b') (file_id b') e).
    { rewrite IH. split; intros (i & b' & e & H1 & H2 & H3);
        exists i, b', e; simpl in *;
        replace (n + S i)%nat with (S n + i)%nat in * by lia;
        repeat split; assumption. }
    destruct (getFile_failure cenv n (file_id b)) as [e0|] eqn:E0; simpl.
    + rewrite Htail. split.
      * intros [<- | (i & b' & e & H)].
        -- exists 0%nat, b, e0. rewrite !Nat.add_0_r. repeat split. exact E0.
        -- exists (S i), b', e. exact H.
      * intros ([|i] & b' & e & H1 & H2 & H3).
        -- left. simpl in H1. inversion H1; subst b'.
           rewrite !Nat.add_0_r in *. rewrite E0 in H2. inversion H2; subst.
           reflexivity.
        -- right. exists i, b', e. repeat split; assumption.
    + rewrite Htail. split.
      * intros (i & b' & e & H). exists (S i), b', e. exact H.
      * intros ([|i] & b' & e & H1 & H2 & H3).
        -- simpl in H1. inversion H1; subst b'. rewrite Nat.add_0_r in H2.
           congruence.
        -- exists i, b', e. repeat split; assumption.
Qed.

Lemma failing_rows_increase (cenv : CommandEnv) (bs : list BookRecord) :
  forall n, StronglySorted lt (map r_row (failing cenv bs n)).
Proof.
  induction bs as [|b bs IH]; intros n; simpl; [constructor|].
  destruct (getFile_failure cenv n (file_id b)); [|apply IH].
  simpl. constructor; [apply IH|].
  apply List.Forall_forall. intros x Hx.
  apply List.in_map_iff in Hx as (r & <- & Hr).
  apply failing_In in Hr as (i & b' & e' & _ & _ & ->). simpl. lia.
Qed.

Lemma lookups_imap (cenv : CommandEnv) (bs : list BookRecord) :
  forall n,
    lookups cenv bs n
    = imap (fun i b => GetFile (file_id b)
                         (getFile_failure cenv (n + i) (file_id b))) bs.
Proof.
  induction bs as [|b bs IH]; intros n; simpl; [reflexivity|].
  rewrite Nat.add_0_r. f_equal. rewrite IH. apply imap_ext.
  intros i x _. simpl. f_equal. f_equal. lia.
Qed.

Ltac ceval :=
  cbv beta iota zeta
      delta [mbind mret Cmd_bind Cmd_ret cbind cret cthrow ctryCatch cget
             cemit cawait cawaitAt awaitReplyAt suspend cfinal ceffects
             cvalue].

(** X19: while no handler replaces the generation during the job (the
    other handlers may change everything else), the loop ends, within
    as many turns as the generation has records, and the job looks up
    the reference of every record once, in order.  When moreover the
    messages are accepted and the report can be written, sent and
    removed, the job then either confirms that all the references are
    valid, when none failed, or writes, announces and sends the report
    and removes the file.  The report has one line for each record
    whose reference failed, with its position plus 2 as row number, its
    fields and the error, in the order of the generation. *)
Theorem validation_report_exact
  (others : Interleaving) (cenv : CommandEnv) (fuel : nat) (adminChatId : Z)
  (w : World) :
  (forall s w', books (others s w') = books w') ->
  (length (books w) < fuel)%nat ->
  (forall t, reply_failure cenv adminChatId t = None) ->
  write_failure cenv = None -> report_failure cenv = None ->
  unlink_failure cenv = None ->
  let o := validateAllFileIdsAndReport others cenv fuel adminChatId w in
  let report := failing cenv (books w) 0 in
  (forall r, In r report <->
             exists i b e,
               books w !! i = Some b
               /\ getFile_failure cenv i (file_id b) = Some e
               /\ r = mkReportRow (i + 2) (id b) (title b) (author b)
                        (file_id b) e)
  /\ StronglySorted lt (map r_row report)
  /\ cvalue o = inr (Some tt)
  /\ ceffects o
     = CommandLog ValidationJobStarted
       :: imap (fun i b => GetFile (file_id b)
                             (getFile_failure cenv i (file_id b))) (books w)
       ++ match report with
          | [] => [Reply adminChatId (AllValid (length (books w))) None]
          | _ :: _ =>
              [ WriteReport report None;
                Reply adminChatId (InvalidFound (length report)) None;
                SendReport adminChatId report None;
                UnlinkReport None ]
          end.
Proof.
  intros Hst Hfuel Hreply Hwrite Hsend Hunlink. cbv zeta. split; [|split].
  - intros r. rewrite failing_In. reflexivity.
  - apply failing_rows_increase.
  - destruct (validateLoop_stable others cenv Hst fuel 0 [] w) as (Hv & He & Hf);
      [lia|].
    cbv zeta in Hv, He, Hf. rewrite !drop_0 in Hv, He.
    destruct (validateLoop others cenv fuel 0 [] w) as [wf es v] eqn:Hloop.
    simpl in Hv, He, Hf. subst es v.
    unfold validateAllFileIdsAndReport, mbind, Cmd_bind.
    rewrite (ctryCatch_bind _ _ _ w w [CommandLog ValidationJobStarted] tt
               eq_refl).
    rewrite (ctryCatch_bind _ _ _ _ _ _ _ Hloop).
    rewrite lookups_imap. simpl.
    destruct (failing cenv (books w) 0) as [|r rs] eqn:E;
      simpl (length _ =? 0)%nat; ceval.
    + rewrite Hreply, Hf. simpl. rewrite ?app_nil_r. split; reflexivity.
    + rewrite Hwrite. ceval. rewrite Hreply. ceval.
      rewrite Hsend. ceval. rewrite Hunlink. simpl. rewrite ?app_nil_r.
      split; reflexivity.
Qed.

Lemma validation_report_exact_witness :
  (forall s w', books (userAdmitted s w') = books w')
  /\ ceffects (validateAllFileIdsAndReport userAdmitted staleReference 3 7
                 loadedWorld)
     = [ CommandLog ValidationJobStarted;
         GetFile (js "BQAC 1") None; GetFile (js "BQAC4") (Some boom);
         WriteReport
           [mkReportRow 3 (js "4") (js "Other Book") [] (js "BQAC4") boom] None;
         Reply 7 (InvalidFound 1) None;
         SendReport 7
           [mkReportRow 3 (js "4") (js "Other Book") [] (js "BQAC4") boom] None;
         UnlinkReport None ].
Proof.
  assert (Hst : forall s w', books (userAdmitted s w') = books w')
    by (intros s w'; reflexivity).
  split; [exact Hst|].
  destruct (validation_report_exact userAdmitted staleReference 3 7 loadedWorld)
    as (_ & _ & _ & He).
  - exact Hst.
  - vm_compute. lia.
  - reflexivity.
  - reflexivity.
  - reflexivity.
  - reflexivity.
  - rewrite He. reflexivity.
Defined.

(** X20: the validation job writes nothing to the state.  Whatever
    the outside calls answer and whatever the other handlers do while
    the job waits, a property of the state that those handlers keep
    holds after the job and after [/validate]; when nothing else runs
    meanwhile the state is unchanged.  While no handler replaces the
    generation, the calls of [bot.getFile] are one for each record of
    the generation, in order, whatever the outside calls answer.
    [/validate] of a sender who is not an administrator starts no
    job. *)
Theorem validation_is_read_only
  (ADMIN_IDS : list jsstring) (others : Interleaving) (cenv : CommandEnv)
  (fuel : nat) (chatId : Z) (fromId : jsstring) (w : World) :
  let job := validateAllFileIdsAndReport others cenv fuel chatId w in
  let o := onValidate ADMIN_IDS others cenv fuel chatId fromId w in
  (forall I : World -> Prop,
      (forall s w', I w' -> I (others s w')) -> I w ->
      I (cfinal job) /\ I (cfinal o))
  /\ ((forall s w', others s w' = w') -> cfinal job = w /\ cfinal o = w)
  /\ ((forall s w', books (others s w') = books w') ->
      (length (books w) < fuel)%nat ->
      List.filter isGetFile (ceffects job)
      = imap (fun i b => GetFile (file_id b)
                           (getFile_failure cenv i (file_id b))) (books w))
  /\ (isAdmin ADMIN_IDS fromId = false ->
      ceffects o = replied cenv chatId (OnlyAdmin CmdValidate)).
Proof.
  cbv zeta.
  assert (Hkeep : forall I : World -> Prop,
             (forall s w', I w' -> I (others s w')) -> I w ->
             I (cfinal (validateAllFileIdsAndReport others cenv fuel chatId w))
             /\ I (cfinal (onValidate ADMIN_IDS others cenv fuel chatId
                             fromId w))).
  { intros I HI Hw. split; [apply keeps_job; assumption|].
    revert w Hw. change (keeps I (onValidate ADMIN_IDS others cenv fuel chatId
                                    fromId)).
    unfold onValidate. destruct (negb (isAdmin ADMIN_IDS fromId));
      [apply keeps_replyNow|].
    apply keeps_bind; [apply keeps_replyNow|]. intros _.
    apply keeps_tryCatch; [|intros e; apply keeps_emit].
    apply keeps_bind; [apply keeps_job, HI | intros _; apply keeps_ret]. }
  split; [exact Hkeep|]. split; [|split].
  - intros Hid. apply (Hkeep (fun w' => w' = w)); [|reflexivity].
    intros s w' ->. apply Hid.
  - intros Hst Hfuel.
    assert (Hlook : forall bs n,
               List.filter isGetFile (lookups cenv bs n) = lookups cenv bs n).
    { induction bs as [|b bs IH]; intros n; simpl;
        [reflexivity | rewrite IH; reflexivity]. }
    destruct (validateLoop_stable others cenv Hst fuel 0 [] w) as (Hv & He & Hf);
      [lia|].
    cbv zeta in Hv, He, Hf. rewrite !drop_0 in Hv, He.
    destruct (validateLoop others cenv fuel 0 [] w) as [wf es v] eqn:Hloop.
    simpl in Hv, He, Hf. subst es v.
    unfold validateAllFileIdsAndReport, mbind, Cmd_bind.
    rewrite (ctryCatch_bind _ _ _ w w [CommandLog ValidationJobStarted] tt
               eq_refl).
    rewrite (ctryCatch_bind _ _ _ _ _ _ _ Hloop). simpl.
    destruct (failing cenv (books w) 0) as [|r rs];
      simpl (length _ =? 0)%nat; ceval;
      repeat match goal with
             | |- context [match reply_failure ?a ?b ?c with _ => _ end] =>
                 destruct (reply_failure a b c) eqn:?; ceval
             | |- context [match write_failure ?a with _ => _ end] =>
                 destruct (write_failure a) eqn:?; ceval
             | |- context [match report_failure ?a with _ => _ end] =>
                 destruct (report_failure a) eqn:?; ceval
             | |- context [match unlink_failure ?a with _ => _ end] =>
                 destruct (unlink_failure a) eqn:?; ceval
             end;
      simpl; rewrite ?List.filter_app, ?Hlook; simpl; rewrite ?app_nil_r;
      rewrite lookups_imap; reflexivity.
  - intros Ha. unfold onValidate. rewrite Ha. simpl.
    rewrite replyNow_eq. reflexivity.
Qed.

Lemma validation_is_read_only_witness :
  waitingForMeta
    (cfinal (onValidate roster userAdmitted staleReference 3 7 (js "42")
               (pendingWorld (js "BQAC9"))))
  = {[ 7%Z := mkSession (js "BQAC9") (js "application/pdf") ]}
  /\ List.filter isGetFile
       (ceffects (validateAllFileIdsAndReport userAdmitted staleReference 3 7
                    loadedWorld))
     = [ GetFile (js "BQAC 1") None; GetFile (js "BQAC4") (Some boom) ].
Proof.
  split.
  - apply (proj2 (proj1 (validation_is_read_only roster userAdmitted
                           staleReference 3 7 (js "42")
                           (pendingWorld (js "BQAC9")))
                    (fun w => waitingForMeta w
                              = {[ 7%Z := mkSession (js "BQAC9")
                                            (js "application/pdf") ]})
                    (fun s w' H => H) eq_refl)).
  - rewrite (proj1 (proj2 (proj2 (validation_is_read_only roster userAdmitted
                                    staleReference 3 7 (js "42") loadedWorld)))
               (fun s w' => eq_refl)).
    + reflexivity.
    + vm_compute. lia.
Defined.

(** ** The command [/browse] and the buttons *)

Lemma strLtb_irrefl (a : jsstring) : strLtb a a = false.
Proof.
  induction a as [|x a IH]; simpl; [reflexivity|].
  rewrite N.ltb_irrefl. exact IH.
Qed.

Lemma strLtb_trans (a : jsstring) :
  forall b c, strLtb a b = true -> strLtb b c = true -> strLtb a c = true.
Proof.
  induction a as [|x a IH]; intros [|y b] [|z c]; simpl;
    try discriminate; try reflexivity.
  destruct (N.ltb_spec x y), (N.ltb_spec y x), (N.ltb_spec y z),
    (N.ltb_spec z y), (N.ltb_spec x z), (N.ltb_spec z x);
    try discriminate; try reflexivity; try lia.
  apply IH.
Qed.

Lemma strLtb_total (a : jsstring) :
  forall b, strLtb a b = false -> strLtb b a = false -> a = b.
Proof.
  induction a as [|x a IH]; intros [|y b]; simpl;
    try discriminate; try reflexivity.
  destruct (N.ltb_spec x y), (N.ltb_spec y x); try discriminate; try lia.
  intros H1 H2. assert (x = y) by lia. subst y. f_equal. apply IH; assumption.
Qed.

Lemma insertString_In (x y : jsstring) (l : list jsstring) :
  In y (insertString x l) <-> y = x \/ In y l.
Proof.
  induction l as [|z l IH]; simpl; [intuition congruence|].
  destruct (strLtb z x); simpl; [rewrite IH|]; intuition congruence.
Qed.

Lemma sortStrings_In (y : jsstring) (l : list jsstring) :
  In y (sortStrings l) <-> In y l.
Proof.
  induction l as [|x l IH]; simpl; [reflexivity|].
  rewrite insertString_In, IH. intuition congruence.
Qed.

Lemma insertString_sorted (x : jsstring) (l : list jsstring) :
  StronglySorted strLt l -> ~ In x l ->
  StronglySorted strLt (insertString x l).
Proof.
  induction 1 as [|y l Hl IH Hy]; intros Hx; simpl.
  - repeat constructor.
  - destruct (strLtb y x) eqn:E.
    + constructor.
      * apply IH. intros H. apply Hx. right. exact H.
      * apply List.Forall_forall. intros z Hz.
        apply insertString_In in Hz as [->|Hz]; [exact E|].
        eapply List.Forall_forall in Hy; eassumption.
    + assert (Hxy : strLt x y).
      { unfold strLt. destruct (strLtb x y) eqn:E'; [reflexivity|].
        exfalso. apply Hx. left. apply strLtb_total; assumption. }
      constructor; [constructor; assumption|].
      constructor; [exact Hxy|].
      eapply List.Forall_impl; [|exact Hy]. intros z Hz.
      eapply strLtb_trans; eassumption.
Qed.

Lemma sortStrings_sorted (l : list jsstring) :
  List.NoDup l -> StronglySorted strLt (sortStrings l).
Proof.
  induction 1 as [|x l Hx Hl IH]; simpl; [constructor|].
  apply insertString_sorted; [exact IH|].
  rewrite sortStrings_In. exact Hx.
Qed.

Lemma setOf_In (l : list jsstring) :
  forall acc x, In x (setOf l acc) <-> In x acc \/ In x l.
Proof.
  induction l as [|y l IH]; intros acc x; simpl; [tauto|].
  destruct (bool_decide (y ∈ acc)) eqn:E.
  - apply bool_decide_eq_true in E. apply list_elem_of_In in E.
    rewrite IH. split; [tauto|]. intros [H|[<-|H]]; tauto.
  - rewrite IH, in_app_iff. simpl. tauto.
Qed.

Lemma setOf_NoDup (l : list jsstring) :
  forall acc, List.NoDup acc -> List.NoDup (setOf l acc).
Proof.
  induction l as [|y l IH]; intros acc Hacc; simpl; [exact Hacc|].
  destruct (bool_decide (y ∈ acc)) eqn:E; [apply IH, Hacc|].
  apply bool_decide_eq_false in E. apply IH.
  apply NoDup_ListNoDup. apply NoDup_app. split; [|split].
  - apply NoDup_ListNoDup. exact Hacc.
  - intros z Hz Hz'. apply list_elem_of_singleton in Hz'. subst z. exact (E Hz).
  - apply NoDup_singleton.
Qed.

Lemma StronglySorted_strLt_NoDup (l : list jsstring) :
  StronglySorted strLt l -> List.NoDup l.
Proof.
  induction 1 as [|x l Hl IH Hx]; constructor; [|exact IH].
  intros Hin. eapply List.Forall_forall in Hx; [|exact Hin].
  unfold strLt in Hx. rewrite strLtb_irrefl in Hx. discriminate.
Qed.

Lemma browseAuthors_In (bs : list BookRecord) (a : jsstring) :
  In a (browseAuthors bs) <->
  trim a <> [] /\ exists b, In b bs /\ author b = a.
Proof.
  unfold browseAuthors. rewrite sortStrings_In, setOf_In, List.in_map_iff.
  split.
  - intros [[] | (b & <- & Hb)]. apply List.filter_In in Hb as [Hb Ht].
    apply andb_true_iff in Ht as [_ Ht]. apply truthy_true in Ht.
    split; [exact Ht|]. exists b. split; [exact Hb | reflexivity].
  - intros (Ht & b & Hb & <-). right. exists b. split; [reflexivity|].
    apply List.filter_In. split; [exact Hb|]. apply andb_true_iff.
    split; apply truthy_true; [|exact Ht].
    intros Hnil. rewrite Hnil in Ht. apply Ht. reflexivity.
Qed.

Lemma browseAuthors_sorted (bs : list BookRecord) :
  StronglySorted strLt (browseAuthors bs).
Proof.
  unfold browseAuthors. apply sortStrings_sorted, setOf_NoDup. constructor.
Qed.

(** X21: the authors [/browse] offers are exactly the authors of the
    records of the generation that are not blank, each once, in
    ascending order of their code units; the keyboard has at most 20
    buttons, one for each of the first 20 authors, in that order. *)
Theorem browse_lists_authors (bs : list BookRecord) :
  (forall a, In a (browseAuthors bs) <->
             trim a <> [] /\ exists b, In b bs /\ author b = a)
  /\ StronglySorted (fun a b => strLtb a b = true) (browseAuthors bs)
  /\ List.NoDup (browseAuthors bs)
  /\ (length (browseKeyboard bs) <= 20)%nat
  /\ map b_author (browseKeyboard bs) = take 20 (browseAuthors bs).
Proof.
  split; [apply browseAuthors_In|]. split; [apply browseAuthors_sorted|].
  split; [apply StronglySorted_strLt_NoDup, browseAuthors_sorted|].
  unfold browseKeyboard. split.
  - rewrite length_map, length_take. lia.
  - rewrite map_map. simpl. apply map_id.
Qed.

Lemma answerNow_eq (cenv : CommandEnv) (t : CommandText) (w : World) :
  answerNow cenv t w = mkCOutcome w (answered cenv t) (inr tt).
Proof.
  unfold answerNow, answered. crun.
  destruct (answer_failure cenv t); reflexivity.
Qed.

Opaque answerNow.

(** X22: every button of the keyboard of [/browse] resolves: the count
    on the button is the number of records whose author is the button's,
    it is at least 1, and pressing it (whoever does) sends that many
    records' page (the first 20, and how many more) and answers the
    press with the count, when the page is accepted; the state is
    unchanged. *)
Theorem browse_buttons_resolve
  (ADMIN_IDS : list jsstring) (cenv : CommandEnv) (fromId : jsstring)
  (chatId : Z) (w : World) (btn : Button) :
  In btn (browseKeyboard (books w)) ->
  let found := booksBy (books w) (b_author btn) in
  let page := AuthorBooks (b_author btn) (take 20 found)
                (if (20 <? length found)%nat
                 then Some (length found - 20)%nat else None) in
  b_count btn = length found
  /\ (1 <= b_count btn)%nat
  /\ (reply_failure cenv chatId page = None ->
      onCallback ADMIN_IDS cenv fromId (Some (callback_data btn)) chatId w
      = mkCOutcome w
          (Reply chatId page None :: answered cenv (FoundBooks (b_count btn)))
          (inr tt)).
Proof.
  intros Hin. simpl. unfold browseKeyboard in Hin.
  apply List.in_map_iff in Hin as (a & <- & Ha). simpl.
  assert (Ha' : In a (browseAuthors (books w))).
  { rewrite <- (take_drop 20 (browseAuthors (books w))).
    apply in_or_app. left. exact Ha. }
  apply browseAuthors_In in Ha' as (_ & b & Hb & Hauth).
  assert (Hpos : (1 <= length (booksBy (books w) a))%nat).
  { assert (Hf : In b (booksBy (books w) a)).
    { apply List.filter_In. split; [exact Hb|]. unfold eqb_str.
      apply bool_decide_eq_true. exact Hauth. }
    destruct (booksBy (books w) a); [destruct Hf | simpl; lia]. }
  split; [reflexivity|]. split; [exact Hpos|].
  intros Hreply.
  match goal with
  | |- onCallback _ _ _ (Some ?d) _ _ = _ =>
      assert (H1 : startsWithStr d (js "author:") = true)
        by (simpl; destruct a; reflexivity);
      assert (H2 : drop 7 d = a) by reflexivity;
      set (dd := d) in *; clearbody dd
  end.
  unfold onCallback, orEmpty, awaitReply. cbv zeta. rewrite H1, H2. crun.
  assert (E : (length (booksBy (books w) a) =? 0)%nat = false)
    by (apply Nat.eqb_neq; lia).
  rewrite E. crun. rewrite Hreply. crun.
  rewrite answerNow_eq. reflexivity.
Qed.

(** X23: a button press that is not an author's changes no state and
    is answered exactly once.  Someone who is not an administrator is
    told so and no message is edited; for an administrator a press on
    [handled:] edits the message and answers that it is marked, or that
    the action failed when the edit is refused; any other press is
    answered as unknown. *)
Theorem callback_gating
  (ADMIN_IDS : list jsstring) (cenv : CommandEnv) (fromId : jsstring)
  (data : option jsstring) (chatId : Z) (w : World) :
  startsWithStr (orEmpty data) (js "author:") = false ->
  let o := onCallback ADMIN_IDS cenv fromId data chatId w in
  cfinal o = w
  /\ cvalue o = inr tt
  /\ (isAdmin ADMIN_IDS fromId = false ->
      ceffects o = answered cenv OnlyAdminsCallback)
  /\ (isAdmin ADMIN_IDS fromId = true ->
      ceffects o =
        if startsWithStr (orEmpty data) (js "handled:")
        then EditMessage chatId (edit_failure cenv) ::
             answered cenv (match edit_failure cenv with
                            | Some _ => ActionFailed
                            | None => MarkedHandled
                            end)
        else answered cenv UnknownAction).
Proof.
  intros Hauthor. unfold onCallback. cbv zeta. rewrite Hauthor.
  destruct (isAdmin ADMIN_IDS fromId) eqn:Hadmin; simpl negb; cbv iota.
  - destruct (startsWithStr (orEmpty data) (js "handled:")) eqn:Hh.
    + unfold cawait. destruct (edit_failure cenv) as [e|] eqn:He; crun;
        rewrite ?He; crun; rewrite answerNow_eq; crun;
        (split; [reflexivity|]); (split; [reflexivity|]);
        (split; [discriminate|]); reflexivity.
    + crun. rewrite answerNow_eq. crun.
      split; [reflexivity|]. split; [reflexivity|].
      split; [discriminate|]. reflexivity.
  - crun. rewrite answerNow_eq. crun.
    split; [reflexivity|]. split; [reflexivity|].
    split; [reflexivity|]. discriminate.
Qed.

Lemma browse_buttons_resolve_witness :
  In (mkButton (js "Jane Doe") 1 (js "author:Jane Doe"))
     (browseKeyboard (books twinWorld))
  /\ onCallback roster quietCommands (js "5") (Some (js "author:Jane Doe")) 9
       twinWorld
     = mkCOutcome twinWorld
         [ Reply 9 (AuthorBooks (js "Jane Doe") [twin1] None) None;
           Answer (FoundBooks 1) None ]
         (inr tt).
Proof.
  assert (Hin : In (mkButton (js "Jane Doe") 1 (js "author:Jane Doe"))
                   (browseKeyboard (books twinWorld))).
  { vm_compute. left. reflexivity. }
  split; [exact Hin|].
  exact (proj2 (proj2 (browse_buttons_resolve roster quietCommands (js "5") 9
                         twinWorld _ Hin)) eq_refl).
Defined.

Lemma callback_gating_witness :
  startsWithStr (js "handled:12") (js "author:") = false
  /\ ceffects (onCallback roster quietCommands (js "5")
                 (Some (js "handled:12")) 7 twinWorld)
     = [ Answer OnlyAdminsCallback None ].
Proof.
  split; [reflexivity|].
  exact (proj1 (proj2 (proj2 (callback_gating roster quietCommands (js "5")
                                (Some (js "handled:12")) 7 twinWorld
                                eq_refl))) eq_refl).
Defined.
